(** * ngx-collection: the collection service

    A shallow embedding of [libs/ngx-collection/src/lib/collection.service.ts]
    (class [CollectionService]) and the properties of its duplicate/upsert
    engine, its tracking sets, its total-count decrement policy and its
    CRUD protocol.

    Modelling conventions.
    - The state held by the ComponentStore is the record [CollectionState];
      [patchState] is a synchronous record update.
    - An [Observable] handed to an operation is represented by what it does
      once subscribed ([Outcome]): it emits a first value, fails, completes
      without a value, or is unsubscribed before any of these.
    - A JavaScript [number] is a finite double, given by the rational it
      denotes, an infinity or NaN ([Js.number]); subtraction rounds as
      binary64 does.  [-0] is not told from [0], which [===], [>=], [>] and
      truthiness do not either.
    - A slot typed [number | undefined] holds [undefined] ([None]), [null]
      or a number ([Count]).  An emitted value that is [undefined] or
      [null] is [None].
    - [comparator] comes from [./comparator], which is not part of the
      sources at hand: it is a parameter of the development.
    - Callbacks and the error reporter are recorded in an event log, in the
      order in which the code reaches them.  What a callback throws is
      caught by [callCb]; what the error reporter throws is not, where the
      code calls it directly. *)

From stdpp Require Import base option list strings gmap.
From Stdlib Require Import QArith Qround Qreduction.

Close Scope Q_scope.
Open Scope Z_scope.
Open Scope nat_scope.

Set Default Proof Using "Type".

(** ** JavaScript numbers *)

Module Js.

(** A number: a finite double [Fin q], [q] the rational it denotes,
    [Infinity] and [-Infinity], or [NaN]. *)
Inductive number : Type :=
| Fin (q : Q)
| Inf (negative : bool)
| NaN.

(** The binary exponent of [n/d], [n] not zero: the [e] with
    [2^e ≤ |n/d| < 2^(e+1)]. *)
Definition exponent (n : Z) (d : positive) : Z :=
  let e := (Z.log2 (Z.abs n) - Z.log2 (Z.pos d))%Z in
  if (Z.pos d * 2 ^ Z.max 0 e <=? Z.abs n * 2 ^ Z.max 0 (- e))%Z then e else (e - 1)%Z.

(** The integer nearest to [n/d], [d] positive; a half goes to the even
    neighbour. *)
Definition nearestEven (n d : Z) : Z :=
  let f := (n / d)%Z in
  let twice := (2 * (n mod d))%Z in
  if (twice <? d)%Z then f
  else if (d <? twice)%Z then (f + 1)%Z
  else if Z.even f then f else (f + 1)%Z.

(** The result of an arithmetic operation whose exact value is [q]: the
    nearest double, that is the nearest multiple of the unit in the last
    place [2^u] (53 significant bits, [u] at least [-1074]), a half going
    to the even multiple; an infinity from [2^1024] on. *)
Definition toDouble (q : Q) : number :=
  let n := Qnum q in
  let d := Qden q in
  if (n =? 0)%Z then Fin 0
  else
    let u := Z.max (exponent n d - 52) (-1074) in
    let m := nearestEven (n * 2 ^ Z.max 0 (- u)) (Z.pos d * 2 ^ Z.max 0 u) in
    if (2 ^ 1024 <=? Z.abs m * 2 ^ Z.max 0 u)%Z then Inf (n <? 0)%Z
    else Fin (Qred (Qmake (m * 2 ^ Z.max 0 u) (Z.to_pos (2 ^ Z.max 0 (- u))))).

(** [x - y]. *)
Definition sub (x y : number) : number :=
  match x, y with
  | NaN, _ | _, NaN => NaN
  | Fin a, Fin b => toDouble (a - b)
  | Fin _, Inf negative => Inf (negb negative)
  | Inf negative, Fin _ => Inf negative
  | Inf a, Inf b => if Bool.eqb a b then NaN else Inf a
  end.

(** [Math.round]: the nearest integer, halves towards plus infinity. *)
Definition round (x : number) : number :=
  match x with
  | Fin q => Fin (inject_Z (Qfloor (q + (1 # 2))))
  | _ => x
  end.

(** [x === y] on numbers. *)
Definition eqb (x y : number) : bool :=
  match x, y with
  | Fin a, Fin b => Qeq_bool a b
  | Inf a, Inf b => Bool.eqb a b
  | _, _ => false
  end.

(** [x >= y] and [x > y] on numbers. *)
Definition geb (x y : number) : bool :=
  match x, y with
  | NaN, _ | _, NaN => false
  | Fin a, Fin b => Qle_bool b a
  | Fin _, Inf negative => negative
  | Inf negative, Fin _ => negb negative
  | Inf a, Inf b => implb a b
  end.

Definition gtb (x y : number) : bool :=
  match x, y with
  | NaN, _ | _, NaN => false
  | Fin a, Fin b => negb (Qle_bool a b)
  | Fin _, Inf negative => negative
  | Inf negative, Fin _ => negb negative
  | Inf a, Inf b => negb a && b
  end.

(** Truthiness of a number. *)
Definition truthy (x : number) : bool :=
  match x with
  | Fin q => negb (Qeq_bool q 0)
  | Inf _ => true
  | NaN => false
  end.

(** Truthiness of [string | undefined]. *)
Definition truthyString (x : option string) : option string :=
  match x with
  | Some s => if decide (s = EmptyString) then None else Some s
  | None => None
  end.

(** The length of an array as a number (an array holds fewer than [2^32]
    elements, so its length is a double). *)
Definition ofNat (n : nat) : number := Fin (inject_Z (Z.of_nat n)).

End Js.

(** What a slot typed [number | undefined] holds once it is not
    [undefined]: [null], or a number. *)
Inductive Count : Type :=
| Null
| Num (n : Js.number).

(** [if (prevTotalCount)]: the number, when the value is truthy. *)
Definition truthyCount (x : option Count) : option Js.number :=
  match x with
  | Some (Num n) => if Js.truthy n then Some n else None
  | _ => None
  end.

(** ** Data model *)

(** [FetchedItems<T> | T[]]: a bare array, or [{items, totalCount?}]. *)
Inductive Fetched (T : Type) : Type :=
| Bare (l : list T)
| Structured (fetchedItems : list T) (totalCount : option Count).
Arguments Bare {T} l.
Arguments Structured {T} fetchedItems totalCount.

Definition itemsOf {T} (fetched : Fetched T) : list T :=
  match fetched with
  | Bare l => l
  | Structured l _ => l
  end.

(** [Partial<T> | Partial<T>[]], the argument of the tracking-set helpers. *)
Inductive ItemOrItems (T : Type) : Type :=
| One (item : T)
| Many (items : list T).
Arguments One {T} item.
Arguments Many {T} items.

(** [decrementTotalCount?: boolean | number | string]. *)
Inductive Decrement : Type :=
| DBool (b : bool)
| DNumber (n : Js.number)
| DString (field : string).

(** What [getDecrementedTotalCount] can tell about a response of the
    delete request: [typeof r === 'object' && r != null] with its own
    properties, [null]/[undefined], or a primitive.  A property holds a
    number or something else. *)
Inductive FieldValue : Type :=
| FNumber (n : Js.number)
| FNotNumber.

Inductive Response : Type :=
| RObject (own : gmap string FieldValue)
| RNullish
| RPrimitive.

(** The behaviour of a request observable once subscribed. *)
Inductive Outcome (E A : Type) : Type :=
| Next (a : A)
| Error (e : E)
| Complete
| Unsubscribed.
Arguments Next {E A} a.
Arguments Error {E A} e.
Arguments Complete {E A}.
Arguments Unsubscribed {E A}.

(** Exceptions raised inside a handler: [new Error(throwOnDuplicates)],
    the TypeError of reading [totalCount] of [null], or a value thrown by
    the error reporter, told by its name. *)
Inductive Exn : Type :=
| ErrorMessage (msg : string)
| TypeErrorNullish
| Thrown (what : string).

(** Values passed to [onError]. *)
Inductive ErrValue (E P : Type) : Type :=
| ErrRequest (e : E)
| ErrDuplicateParam (p : P)
| ErrThrown (x : Exn)
| ErrEmpty.
Arguments ErrRequest {E P} e.
Arguments ErrDuplicateParam {E P} p.
Arguments ErrThrown {E P} x.
Arguments ErrEmpty {E P}.

(** Values passed to [onSuccess]. *)
Inductive CbArg (T : Type) : Type :=
| ArgItem (item : T)
| ArgItems (l : list T)
| ArgResponse (r : Response)
| ArgResponses (rs : list Response).
Arguments ArgItem {T} item.
Arguments ArgItems {T} l.
Arguments ArgResponse {T} r.
Arguments ArgResponses {T} rs.

Inductive Channel : Type := OnCreate | OnRead | OnUpdate | OnDelete.

(** [DuplicatesMap<T> = Record<number, Record<number, T>>]. *)
Definition DuplicatesMap (T : Type) : Type := gmap nat (gmap nat T).

(** The two calls of the error reporter in [duplicateNotAdded]:
    ['Duplicate can not be added to collection:', item, items] and
    ['Duplicates are found in collection:', duplicates]. *)
Inductive Report (T : Type) : Type :=
| NotAdded (item : T) (l : list T)
| DuplicatesFound (d : DuplicatesMap T).
Arguments NotAdded {T} item l.
Arguments DuplicatesFound {T} d.

Inductive Event (T E P : Type) : Type :=
| CallOnSuccess (arg : CbArg T)
| CallOnError (err : ErrValue E P)
| Broadcast (ch : Channel) (l : list T)
| Reported (r : Report T).
Arguments CallOnSuccess {T E P} arg.
Arguments CallOnError {T E P} err.
Arguments Broadcast {T E P} ch l.
Arguments Reported {T E P} r.

(** [CollectionState<T, UniqueStatus, Status>]. *)
Record CollectionState (T US St : Type) : Type := mkState {
  items : list T;
  totalCountFetched : option Count;
  isCreating : bool;
  isReading : bool;
  updatingItems : list T;
  deletingItems : list T;
  refreshingItems : list T;
  status : list (US * T);
  statuses : list (T * list St);
}.
Arguments mkState {T US St}.
Arguments items {T US St} c.
Arguments totalCountFetched {T US St} c.
Arguments isCreating {T US St} c.
Arguments isReading {T US St} c.
Arguments updatingItems {T US St} c.
Arguments deletingItems {T US St} c.
Arguments refreshingItems {T US St} c.
Arguments status {T US St} c.
Arguments statuses {T US St} c.

(** The state the constructor passes to [super]. *)
Definition initialState {T US St} : CollectionState T US St :=
  mkState [] None false false [] [] [] [] [].

(** The protected configuration fields of the service, and whether each of
    the four subjects currently has an observer.  The error reporter, when
    one is configured, is given by what each call of it does: it returns
    ([None]) or throws. *)
Record Service (T P : Type) : Type := mkService {
  throwOnDuplicates : option string;
  allowFetchedDuplicates : bool;
  onDuplicateErrCallbackParam : P;
  errReporter : option (Report T → option Exn);
  observed : Channel → bool;
}.
Arguments mkService {T P}.
Arguments throwOnDuplicates {T P} s.
Arguments allowFetchedDuplicates {T P} s.
Arguments onDuplicateErrCallbackParam {T P} s.
Arguments errReporter {T P} s.
Arguments observed {T P} s.

(** ** The duplicate/upsert engine and the tracking sets *)

Section Engine.

Context {T : Type}.

(** [comparator.equal(a, b)] on two entities. *)
Variable equal : T → T → bool.

(** [comparator.equal(i, arr)] when the second argument is the array handed
    to a tracking-set helper rather than an entity. *)
Variable equalArray : T → list T → bool.

(** Identity of two entities as [Array.prototype.includes] sees it. *)
Variable sameValueZero : T → T → bool.

(** [has(item, items, excludeIndex?)]. *)
Fixpoint hasFrom (item : T) (l : list T) (excludeIndex : option nat) (j : nat) : bool :=
  match l with
  | [] => false
  | i :: rest =>
      (if decide (excludeIndex = Some j) then false else equal item i)
      || hasFrom item rest excludeIndex (S j)
  end.

Definition has (item : T) (l : list T) (excludeIndex : option nat) : bool :=
  match excludeIndex with
  | Some _ => hasFrom item l excludeIndex 0
  | None => existsb (λ i, equal item i) l
  end.

(** [getItemByPartial(partItem, items)]. *)
Definition getItemByPartial (partItem : T) (l : list T) : option T :=
  find (λ i, equal i partItem) l.

(** [hasItemIn(item, arr)] for an entity. *)
Definition hasItemIn (item : T) (arr : list T) : bool :=
  existsb (sameValueZero item) arr || existsb (λ i, equal i item) arr.

(** [hasItemIn(item, arr)] as the tracking-set helpers call it, with their
    whole argument: for an array argument [arr.includes] looks for the array
    itself among entities and finds none, and [findIndex] compares each
    member with the array. *)
Definition hasItemInArg (item : ItemOrItems T) (arr : list T) : bool :=
  match item with
  | One i => hasItemIn i arr
  | Many l => false || existsb (λ i, equalArray i l) arr
  end.

(** The [items] array built by the three [addTo...Items] helpers. *)
Definition resolveItems (item : ItemOrItems T) (stored : list T) : list T :=
  match item with
  | Many l => map (λ i, default i (getItemByPartial i stored)) l
  | One i => [default i (getItemByPartial i stored)]
  end.

(** The body shared by [addToUpdatingItems], [addToDeletingItems] and
    [addToRefreshingItems]: the new value of the tracking array. *)
Definition addToTracked (item : ItemOrItems T) (stored tracked : list T) : list T :=
  if hasItemInArg item tracked then tracked
  else tracked ++ resolveItems item stored.

(** The body shared by the three [removeFrom...Items] helpers. *)
Definition removeFromTracked (item : ItemOrItems T) (tracked : list T) : list T :=
  match item with
  | Many l => List.filter (λ i, negb (has i l None)) tracked
  | One x => List.filter (λ i, negb (equal i x)) tracked
  end.

(** The [for] loop of [upsertOne], from index [i] on, with the current
    [firstIndex]; returns [(firstIndex, duplicateIndex)], [-1] for none. *)
Fixpoint upsertOneScan (item : T) (rest : list T) (i firstIndex : Z) : Z * Z :=
  match rest with
  | [] => (firstIndex, -1)%Z
  | x :: rest' =>
      if equal item x then
        if (firstIndex <? 0)%Z then upsertOneScan item rest' (i + 1)%Z i
        else (firstIndex, i)
      else upsertOneScan item rest' (i + 1)%Z firstIndex
  end.

Inductive UpsertOneReturn : Type :=
| ReturnsItems
| ReturnsDuplicate.

(** [upsertOne(item, items)]: the contents of the array [items] after the
    call (it is changed in place), and what is returned: that same array,
    or ['duplicate']. *)
Definition upsertOne (item : T) (l : list T) : list T * UpsertOneReturn :=
  let '(firstIndex, duplicateIndex) := upsertOneScan item l 0%Z (-1)%Z in
  if (firstIndex <? 0)%Z then (l ++ [item], ReturnsItems)
  else if (duplicateIndex <? 0)%Z then (<[Z.to_nat firstIndex := item]> l, ReturnsItems)
  else (l, ReturnsDuplicate).

(** [hasDuplicates(items)]. *)
Fixpoint hasDuplicates (l : list T) : option T :=
  match l with
  | [] => None
  | x :: rest =>
      match find (λ y, equal x y) rest with
      | Some y => Some y
      | None => hasDuplicates rest
      end
  end.

Inductive UpsertManyReturn : Type :=
| ReturnsToItems
| ReturnsDuplicateOf (duplicate : T).

(** The second loop of [upsertMany]. *)
Fixpoint upsertManyLoop (l toItems : list T) : list T * UpsertManyReturn :=
  match l with
  | [] => (toItems, ReturnsToItems)
  | x :: rest =>
      match upsertOne x toItems with
      | (toItems', ReturnsDuplicate) => (toItems', ReturnsDuplicateOf x)
      | (toItems', ReturnsItems) => upsertManyLoop rest toItems'
      end
  end.

(** [upsertMany(items, toItems)]: the contents of [toItems] after the call
    and the value returned; [preExisting] is never set. *)
Definition upsertMany (l toItems : list T) : list T * UpsertManyReturn :=
  match hasDuplicates l with
  | Some d => (toItems, ReturnsDuplicateOf d)
  | None => upsertManyLoop l toItems
  end.

(** The inner loop of [getDuplicates]: [iDupes] and [itemHasDupes] for the
    entity [i] against the later entities, the first of index [ij]. *)
Fixpoint laterDuplicates (i : T) (rest : list T) (ij : nat) : gmap nat T * bool :=
  match rest with
  | [] => (∅, false)
  | j :: rest' =>
      let '(iDupes, itemHasDupes) := laterDuplicates i rest' (S ij) in
      if equal i j then (<[ij := j]> iDupes, true)
      else (iDupes, itemHasDupes)
  end.

(** The outer loop of [getDuplicates]: [duplicates] and [hasDupes]. *)
Fixpoint getDuplicatesFrom (l : list T) (ii : nat) : DuplicatesMap T * bool :=
  match l with
  | [] => (∅, false)
  | i :: rest =>
      let '(iDupes, itemHasDupes) := laterDuplicates i rest (S ii) in
      let '(duplicates, hasDupes) := getDuplicatesFrom rest (S ii) in
      if itemHasDupes then (<[ii := <[ii := i]> iDupes]> duplicates, true)
      else (duplicates, hasDupes)
  end.

(** [getDuplicates(items)]. *)
Definition getDuplicates (l : list T) : option (DuplicatesMap T) :=
  let '(duplicates, hasDupes) := getDuplicatesFrom l 0 in
  if hasDupes then Some duplicates else None.

End Engine.

(** ** The total-count decrement policy *)

(** [getDecrementedTotalCount(response, itemsCount, prevTotalCount,
    decrementTotalCount)]; [None] is the [null] it returns for no change. *)
Definition getDecrementedTotalCount (response : list Response) (itemsCount : nat)
    (prevTotalCount : option Count) (decrementTotalCount : option Decrement)
    : option Js.number :=
  match decrementTotalCount with
  | None => None
  | Some (DString field) =>
      match response with
      | [RObject r] =>
          match r !! field with
          | Some (FNumber n) =>
              if Js.geb n (Js.Fin 0) && Js.eqb (Js.round n) n then Some n else None
          | _ => None
          end
      | _ => None
      end
  | Some (DNumber n) =>
      match truthyCount prevTotalCount with
      | Some prev =>
          let decr := Js.round n in
          if Js.eqb decr n && Js.gtb decr (Js.Fin 0) && Js.geb prev decr
          then Some (Js.sub prev n)
          else None
      | None => None
      end
  | Some (DBool _) =>
      match truthyCount prevTotalCount with
      | Some prev =>
          if Js.geb prev (Js.ofNat itemsCount)
          then Some (Js.sub prev (Js.ofNat itemsCount))
          else None
      | None => None
      end
  end.

(** ** The CRUD operations *)

Section Operations.

Context {T E P US St : Type}.

Variable equal : T → T → bool.
Variable equalArray : T → list T → bool.
Variable sameValueZero : T → T → bool.

(** The service instance: its options and the observers of its subjects. *)
Variable svc : Service T P.

(** [tapResponse] belongs to @ngrx/component-store: whether an exception
    raised by its next-callback reaches its error-callback depends on the
    installed release, so it is left open. *)
Variable tapResponseRoutesThrown : bool.

#[local] Abbreviation State := (CollectionState T US St).
#[local] Abbreviation Ev := (Event T E P).

(** *** [patchState] on each field *)

Definition patchItems (l : list T) (s : State) : State :=
  mkState l (totalCountFetched s) (isCreating s) (isReading s) (updatingItems s)
    (deletingItems s) (refreshingItems s) (status s) (statuses s).

Definition patchTotalCountFetched (n : option Count) (s : State) : State :=
  mkState (items s) n (isCreating s) (isReading s) (updatingItems s)
    (deletingItems s) (refreshingItems s) (status s) (statuses s).

Definition patchIsCreating (b : bool) (s : State) : State :=
  mkState (items s) (totalCountFetched s) b (isReading s) (updatingItems s)
    (deletingItems s) (refreshingItems s) (status s) (statuses s).

Definition patchIsReading (b : bool) (s : State) : State :=
  mkState (items s) (totalCountFetched s) (isCreating s) b (updatingItems s)
    (deletingItems s) (refreshingItems s) (status s) (statuses s).

Definition patchUpdatingItems (l : list T) (s : State) : State :=
  mkState (items s) (totalCountFetched s) (isCreating s) (isReading s) l
    (deletingItems s) (refreshingItems s) (status s) (statuses s).

Definition patchDeletingItems (l : list T) (s : State) : State :=
  mkState (items s) (totalCountFetched s) (isCreating s) (isReading s) (updatingItems s)
    l (refreshingItems s) (status s) (statuses s).

Definition patchRefreshingItems (l : list T) (s : State) : State :=
  mkState (items s) (totalCountFetched s) (isCreating s) (isReading s) (updatingItems s)
    (deletingItems s) l (status s) (statuses s).

(** *** The tracking-set helpers *)

Definition addToUpdatingItems (item : ItemOrItems T) (s : State) : State :=
  patchUpdatingItems
    (addToTracked equal equalArray sameValueZero item (items s) (updatingItems s)) s.

Definition removeFromUpdatingItems (item : ItemOrItems T) (s : State) : State :=
  patchUpdatingItems (removeFromTracked equal item (updatingItems s)) s.

Definition addToDeletingItems (item : ItemOrItems T) (s : State) : State :=
  patchDeletingItems
    (addToTracked equal equalArray sameValueZero item (items s) (deletingItems s)) s.

Definition removeFromDeletingItems (item : ItemOrItems T) (s : State) : State :=
  patchDeletingItems (removeFromTracked equal item (deletingItems s)) s.

Definition addToRefreshingItems (item : ItemOrItems T) (s : State) : State :=
  patchRefreshingItems
    (addToTracked equal equalArray sameValueZero item (items s) (refreshingItems s)) s.

Definition removeFromRefreshingItems (item : ItemOrItems T) (s : State) : State :=
  patchRefreshingItems (removeFromTracked equal item (refreshingItems s)) s.

(** *** Handlers: state, event log and exceptions *)

Definition Eff (A : Type) : Type := State → State * list Ev * (Exn + A).

#[global] Instance eff_ret : MRet Eff := λ A a s, (s, [], inr a).

#[global] Instance eff_bind : MBind Eff := λ A B f m s,
  match m s with
  | (s1, l1, inr a) =>
      match f a s1 with
      | (s2, l2, r) => (s2, l1 ++ l2, r)
      end
  | (s1, l1, inl x) => (s1, l1, inl x)
  end.

Definition patchState (f : State → State) : Eff unit := λ s, (f s, [], inr ()).
Definition getState : Eff State := λ s, (s, [], inr s).
Definition emit (e : Ev) : Eff unit := λ s, (s, [e], inr ()).
Definition throw {A} (x : Exn) : Eff A := λ s, (s, [], inl x).

(** A finished subscription as a handler (it raises nothing). *)
Definition lift (f : State → State * list Ev) : Eff unit :=
  λ s, let '(s', l) := f s in (s', l, inr ()).

(** [callCb(params.onSuccess, param)] and [callCb(params.onError, param)]:
    the callback, when the caller gave one, is invoked with [param]; what it
    raises is caught there. *)
Definition callOnSuccess (param : CbArg T) : Eff unit := emit (CallOnSuccess param).
Definition callOnError (param : ErrValue E P) : Eff unit := emit (CallOnError param).

(** [if (this.onX.observed) this.onX.next(l)]. *)
Definition broadcast (ch : Channel) (l : list T) : Eff unit :=
  if observed svc ch then emit (Broadcast ch l) else mret ().

(** [this.errReporter(...)] called directly: what the reporter throws goes
    on to the caller. *)
Definition callReporter (reporter : Report T → option Exn) (r : Report T) : Eff unit :=
  emit (Reported r);;
  match reporter r with
  | Some x => throw x
  | None => mret ()
  end.

(** [duplicateNotAdded(item, items)]. *)
Definition duplicateNotAdded (item : T) (l : list T) : Eff unit :=
  match Js.truthyString (throwOnDuplicates svc) with
  | Some msg => throw (ErrorMessage msg)
  | None =>
      match errReporter svc with
      | Some reporter =>
          callReporter reporter (NotAdded item l);;
          match getDuplicates equal l with
          | Some duplicates => callReporter reporter (DuplicatesFound duplicates)
          | None => mret ()
          end
      | None => mret ()
      end
  end.

(** [request.pipe(finalize(done), first(), ..., handlers)]: the handlers
    on the first value, on an error (also the EmptyError of [first()] when
    the request completes without a value), on an exception raised by the
    next-handler when [routesThrown]; then the [finalize] callback, on every
    outcome. *)
Definition subscribe {A} (routesThrown : bool) (next : A → Eff unit)
    (error : ErrValue E P → Eff unit) (done : State → State)
    (request : Outcome E A) (s : State) : State * list Ev :=
  let '(s1, l1, r) :=
    match request with
    | Next a => next a s
    | Error e => error (ErrRequest e) s
    | Complete => error ErrEmpty s
    | Unsubscribed => (s, [], inr ())
    end in
  let '(s2, l2) :=
    match r, request with
    | inl x, Next _ =>
        if routesThrown then
          let '(s', l', _) := error (ErrThrown x) s1 in (s', l1 ++ l')
        else (s1, l1)
    | _, _ => (s1, l1)
    end in
  (done s2, l2).

(** [totalCountFetched: Array.isArray(fetched) ? kept : fetched.totalCount]. *)
Definition totalCountOf (fetched : Fetched T) (kept : option Count) : option Count :=
  match fetched with
  | Bare _ => kept
  | Structured _ totalCount => totalCount
  end.

(** The [else] branch of [createMany], [refreshMany] and [readMany]:
    [if (!Array.isArray(fetched) && fetched.totalCount !== undefined)];
    a [null] is written as any number is. *)
Definition patchTotalCountOnly (fetched : Fetched T) : Eff unit :=
  match fetched with
  | Structured _ (Some totalCount) => patchState (patchTotalCountFetched (Some totalCount))
  | _ => mret ()
  end.

(** *** create *)

Definition createNext (item : option T) : Eff unit :=
  s ← getState;
  match item with
  | Some item =>
      if negb (hasItemIn equal sameValueZero item (items s)) then
        patchState (patchItems (items s ++ [item]));;
        callOnSuccess (ArgItem item);;
        broadcast OnCreate [item]
      else
        duplicateNotAdded item (items s);;
        callOnError (ErrDuplicateParam (onDuplicateErrCallbackParam svc))
  | None => mret ()
  end.

Definition createCall (s : State) : State := patchIsCreating true s.

Definition createSubscribed (request : Outcome E (option T)) : State → State * list Ev :=
  subscribe tapResponseRoutesThrown createNext callOnError (patchIsCreating false) request.

Definition create (request : Outcome E (option T)) (s : State) : State * list Ev :=
  createSubscribed request (createCall s).

(** *** createMany *)

Definition createManyNext (fetched : option (Fetched T)) : Eff unit :=
  s ← getState;
  match fetched with
  | Some fetched =>
      let fetchedItems := itemsOf fetched in
      if (0 <? length fetchedItems) then
        let newItems := items s in
        match upsertMany equal fetchedItems newItems with
        | (_, ReturnsDuplicateOf duplicate) =>
            duplicateNotAdded duplicate (items s);;
            callOnError (ErrDuplicateParam (onDuplicateErrCallbackParam svc))
        | (_, ReturnsToItems) =>
            patchState (λ s',
              patchTotalCountFetched (totalCountOf fetched (totalCountFetched s'))
                (patchItems (items s ++ fetchedItems) s'));;
            callOnSuccess (ArgItems fetchedItems);;
            broadcast OnCreate fetchedItems
        end
      else patchTotalCountOnly fetched
  | None => mret ()
  end.

Definition createManyCall (s : State) : State := patchIsCreating true s.

Definition createManySubscribed (request : Outcome E (option (Fetched T)))
    : State → State * list Ev :=
  subscribe tapResponseRoutesThrown createManyNext callOnError (patchIsCreating false) request.

Definition createMany (request : Outcome E (option (Fetched T))) (s : State)
    : State * list Ev :=
  createManySubscribed request (createManyCall s).

(** *** read *)

(** The reset of [read] on failure, unless [keepExistingOnError]. *)
Definition resetUnlessKept (keepExistingOnError : bool) : Eff unit :=
  if negb keepExistingOnError
  then patchState (λ s, patchTotalCountFetched None (patchItems [] s))
  else mret ().

(** [onSuccessParam] is what the caller's [onSuccess] receives for the
    array [read] passes to [params.onSuccess]: the array itself, or, when
    [delete]/[deleteMany] wrapped it, their response. *)
Definition readNext (keepExistingOnError : bool) (onSuccessParam : list T → CbArg T)
    (fetched : option (Fetched T)) : Eff unit :=
  let l := match fetched with None => [] | Some f => itemsOf f end in
  let commit : Eff unit :=
    match fetched with
    | None => throw TypeErrorNullish
    | Some f =>
        patchState (λ s, patchTotalCountFetched (totalCountOf f None) (patchItems l s));;
        callOnSuccess (onSuccessParam l);;
        broadcast OnRead l
    end in
  if (0 <? length l) then
    match hasDuplicates equal l with
    | Some duplicate =>
        duplicateNotAdded duplicate l;;
        if negb (allowFetchedDuplicates svc) then
          resetUnlessKept keepExistingOnError;;
          callOnError (ErrDuplicateParam (onDuplicateErrCallbackParam svc))
        else commit
    | None => commit
    end
  else commit.

Definition readError (keepExistingOnError : bool) (error : ErrValue E P) : Eff unit :=
  resetUnlessKept keepExistingOnError;;
  callOnError error.

Definition readCall (s : State) : State := patchIsReading true s.

Definition readSubscribed (keepExistingOnError : bool) (onSuccessParam : list T → CbArg T)
    (request : Outcome E (option (Fetched T))) : State → State * list Ev :=
  subscribe tapResponseRoutesThrown (readNext keepExistingOnError onSuccessParam)
    (readError keepExistingOnError) (patchIsReading false) request.

Definition readWith (keepExistingOnError : bool) (onSuccessParam : list T → CbArg T)
    (request : Outcome E (option (Fetched T))) (s : State) : State * list Ev :=
  readSubscribed keepExistingOnError onSuccessParam request (readCall s).

Definition read (keepExistingOnError : bool) (request : Outcome E (option (Fetched T)))
    : State → State * list Ev :=
  readWith keepExistingOnError ArgItems request.

(** *** readOne, refresh, and the upsert of [update] *)

(** The next-handler that [refresh], [readOne] and [update] (without
    [refreshRequest]) share up to the subject they notify. *)
Definition upsertOneNext (ch : Channel) (newItem : option T) : Eff unit :=
  s ← getState;
  match newItem with
  | Some newItem =>
      let newItems := items s in
      match upsertOne equal newItem newItems with
      | (_, ReturnsDuplicate) =>
          duplicateNotAdded newItem (items s);;
          callOnError (ErrDuplicateParam (onDuplicateErrCallbackParam svc))
      | (newItems', ReturnsItems) =>
          patchState (patchItems newItems');;
          callOnSuccess (ArgItem newItem);;
          broadcast ch [newItem]
      end
  | None => mret ()
  end.

Definition readOneCall (s : State) : State := patchIsReading true s.

Definition readOneSubscribed (request : Outcome E (option T)) : State → State * list Ev :=
  subscribe tapResponseRoutesThrown (upsertOneNext OnRead) callOnError
    (patchIsReading false) request.

Definition readOne (request : Outcome E (option T)) (s : State) : State * list Ev :=
  readOneSubscribed request (readOneCall s).

Definition refreshCall (item : T) (s : State) : State := addToRefreshingItems (One item) s.

Definition refreshSubscribed (item : T) (request : Outcome E (option T))
    : State → State * list Ev :=
  subscribe tapResponseRoutesThrown (upsertOneNext OnRead) callOnError
    (removeFromRefreshingItems (One item)) request.

Definition refresh (item : T) (request : Outcome E (option T)) (s : State)
    : State * list Ev :=
  refreshSubscribed item request (refreshCall item s).

(** *** refreshMany and readMany *)

Definition refreshManyNext (fetched : option (Fetched T)) : Eff unit :=
  s ← getState;
  match fetched with
  | Some fetched =>
      let fetchedItems := itemsOf fetched in
      if (0 <? length fetchedItems) then
        let newItems := items s in
        match upsertMany equal fetchedItems newItems with
        | (_, ReturnsDuplicateOf duplicate) =>
            duplicateNotAdded duplicate (items s);;
            callOnError (ErrDuplicateParam (onDuplicateErrCallbackParam svc))
        | (newItems', ReturnsToItems) =>
            patchState (λ s',
              patchTotalCountFetched (totalCountOf fetched (totalCountFetched s'))
                (patchItems newItems' s'));;
            callOnSuccess (ArgItems newItems');;
            broadcast OnRead fetchedItems
        end
      else patchTotalCountOnly fetched
  | None => mret ()
  end.

Definition refreshManyCall (l : list T) (s : State) : State :=
  addToRefreshingItems (Many l) s.

Definition refreshManySubscribed (l : list T) (request : Outcome E (option (Fetched T)))
    : State → State * list Ev :=
  subscribe tapResponseRoutesThrown refreshManyNext callOnError
    (removeFromRefreshingItems (Many l)) request.

Definition refreshMany (l : list T) (request : Outcome E (option (Fetched T))) (s : State)
    : State * list Ev :=
  refreshManySubscribed l request (refreshManyCall l s).

Definition readManyNext (fetched : option (Fetched T)) : Eff unit :=
  s ← getState;
  let readItems := match fetched with None => [] | Some f => itemsOf f end in
  if (0 <? length readItems) then
    let newItems := items s in
    match upsertMany equal readItems newItems with
    | (_, ReturnsDuplicateOf duplicate) =>
        duplicateNotAdded duplicate (items s);;
        callOnError (ErrDuplicateParam (onDuplicateErrCallbackParam svc))
    | (newItems', ReturnsToItems) =>
        patchState (λ s',
          patchTotalCountFetched
            (match fetched with
             | Some f => totalCountOf f (totalCountFetched s)
             | None => totalCountFetched s
             end)
            (patchItems newItems' s'));;
        callOnSuccess (ArgItems newItems');;
        broadcast OnRead readItems
    end
  else
    match fetched with
    | Some f => patchTotalCountOnly f
    | None => throw TypeErrorNullish
    end.

Definition readManyCall (s : State) : State := patchIsReading true s.

Definition readManySubscribed (request : Outcome E (option (Fetched T)))
    : State → State * list Ev :=
  subscribe tapResponseRoutesThrown readManyNext callOnError (patchIsReading false) request.

Definition readMany (request : Outcome E (option (Fetched T))) (s : State)
    : State * list Ev :=
  readManySubscribed request (readManyCall s).

(** *** update and updateMany *)

(** [switchMap] of [update]: the [refresh] it returns when there is a
    [refreshRequest] (called and subscribed on the spot), else the upsert
    of the emitted entity. *)
Definition updateNext (item : T) (refreshRequest : option (Outcome E (option T)))
    (newItem : option T) : Eff unit :=
  match refreshRequest with
  | Some request => lift (refresh item request)
  | None => upsertOneNext OnUpdate newItem
  end.

Definition updateCall (item : T) (s : State) : State := addToUpdatingItems (One item) s.

Definition updateSubscribed (item : T) (request : Outcome E (option T))
    (refreshRequest : option (Outcome E (option T))) : State → State * list Ev :=
  subscribe true (updateNext item refreshRequest) callOnError
    (removeFromUpdatingItems (One item)) request.

Definition update (item : T) (request : Outcome E (option T))
    (refreshRequest : option (Outcome E (option T))) (s : State) : State * list Ev :=
  updateSubscribed item request refreshRequest (updateCall item s).

Definition updateManyNext (l : list T) (refreshRequest : option (Outcome E (option (Fetched T))))
    (updatedItems : option (list T)) : Eff unit :=
  match refreshRequest with
  | Some request => lift (refreshMany l request)
  | None =>
      s ← getState;
      match updatedItems with
      | Some updatedItems =>
          let newItems := items s in
          match upsertMany equal updatedItems newItems with
          | (_, ReturnsDuplicateOf duplicate) =>
              duplicateNotAdded duplicate (items s);;
              callOnError (ErrDuplicateParam (onDuplicateErrCallbackParam svc))
          | (newItems', ReturnsToItems) =>
              patchState (patchItems newItems');;
              callOnSuccess (ArgItems updatedItems);;
              broadcast OnUpdate updatedItems
          end
      | None => mret ()
      end
  end.

Definition updateManyCall (l : list T) (s : State) : State := addToUpdatingItems (Many l) s.

Definition updateManySubscribed (l : list T) (request : Outcome E (option (list T)))
    (refreshRequest : option (Outcome E (option (Fetched T)))) : State → State * list Ev :=
  subscribe true (updateManyNext l refreshRequest) callOnError
    (removeFromUpdatingItems (Many l)) request.

Definition updateMany (l : list T) (request : Outcome E (option (list T)))
    (refreshRequest : option (Outcome E (option (Fetched T)))) (s : State)
    : State * list Ev :=
  updateManySubscribed l request refreshRequest (updateManyCall l s).

(** *** delete and deleteMany *)

(** The [patchState] of both deletions: [items] always, [totalCountFetched]
    only when a new count was computed. *)
Definition patchDeleted (l : list T) (newTotalCount : option Js.number) : Eff unit :=
  match newTotalCount with
  | None => patchState (patchItems l)
  | Some n => patchState (λ s, patchTotalCountFetched (Some (Num n)) (patchItems l s))
  end.

Definition deleteNext (item : T) (decrementTotalCount : option Decrement)
    (readRequest : option (Outcome E (option (Fetched T)))) (response : Response)
    : Eff unit :=
  match readRequest with
  | Some request => lift (readWith false (λ _, ArgResponse response) request)
  | None =>
      s ← getState;
      let newTotalCount :=
        getDecrementedTotalCount [response] 1 (totalCountFetched s) decrementTotalCount in
      let filteredItems := List.filter (λ i, negb (equal i item)) (items s) in
      patchDeleted filteredItems newTotalCount;;
      callOnSuccess (ArgResponse response);;
      broadcast OnDelete [item]
  end.

Definition deleteCall (item : T) (s : State) : State := addToDeletingItems (One item) s.

Definition deleteSubscribed (item : T) (request : Outcome E Response)
    (decrementTotalCount : option Decrement)
    (readRequest : option (Outcome E (option (Fetched T)))) : State → State * list Ev :=
  subscribe true (deleteNext item decrementTotalCount readRequest) callOnError
    (removeFromDeletingItems (One item)) request.

Definition delete (item : T) (request : Outcome E Response)
    (decrementTotalCount : option Decrement)
    (readRequest : option (Outcome E (option (Fetched T)))) (s : State)
    : State * list Ev :=
  deleteSubscribed item request decrementTotalCount readRequest (deleteCall item s).

(** [request] stands for [forkJoin] of the request or requests: it emits
    the array of their responses. *)
Definition deleteManyNext (l : list T) (decrementTotalCount : option Decrement)
    (readRequest : option (Outcome E (option (Fetched T)))) (response : list Response)
    : Eff unit :=
  match readRequest with
  | Some request => lift (readWith false (λ _, ArgResponses response) request)
  | None =>
      s ← getState;
      let newTotalCount :=
        getDecrementedTotalCount response (length l) (totalCountFetched s)
          decrementTotalCount in
      let newItems := List.filter (λ i, negb (has equal i l None)) (items s) in
      patchDeleted newItems newTotalCount;;
      callOnSuccess (ArgResponses response);;
      broadcast OnDelete l
  end.

Definition deleteManyCall (l : list T) (s : State) : State := addToDeletingItems (Many l) s.

Definition deleteManySubscribed (l : list T) (request : Outcome E (list Response))
    (decrementTotalCount : option Decrement)
    (readRequest : option (Outcome E (option (Fetched T)))) : State → State * list Ev :=
  subscribe true (deleteManyNext l decrementTotalCount readRequest) callOnError
    (removeFromDeletingItems (Many l)) request.

Definition deleteMany (l : list T) (request : Outcome E (list Response))
    (decrementTotalCount : option Decrement)
    (readRequest : option (Outcome E (option (Fetched T)))) (s : State)
    : State * list Ev :=
  deleteManySubscribed l request decrementTotalCount readRequest (deleteManyCall l s).

(** *** Sequences of operations *)

(** One call of a public operation, with the behaviour of the request (and
    of the follow-up request) it was given. *)
Inductive Operation : Type :=
| OpCreate (request : Outcome E (option T))
| OpCreateMany (request : Outcome E (option (Fetched T)))
| OpRead (keepExistingOnError : bool) (request : Outcome E (option (Fetched T)))
| OpReadOne (request : Outcome E (option T))
| OpReadMany (request : Outcome E (option (Fetched T)))
| OpRefresh (item : T) (request : Outcome E (option T))
| OpRefreshMany (l : list T) (request : Outcome E (option (Fetched T)))
| OpUpdate (item : T) (request : Outcome E (option T))
    (refreshRequest : option (Outcome E (option T)))
| OpUpdateMany (l : list T) (request : Outcome E (option (list T)))
    (refreshRequest : option (Outcome E (option (Fetched T))))
| OpDelete (item : T) (request : Outcome E Response)
    (decrementTotalCount : option Decrement)
    (readRequest : option (Outcome E (option (Fetched T))))
| OpDeleteMany (l : list T) (request : Outcome E (list Response))
    (decrementTotalCount : option Decrement)
    (readRequest : option (Outcome E (option (Fetched T)))).

(** The synchronous part of the call: the busy flag or tracking set. *)
Definition call (op : Operation) : State → State :=
  match op with
  | OpCreate _ => createCall
  | OpCreateMany _ => createManyCall
  | OpRead _ _ => readCall
  | OpReadOne _ => readOneCall
  | OpReadMany _ => readManyCall
  | OpRefresh item _ => refreshCall item
  | OpRefreshMany l _ => refreshManyCall l
  | OpUpdate item _ _ => updateCall item
  | OpUpdateMany l _ _ => updateManyCall l
  | OpDelete item _ _ _ => deleteCall item
  | OpDeleteMany l _ _ _ => deleteManyCall l
  end.

(** From the subscription of the returned observable to its teardown. *)
Definition subscribed (op : Operation) : State → State * list Ev :=
  match op with
  | OpCreate request => createSubscribed request
  | OpCreateMany request => createManySubscribed request
  | OpRead keep request => readSubscribed keep ArgItems request
  | OpReadOne request => readOneSubscribed request
  | OpReadMany request => readManySubscribed request
  | OpRefresh item request => refreshSubscribed item request
  | OpRefreshMany l request => refreshManySubscribed l request
  | OpUpdate item request refreshRequest => updateSubscribed item request refreshRequest
  | OpUpdateMany l request refreshRequest => updateManySubscribed l request refreshRequest
  | OpDelete item request decr readRequest => deleteSubscribed item request decr readRequest
  | OpDeleteMany l request decr readRequest =>
      deleteManySubscribed l request decr readRequest
  end.

(** A whole operation, nothing else running in between. *)
Definition perform (op : Operation) (s : State) : State * list Ev :=
  subscribed op (call op s).

(** Operations one after the other; the log is dropped. *)
Fixpoint performAll (ops : list Operation) (s : State) : State :=
  match ops with
  | [] => s
  | op :: rest => performAll rest (perform op s).1
  end.

(** Calls and completions of possibly overlapping operations: each
    operation is called, and later its subscription runs to its end. *)
Inductive Phase : Type :=
| Called (op : Operation)
| Settled (op : Operation).

Definition phase (p : Phase) (s : State) : State :=
  match p with
  | Called op => call op s
  | Settled op => (subscribed op s).1
  end.

Definition phases (ps : list Phase) (s : State) : State := foldl (λ s p, phase p s) s ps.

(** A handler leaves the part [g] of the state as it found it. *)
Definition keeps {A X : Type} (g : State → X) (m : Eff A) : Prop :=
  ∀ s, g (m s).1.1 = g s.

End Operations.

(** ** The derived selectors and the view models *)

Section ViewModel.

Context {T US St : Type}.
Variable equal : T → T → bool.
Variable sameValueZero : T → T → bool.

#[local] Abbreviation State := (CollectionState T US St).

(** [mutatingItems$]. *)
Definition mutatingItems (s : State) : list T := updatingItems s ++ deletingItems s.

(** [isUpdating$] and [isDeleting$]: [items.length > 0]. *)
Definition isUpdating (s : State) : bool := 0 <? length (updatingItems s).
Definition isDeleting (s : State) : bool := 0 <? length (deletingItems s).

(** [isSaving$], [isMutating$] and [isProcessing$]. *)
Definition isSaving (s : State) : bool := isCreating s || isUpdating s.
Definition isMutating (s : State) : bool := isCreating s || isUpdating s || isDeleting s.
Definition isProcessing (s : State) : bool :=
  isMutating s || isReading s || (0 <? length (refreshingItems s)).

(** What [getItemViewModel(itemSource)] selects, for the value the source
    last emitted ([None] before it emits, or for [undefined]). *)
Record ItemViewModel : Type := mkItemViewModel {
  itemIsDeleting : bool;
  itemIsRefreshing : bool;
  itemIsUpdating : bool;
  itemIsMutating : bool;
  itemIsProcessing : bool;
}.

(** [!!item && this.hasItemIn(item, items)]. *)
Definition itemIn (item : option T) (l : list T) : bool :=
  match item with
  | Some i => hasItemIn equal sameValueZero i l
  | None => false
  end.

Definition getItemViewModel (item : option T) (s : State) : ItemViewModel :=
  mkItemViewModel
    (itemIn item (deletingItems s))
    (itemIn item (refreshingItems s))
    (itemIn item (updatingItems s))
    (itemIn item (mutatingItems s))
    (match item with
     | Some i =>
         isProcessing s
         && (hasItemIn equal sameValueZero i (refreshingItems s)
             || hasItemIn equal sameValueZero i (mutatingItems s))
     | None => false
     end).

(** [getItem(filter)] for a plain filter, and for the value an observable
    filter last emitted. *)
Definition getItem (filter : T) (s : State) : option T :=
  getItemByPartial equal filter (items s).

Definition getItemObserved (filter : option T) (s : State) : option T :=
  match filter with
  | Some item => getItemByPartial equal item (items s)
  | None => None
  end.

End ViewModel.

(** ** The status maps *)

(** A JavaScript [Map] as the list of its entries in insertion order, keys
    compared by [same]; a [Set] as the list of its members. *)
Section JsMap.

Context {K V : Type}.
Variable same : K → K → bool.

Definition mapGet (k : K) (m : list (K * V)) : option V :=
  snd <$> find (λ e, same e.1 k) m.

Definition mapHas (k : K) (m : list (K * V)) : bool := existsb (λ e, same e.1 k) m.

(** [map.set(k, v)]: the entry of [k] keeps its place and gets [v], a new
    key goes to the end. *)
Definition mapSet (k : K) (v : V) (m : list (K * V)) : list (K * V) :=
  if mapHas k m then map (λ e, if same e.1 k then (e.1, v) else e) m
  else m ++ [(k, v)].

Definition mapDelete (k : K) (m : list (K * V)) : list (K * V) :=
  List.filter (λ e, negb (same e.1 k)) m.

Definition setAdd (x : K) (l : list K) : list K :=
  if existsb (λ y, same y x) l then l else l ++ [x].

Definition setDelete (x : K) (l : list K) : list K :=
  List.filter (λ y, negb (same y x)) l.

End JsMap.

Section StatusMaps.

Context {T US St : Type}.
Variable equal : T → T → bool.
Variable sameValueZero : T → T → bool.

(** Identity of two unique-status keys, and of two status tags, as [Map]
    and [Set] see them. *)
Variable sameUniqueStatus : US → US → bool.
Variable sameStatus : St → St → bool.

#[local] Abbreviation State := (CollectionState T US St).

Definition patchStatus (m : list (US * T)) (s : State) : State :=
  mkState (items s) (totalCountFetched s) (isCreating s) (isReading s) (updatingItems s)
    (deletingItems s) (refreshingItems s) m (statuses s).

Definition patchStatuses (m : list (T * list St)) (s : State) : State :=
  mkState (items s) (totalCountFetched s) (isCreating s) (isReading s) (updatingItems s)
    (deletingItems s) (refreshingItems s) (status s) m.

(** [setUniqueStatus(status, item, active)]. *)
Definition setUniqueStatus (key : US) (item : T) (active : bool) (s : State) : State :=
  if negb active then
    match mapGet sameUniqueStatus key (status s) with
    | Some current =>
        if equal item current
        then patchStatus (mapDelete sameUniqueStatus key (status s)) s
        else s
    | None => s
    end
  else patchStatus (mapSet sameUniqueStatus key item (status s)) s.

(** [deleteUniqueStatus(status)]. *)
Definition deleteUniqueStatus (key : US) (s : State) : State :=
  patchStatus (mapDelete sameUniqueStatus key (status s)) s.

(** [setItemStatus(item, status)]. *)
Definition setItemStatus (item : T) (tag : St) (s : State) : State :=
  let itemStatuses := default [] (mapGet sameValueZero item (statuses s)) in
  patchStatuses (mapSet sameValueZero item (setAdd sameStatus tag itemStatuses) (statuses s)) s.

(** [deleteItemStatus(item, status)]. *)
Definition deleteItemStatus (item : T) (tag : St) (s : State) : State :=
  match mapGet sameValueZero item (statuses s) with
  | Some itemStatuses =>
      patchStatuses
        (mapSet sameValueZero item (setDelete sameStatus tag itemStatuses) (statuses s)) s
  | None => s
  end.

(** [s.status.get(key)] and [s.statuses.get(item)]. *)
Definition statusHolder (key : US) (s : State) : option T :=
  mapGet sameUniqueStatus key (status s).

Definition itemStatusesOf (item : T) (s : State) : option (list St) :=
  mapGet sameValueZero item (statuses s).

End StatusMaps.

(** ** Vocabulary of the properties *)

Section Vocabulary.

Context {T E P US St : Type}.
Variable equal : T → T → bool.

(** How many elements of [l] the comparator finds equal to [item], with
    the argument order of [upsertOne]. *)
Definition matchCount (item : T) (l : list T) : nat :=
  length (List.filter (equal item) l).

(** No two elements at different positions are Comparator-equal. *)
Definition noDuplicates (l : list T) : Prop :=
  ∀ i j x y, l !! i = Some x → l !! j = Some y → i ≠ j → equal x y = false.

(** The entities an operation was given to track. *)
Definition itemsOfArg (item : ItemOrItems T) : list T :=
  match item with
  | One x => [x]
  | Many l => l
  end.

Definition trackedBy (op : @Operation T E) : list T :=
  match op with
  | OpRefresh item _ | OpUpdate item _ _ | OpDelete item _ _ _ => [item]
  | OpRefreshMany l _ | OpUpdateMany l _ _ | OpDeleteMany l _ _ _ => l
  | _ => []
  end.

(** The tracking set an operation marks its entities in; none for the
    operations that raise a busy flag instead. *)
Definition trackingSet (op : @Operation T E) (s : CollectionState T US St) : list T :=
  match op with
  | OpRefresh _ _ | OpRefreshMany _ _ => refreshingItems s
  | OpUpdate _ _ _ | OpUpdateMany _ _ _ => updatingItems s
  | OpDelete _ _ _ _ | OpDeleteMany _ _ _ _ => deletingItems s
  | _ => []
  end.

(** The busy flag an operation raises; [false] for the operations that use
    a tracking set instead. *)
Definition busyFlag (op : @Operation T E) (s : CollectionState T US St) : bool :=
  match op with
  | OpCreate _ | OpCreateMany _ => isCreating s
  | OpRead _ _ | OpReadOne _ | OpReadMany _ => isReading s
  | _ => false
  end.

(** The collection itself is the same in two states: its entities, the
    total count and both status maps. *)
Definition sameCollection (s s' : CollectionState T US St) : Prop :=
  items s' = items s ∧ totalCountFetched s' = totalCountFetched s
  ∧ status s' = status s ∧ statuses s' = statuses s.

(** A [read] given this request commits a result with duplicates: the
    request emits a batch in which [hasDuplicates] finds one, and fetched
    duplicates are allowed. *)
Definition commitsFetchedDuplicates (svc : Service T P)
    (request : Outcome E (option (Fetched T))) : Prop :=
  allowFetchedDuplicates svc = true
  ∧ ∃ fetched, request = Next (Some fetched)
      ∧ hasDuplicates equal (itemsOf fetched) ≠ None.

(** The operations whose commit goes through the duplicate checks: all of
    them but [createMany], and but a [read] (also the one run by [delete]
    and [deleteMany] for a [readRequest]) that tolerates fetched
    duplicates. *)
Definition checksDuplicates (svc : Service T P) (op : @Operation T E) : Prop :=
  match op with
  | OpCreateMany _ => False
  | OpRead _ request => ¬ commitsFetchedDuplicates svc request
  | OpDelete _ _ _ (Some request) | OpDeleteMany _ _ _ (Some request) =>
      ¬ commitsFetchedDuplicates svc request
  | _ => True
  end.

(** The outcome of the request of an operation, its value forgotten. *)
Definition forgetValue {A} (request : Outcome E A) : Outcome E unit :=
  match request with
  | Next _ => Next ()
  | Error e => Error e
  | Complete => Complete
  | Unsubscribed => Unsubscribed
  end.

Definition requestOf (op : @Operation T E) : Outcome E unit :=
  match op with
  | OpCreate request | OpReadOne request | OpRefresh _ request | OpUpdate _ request _ =>
      forgetValue request
  | OpCreateMany request | OpRead _ request | OpReadMany request
  | OpRefreshMany _ request => forgetValue request
  | OpUpdateMany _ request _ => forgetValue request
  | OpDelete _ request _ _ => forgetValue request
  | OpDeleteMany _ request _ _ => forgetValue request
  end.

(** The error a failed request hands to the handlers: its own, or the
    EmptyError of [first()] when it completes without a value. *)
Definition failureOf (request : Outcome E unit) : option (ErrValue E P) :=
  match request with
  | Error e => Some (ErrRequest e)
  | Complete => Some ErrEmpty
  | _ => None
  end.

(** [read] without [keepExistingOnError], the one operation that resets the
    collection when its request fails. *)
Definition resetsOnError (op : @Operation T E) : bool :=
  match op with
  | OpRead false _ => true
  | _ => false
  end.

(** The operations that run a [read]: [read] itself, and the deletions
    given a [readRequest]. *)
Definition runsRead (op : @Operation T E) : bool :=
  match op with
  | OpRead _ _ | OpDelete _ _ _ (Some _) | OpDeleteMany _ _ _ (Some _) => true
  | _ => false
  end.

(** The invocations of [onSuccess] and [onError] in an event log. *)
Definition isCallback (e : Event T E P) : bool :=
  match e with
  | CallOnSuccess _ | CallOnError _ => true
  | _ => false
  end.

Definition callbacks (log : list (Event T E P)) : list (Event T E P) :=
  List.filter isCallback log.

(** The busy flags and tracking sets of a state, and the state in which
    nothing is in flight. *)
Definition activity (s : CollectionState T US St)
    : bool * bool * list T * list T * list T :=
  (isCreating s, isReading s, updatingItems s, deletingItems s, refreshingItems s).

Definition idle (s : CollectionState T US St) : Prop :=
  activity s = (false, false, [], [], []).

(** An operation that marks something at its call: every operation but
    the [*Many] ones given an empty list of entities. *)
Definition marksSomething (op : @Operation T E) : bool :=
  match op with
  | OpRefreshMany [] _ | OpUpdateMany [] _ _ | OpDeleteMany [] _ _ _ => false
  | _ => true
  end.

(** The error reporter, when one is configured, returns from each of its
    calls. *)
Definition reporterReturns (svc : Service T P) : Prop :=
  ∀ reporter r, errReporter svc = Some reporter → reporter r = None.

(** A handler has invoked at most one callback when it returns, and none
    when it raises. *)
Definition callsBackOnce {A} (r : CollectionState T US St * list (Event T E P) * (Exn + A))
    : Prop :=
  match r with
  | (_, log, inr _) => length (callbacks log) ≤ 1
  | (_, log, inl _) => length (callbacks log) = 0
  end.

End Vocabulary.


(** [prev] is not zero and at least the count [n]. *)
Definition atLeast (n : nat) (prev : Js.number) : Prop :=
  match prev with
  | Js.Fin p => ¬ (p == 0)%Q ∧ (inject_Z (Z.of_nat n) <= p)%Q
  | Js.Inf negative => negative = false
  | Js.NaN => False
  end.

(** The number [x] is the whole number [z]. *)
Definition whole (x : Js.number) (z : Z) : Prop :=
  match x with
  | Js.Fin q => (q == inject_Z z)%Q
  | _ => False
  end.

(** The number [x] is not below zero. *)
Definition notNegative (x : Js.number) : Prop :=
  match x with
  | Js.Fin q => (0 <= q)%Q
  | Js.Inf negative => negative = false
  | Js.NaN => True
  end.

(** ** A collection of entities compared by [id] *)

Module ById.

(** An entity [{id: ...}]; [ref] tells one object from another. *)
Record Entity : Type := mkEntity { ref : nat; id : Z }.

(** Modelled from the spec: the [Comparator] of [./comparator] configured
    with the single field [id], "the two entities are equal iff every
    configured field-spec tuple matches (strict value equality)". *)
Definition equal (a b : Entity) : bool := bool_decide (id a = id b).

(** Modelled from the spec: the same comparator given an array as second
    argument; the path [id] is missing there ("missing path => undefined"),
    and the entity's [id] is a number. *)
Definition equalArray (a : Entity) (arr : list Entity) : bool := false.

Definition sameValueZero (a b : Entity) : bool := bool_decide (ref a = ref b).

(** The default options of the service, nobody listening. *)
Definition defaults : Service Entity nat := mkService None true 409 None (λ _, false).

(** The options with [throwOnDuplicates] set. *)
Definition throwing : Service Entity nat :=
  mkService (Some "duplicate"%string) true 409 None (λ _, false).

(** The default options with an error reporter that returns, and with one
    that throws. *)
Definition reporting : Service Entity nat :=
  mkService None true 409 (Some (λ _, None)) (λ _, false).

Definition reportingThrows : Service Entity nat :=
  mkService None true 409 (Some (λ _, Some (Thrown "reporter"))) (λ _, false).

Definition State : Type := CollectionState Entity unit unit.
Definition Op : Type := @Operation Entity unit.

Definition run (svc : Service Entity nat) (routes : bool) (op : Op) (s : State)
    : State * list (Event Entity unit nat) :=
  perform equal equalArray sameValueZero svc routes op s.

(** [{id: 1}] as stored, and two more objects with the same [id]. *)
Definition stored1 : Entity := mkEntity 0 1.
Definition fetched1 : Entity := mkEntity 10 1.
Definition partial1 : Entity := mkEntity 20 1.
Definition stored2 : Entity := mkEntity 1 2.
Definition stored3 : Entity := mkEntity 2 3.
Definition absent9 : Entity := mkEntity 30 9.

(** [items = [{id: 1}]], nothing in flight. *)
Definition oneItem : State := mkState [stored1] None false false [] [] [] [] [].

(** [{deletedCount: 3}]. *)
Definition deletedCount3 : Response :=
  RObject {[ "deletedCount"%string := FNumber (Js.Fin 3) ]}.

(** [items = [{id: 1}]] with a total of 7 reported by the server. *)
Definition onePage : State := mkState [stored1] (Some (Num (Js.Fin 7))) false false [] [] [] [] [].

(** [{id: 1}] stored and being updated by a call still in flight. *)
Definition updatingOne : State :=
  mkState [stored1] None false false [stored1] [] [] [] [].

(** Three entities out of a total of 5. *)
Definition threeOfFive : State :=
  mkState [stored1; stored2; stored3] (Some (Num (Js.Fin 5))) false false [] [] [] [] [].

(** Two entities out of a total of 10. *)
Definition twoOfTen : State :=
  mkState [stored1; stored2] (Some (Num (Js.Fin 10))) false false [] [] [] [] [].

(** The options with [allowFetchedDuplicates] switched off. *)
Definition strict : Service Entity nat := mkService None false 409 None (λ _, false).

(** The same with an error reporter that returns. *)
Definition strictReporting : Service Entity nat :=
  mkService None false 409 (Some (λ _, None)) (λ _, false).

(** [{id: 1}] stored twice, as a [read] that allows duplicates leaves it. *)
Definition twiceOne : State :=
  mkState [stored1; fetched1; stored2] None false false [] [] [] [] [].

(** Two objects are the same object: what [Map] and [Set] compare. *)
Definition identical (a b : Entity) : bool :=
  bool_decide (ref a = ref b) && bool_decide (id a = id b).


(** Two creations overlap: the call of the first, the whole of the second,
    whose request emits [null]. *)
Definition overlappingCreates : list (@Phase Entity unit) :=
  [Called (OpCreate (Next (Some stored2)));
   Called (OpCreate (Next None)); Settled (OpCreate (Next None))].

(** A collection whose unique status [1] is held by [{id: 1}], which also
    carries the status [5]; statuses are numbers. *)
Definition held : CollectionState Entity nat nat :=
  mkState [stored1; stored2] None false false [] [] [] [(1, stored1)] [(stored1, [5])].

End ById.

(** * Properties *)

(** Unfolds the handler combinators so that a handler computes. *)
Ltac eff_unfold :=
  unfold callOnSuccess, callOnError, broadcast, patchDeleted, lift in *;
  unfold mbind, eff_bind, mret, eff_ret, getState, patchState, emit, throw in *.

(** ** upsertOne *)

Section UpsertOne.

Context {T : Type}.
Variable equal : T → T → bool.

Lemma matchCount_cons item x l :
  matchCount equal item (x :: l) =
    if equal item x then S (matchCount equal item l) else matchCount equal item l.
Proof. unfold matchCount. simpl. by destruct (equal item x). Qed.

(** Without a match the scan leaves both indices as they were. *)
Lemma upsertOneScan_none item l i firstIndex :
  matchCount equal item l = 0 →
  upsertOneScan equal item l i firstIndex = (firstIndex, (-1)%Z).
Proof.
  revert i. induction l as [|x l IH]; intros i Hc; [done|].
  rewrite matchCount_cons in Hc. simpl.
  destruct (equal item x); [done|]. by apply IH.
Qed.

(** Once a first index is known, the next match stops the loop. *)
Lemma upsertOneScan_second item l i firstIndex :
  (0 ≤ firstIndex)%Z → 1 ≤ matchCount equal item l →
  ∃ duplicateIndex,
    upsertOneScan equal item l i firstIndex = (firstIndex, duplicateIndex)
    ∧ (i ≤ duplicateIndex)%Z.
Proof.
  intros Hf. revert i. induction l as [|x l IH]; intros i Hc.
  - unfold matchCount in Hc. simpl in Hc. lia.
  - rewrite matchCount_cons in Hc. simpl.
    destruct (equal item x).
    + destruct (Z.ltb_spec firstIndex 0); [lia|]. exists i. split; [done|lia].
    + destruct (IH (i + 1)%Z Hc) as (d & Hd & Hle). exists d. split; [done|lia].
Qed.

(** A single match is found where it is. *)
Lemma upsertOneScan_single item l i :
  (0 ≤ i)%Z → matchCount equal item l = 1 →
  ∃ k x, l !! k = Some x ∧ equal item x = true
    ∧ upsertOneScan equal item l i (-1)%Z = ((i + Z.of_nat k)%Z, (-1)%Z).
Proof.
  revert i. induction l as [|x l IH]; intros i Hi Hc.
  - unfold matchCount in Hc. simpl in Hc. lia.
  - rewrite matchCount_cons in Hc. simpl.
    destruct (equal item x) eqn:Hx.
    + exists 0, x. repeat split; [done|].
      change (-1 <? 0)%Z with true. cbv iota.
      rewrite upsertOneScan_none by lia. f_equal. lia.
    + destruct (IH (i + 1)%Z ltac:(lia) Hc) as (k & y & Hk & Hy & Hs).
      exists (S k), y. repeat split; [done..|]. rewrite Hs. f_equal. lia.
Qed.

(** With two matches both indices are set. *)
Lemma upsertOneScan_twice item l i :
  (0 ≤ i)%Z → 2 ≤ matchCount equal item l →
  ∃ firstIndex duplicateIndex,
    upsertOneScan equal item l i (-1)%Z = (firstIndex, duplicateIndex)
    ∧ (0 ≤ firstIndex)%Z ∧ (0 ≤ duplicateIndex)%Z.
Proof.
  revert i. induction l as [|x l IH]; intros i Hi Hc.
  - unfold matchCount in Hc. simpl in Hc. lia.
  - rewrite matchCount_cons in Hc. simpl.
    destruct (equal item x) eqn:Hx.
    + change (-1 <? 0)%Z with true. cbv iota.
      destruct (upsertOneScan_second item l (i + 1)%Z i Hi ltac:(lia)) as (d & Hd & Hle).
      exists i, d. repeat split; [done|lia..].
    + apply IH; [lia|done].
Qed.

Lemma upsertOne_absent item l :
  matchCount equal item l = 0 → upsertOne equal item l = (l ++ [item], ReturnsItems).
Proof.
  intros Hc. unfold upsertOne. by rewrite upsertOneScan_none.
Qed.

Lemma upsertOne_single item l :
  matchCount equal item l = 1 →
  ∃ k x, l !! k = Some x ∧ equal item x = true
    ∧ upsertOne equal item l = (<[k := item]> l, ReturnsItems).
Proof.
  intros Hc. destruct (upsertOneScan_single item l 0%Z ltac:(lia) Hc) as (k & x & Hk & Hx & Hs).
  exists k, x. repeat split; [done..|]. unfold upsertOne. rewrite Hs.
  destruct (Z.ltb_spec (0 + Z.of_nat k) 0); [lia|].
  change (-1 <? 0)%Z with true. cbv iota.
  by replace (Z.to_nat (0 + Z.of_nat k)) with k by lia.
Qed.

Lemma upsertOne_ambiguous item l :
  2 ≤ matchCount equal item l → upsertOne equal item l = (l, ReturnsDuplicate).
Proof.
  intros Hc. destruct (upsertOneScan_twice item l 0%Z ltac:(lia) Hc) as (f & d & Hs & Hf & Hd).
  unfold upsertOne. rewrite Hs.
  destruct (Z.ltb_spec f 0); [lia|]. destruct (Z.ltb_spec d 0); [lia|]. done.
Qed.

(** C7. For every entity [item] and sequence [l], [upsertOne item l]
    appends [item] at the end when no element of [l] is Comparator-equal to
    it; when exactly one element is, it replaces the element at the
    position of that match; when two or more are, it returns ['duplicate']
    and leaves the sequence as it was. *)
Theorem upsertOne_three_cases (item : T) (l : list T) :
  (matchCount equal item l = 0 →
     upsertOne equal item l = (l ++ [item], ReturnsItems))
  ∧ (matchCount equal item l = 1 →
     ∃ k x, l !! k = Some x ∧ equal item x = true
       ∧ upsertOne equal item l = (<[k := item]> l, ReturnsItems))
  ∧ (2 ≤ matchCount equal item l →
     upsertOne equal item l = (l, ReturnsDuplicate)).
Proof.
  split; [apply upsertOne_absent|].
  split; [apply upsertOne_single|apply upsertOne_ambiguous].
Qed.

End UpsertOne.

(** ** Tracking sets *)

Section Tracking.

Context {T : Type}.
Variable equal : T → T → bool.
Variable equalArray : T → list T → bool.
Variable sameValueZero : T → T → bool.

Lemma filter_all (f : T → bool) (l : list T) :
  (∀ m, m ∈ l → f m = true) → List.filter f l = l.
Proof.
  induction l as [|x l IH]; intros H; [done|]. simpl.
  rewrite (H x) by apply list_elem_of_here.
  f_equal. apply IH. intros m Hm. apply H. by apply list_elem_of_further.
Qed.

Lemma filter_none (f : T → bool) (l : list T) :
  (∀ m, m ∈ l → f m = false) → List.filter f l = [].
Proof.
  induction l as [|x l IH]; intros H; [done|]. simpl.
  rewrite (H x) by apply list_elem_of_here.
  apply IH. intros m Hm. apply H. by apply list_elem_of_further.
Qed.

Lemma elem_of_filter (f : T → bool) (l : list T) m :
  m ∈ List.filter f l ↔ m ∈ l ∧ f m = true.
Proof. rewrite !list_elem_of_In. apply filter_In. Qed.

Lemma existsb_false_elem (f : T → bool) (l : list T) :
  existsb f l = false ↔ ∀ x, x ∈ l → f x = false.
Proof.
  induction l as [|y l IH]; simpl.
  - split; [|done]. intros _ x Hx. by apply elem_of_nil in Hx.
  - rewrite orb_false_iff, IH. split.
    + intros [Hy Hl] x Hx. apply elem_of_cons in Hx as [->|Hx]; auto.
    + intros H. split; [apply H, list_elem_of_here|].
      intros x Hx. by apply H, list_elem_of_further.
Qed.

(** The predicate a member must pass to stay in the set on removal. *)
Lemma removeFromTracked_keeps item tracked m :
  m ∈ removeFromTracked equal item tracked ↔
  m ∈ tracked ∧ ∀ x, x ∈ itemsOfArg item → equal m x = false.
Proof.
  destruct item as [x|l]; simpl; rewrite elem_of_filter, negb_true_iff.
  - split; intros [Hm Hx]; (split; [done|]).
    + intros y Hy. apply list_elem_of_singleton in Hy. by subst.
    + apply Hx, list_elem_of_here.
  - by rewrite existsb_false_elem.
Qed.

(** After removal no member is Comparator-equal to a removed entity. *)
Lemma removeFromTracked_clears item tracked m x :
  m ∈ removeFromTracked equal item tracked → x ∈ itemsOfArg item → equal m x = false.
Proof. intros Hm Hx. apply removeFromTracked_keeps in Hm as [_ Hm]. by apply Hm. Qed.

(** Every entity the add step resolves is Comparator-equal to one of the
    partial inputs, given that each input is equal to itself. *)
Lemma resolveItems_matches item stored r :
  (∀ x, x ∈ itemsOfArg item → equal x x = true) →
  r ∈ resolveItems equal item stored →
  ∃ x, x ∈ itemsOfArg item ∧ equal r x = true.
Proof.
  intros Hrefl Hr.
  assert (∀ x, x ∈ itemsOfArg item →
            equal (default x (getItemByPartial equal x stored)) x = true) as Hone.
  { intros x Hx. unfold getItemByPartial.
    destruct (find (λ i, equal i x) stored) as [y|] eqn:Hf; simpl.
    - by apply find_some in Hf as [_ Hy].
    - by apply Hrefl. }
  destruct item as [x|l]; simpl in *.
  - apply list_elem_of_singleton in Hr as ->. exists x. split; [apply list_elem_of_here|].
    apply Hone, list_elem_of_here.
  - apply list_elem_of_fmap in Hr as (x & -> & Hx). exists x. split; [done|]. by apply Hone.
Qed.

(** Adding and then removing gives the set back, when none of its members
    was Comparator-equal to the entities of the operation. *)
Lemma removeFromTracked_addToTracked item stored tracked :
  (∀ x, x ∈ itemsOfArg item → equal x x = true) →
  (∀ m x, m ∈ tracked → x ∈ itemsOfArg item → equal m x = false) →
  removeFromTracked equal item
    (addToTracked equal equalArray sameValueZero item stored tracked) = tracked.
Proof.
  intros Hrefl Hfresh.
  assert (∀ l, removeFromTracked equal item l
               = List.filter (λ m, negb (existsb (equal m) (itemsOfArg item))) l) as Hrm.
  { intros l. destruct item as [x|xs]; simpl; [|done].
    apply filter_ext. intros m. by rewrite orb_false_r. }
  assert (List.filter (λ m, negb (existsb (equal m) (itemsOfArg item))) tracked = tracked)
    as Hkeep.
  { apply filter_all. intros m Hm. rewrite negb_true_iff, existsb_false_elem. eauto. }
  unfold addToTracked. destruct (hasItemInArg _ _ _ _); rewrite Hrm; [done|].
  rewrite List.filter_app, Hkeep, filter_none; [by rewrite app_nil_r|].
  intros r Hr. apply resolveItems_matches in Hr as (x & Hx & Hrx); [|done].
  rewrite negb_false_iff. apply existsb_exists. exists x.
  split; [by apply list_elem_of_In|done].
Qed.

(** Adding one entity and then removing it leaves the members that are
    not Comparator-equal to it, whatever the set held. *)
Lemma removeFromTracked_addToTracked_one x stored tracked :
  equal x x = true →
  removeFromTracked equal (One x)
    (addToTracked equal equalArray sameValueZero (One x) stored tracked)
  = List.filter (λ m, negb (equal m x)) tracked.
Proof.
  intros Hrefl. unfold addToTracked. destruct (hasItemInArg _ _ _ _); simpl; [done|].
  rewrite List.filter_app. simpl.
  assert (equal (default x (getItemByPartial equal x stored)) x = true) as ->.
  { unfold getItemByPartial.
    destruct (find (λ i, equal i x) stored) as [y|] eqn:Hf; simpl; [|done].
    by apply find_some in Hf as [_ Hy]. }
  simpl. by rewrite app_nil_r.
Qed.

End Tracking.

(** ** Uniqueness of the elements of [items] *)

Section Uniqueness.

Context {T : Type}.
Variable equal : T → T → bool.
Hypothesis equal_sym : ∀ a b, equal a b = equal b a.

Lemma noDuplicates_nil : noDuplicates equal [].
Proof. intros i j x y Hi. by rewrite lookup_nil in Hi. Qed.

Lemma noDuplicates_cons x l :
  noDuplicates equal (x :: l) ↔
  (∀ y, y ∈ l → equal x y = false) ∧ noDuplicates equal l.
Proof using equal_sym.
  split.
  - intros Hno. split.
    + intros y Hy. apply list_elem_of_lookup in Hy as [j Hj].
      by apply (Hno 0 (S j) x y).
    + intros i j a b Hi Hj Hne. apply (Hno (S i) (S j) a b); [done..|lia].
  - intros [Hx Hl] i j a b Hi Hj Hne.
    destruct i as [|i], j as [|j]; simpl in *; simplify_eq.
    + apply Hx. by apply list_elem_of_lookup_2 in Hj.
    + rewrite equal_sym. apply Hx. by apply list_elem_of_lookup_2 in Hi.
    + apply (Hl i j); [done..|lia].
Qed.

Lemma noDuplicates_filter (f : T → bool) l :
  noDuplicates equal l → noDuplicates equal (List.filter f l).
Proof using equal_sym.
  induction l as [|x l IH]; [done|]. rewrite noDuplicates_cons. intros [Hx Hl]. simpl.
  destruct (f x); [|by apply IH].
  apply noDuplicates_cons. split; [|by apply IH].
  intros y Hy. apply elem_of_filter in Hy as [Hy _]. by apply Hx.
Qed.

Lemma noDuplicates_snoc l x :
  noDuplicates equal l → (∀ y, y ∈ l → equal x y = false) →
  noDuplicates equal (l ++ [x]).
Proof using equal_sym.
  induction l as [|z l IH]; intros Hl Hx; simpl.
  - apply noDuplicates_cons. split; [|apply noDuplicates_nil].
    intros y Hy. by apply elem_of_nil in Hy.
  - apply noDuplicates_cons in Hl as [Hz Hl]. apply noDuplicates_cons. split.
    + intros y Hy. apply elem_of_app in Hy as [Hy|Hy]; [by apply Hz|].
      apply list_elem_of_singleton in Hy as ->. rewrite equal_sym.
      apply Hx, list_elem_of_here.
    + apply IH; [done|]. intros y Hy. by apply Hx, list_elem_of_further.
Qed.

Lemma noDuplicates_insert l k x :
  noDuplicates equal l →
  (∀ j y, l !! j = Some y → j ≠ k → equal x y = false) →
  noDuplicates equal (<[k := x]> l).
Proof using equal_sym.
  intros Hl Hx i j a b Hi Hj Hne.
  apply list_lookup_insert_Some in Hi as [(-> & -> & _)|[Hik Hi]];
    apply list_lookup_insert_Some in Hj as [(-> & -> & _)|[Hjk Hj]].
  - done.
  - by apply (Hx j).
  - rewrite equal_sym. by apply (Hx i).
  - by apply (Hl i j).
Qed.

Lemma matchCount_app item l1 l2 :
  matchCount equal item (l1 ++ l2) = matchCount equal item l1 + matchCount equal item l2.
Proof using Type. unfold matchCount. by rewrite List.filter_app, length_app. Qed.

Lemma matchCount_zero item l :
  matchCount equal item l = 0 ↔ ∀ y, y ∈ l → equal item y = false.
Proof using Type.
  induction l as [|x l IH].
  - split; [|done]. intros _ y Hy. by apply elem_of_nil in Hy.
  - rewrite matchCount_cons. destruct (equal item x) eqn:Hx.
    + split; [lia|]. intros H. specialize (H x (list_elem_of_here _ _)). congruence.
    + rewrite IH. split.
      * intros H y Hy. apply elem_of_cons in Hy as [->|Hy]; auto.
      * intros H y Hy. by apply H, list_elem_of_further.
Qed.

(** With a single match, every other position holds no match. *)
Lemma matchCount_one_elsewhere item l k x j y :
  matchCount equal item l = 1 → l !! k = Some x → equal item x = true →
  l !! j = Some y → j ≠ k → equal item y = false.
Proof using Type.
  intros Hc Hk Hx Hj Hne.
  rewrite <- (take_drop_middle l k x Hk), matchCount_app, matchCount_cons, Hx in Hc.
  assert (matchCount equal item (take k l) = 0) as Hbefore by lia.
  assert (matchCount equal item (drop (S k) l) = 0) as Hafter by lia.
  destruct (decide (j < k)) as [Hlt|Hge].
  - apply (proj1 (matchCount_zero item _) Hbefore).
    apply elem_of_take. exists j. by split.
  - apply (proj1 (matchCount_zero item _) Hafter).
    apply list_elem_of_lookup. exists (j - S k).
    rewrite lookup_drop. by replace (S k + (j - S k)) with j by lia.
Qed.

(** An accepted [upsertOne] keeps the elements pairwise different. *)
Lemma upsertOne_noDuplicates item l l' :
  noDuplicates equal l → upsertOne equal item l = (l', ReturnsItems) →
  noDuplicates equal l'.
Proof using equal_sym.
  intros Hl Hup.
  destruct (matchCount equal item l) as [|[|n]] eqn:Hc.
  - rewrite upsertOne_absent in Hup by done. simplify_eq.
    apply noDuplicates_snoc; [done|]. by apply matchCount_zero.
  - destruct (upsertOne_single equal item l Hc) as (k & x & Hk & Hx & Hup').
    rewrite Hup' in Hup. simplify_eq.
    apply noDuplicates_insert; [done|].
    intros j y Hj Hne. by apply (matchCount_one_elsewhere item l k x j y).
  - rewrite upsertOne_ambiguous in Hup by lia. discriminate Hup.
Qed.

Lemma upsertManyLoop_noDuplicates batch l l' :
  noDuplicates equal l → upsertManyLoop equal batch l = (l', ReturnsToItems) →
  noDuplicates equal l'.
Proof using equal_sym.
  revert l. induction batch as [|x batch IH]; intros l Hl Hup; simpl in Hup.
  - by simplify_eq.
  - destruct (upsertOne equal x l) as [l1 [|]] eqn:Hone; [|discriminate Hup].
    apply (IH l1); [|done]. by apply (upsertOne_noDuplicates x l).
Qed.

(** An accepted [upsertMany] keeps the elements pairwise different. *)
Lemma upsertMany_noDuplicates batch l l' :
  noDuplicates equal l → upsertMany equal batch l = (l', ReturnsToItems) →
  noDuplicates equal l'.
Proof using equal_sym.
  intros Hl Hup. unfold upsertMany in Hup.
  destruct (hasDuplicates equal batch); [discriminate Hup|].
  by apply (upsertManyLoop_noDuplicates batch l).
Qed.

(** [hasDuplicates] returns [null] only on pairwise different elements. *)
Lemma hasDuplicates_None l : hasDuplicates equal l = None → noDuplicates equal l.
Proof using equal_sym.
  induction l as [|x l IH]; intros Hd; [apply noDuplicates_nil|]. simpl in Hd.
  destruct (find (λ y, equal x y) l) eqn:Hfind; [discriminate Hd|].
  apply noDuplicates_cons. split; [|by apply IH].
  intros y Hy. apply (find_none _ _ Hfind). by apply list_elem_of_In.
Qed.

(** [create] appends only what [hasItemIn] does not find. *)
Lemma hasItemIn_false_snoc sameValueZero item l :
  noDuplicates equal l → hasItemIn equal sameValueZero item l = false →
  noDuplicates equal (l ++ [item]).
Proof using equal_sym.
  intros Hl Hhas. apply orb_false_iff in Hhas as [_ Hhas].
  apply noDuplicates_snoc; [done|]. intros y Hy. rewrite equal_sym.
  by apply (proj1 (existsb_false_elem _ _) Hhas).
Qed.

(** The add step of a tracking set, given a single entity, adds nothing
    Comparator-equal to a member, for a comparator that is also
    transitive. *)
Lemma addToTracked_one_noDuplicates equalArray sameValueZero x stored tracked :
  (∀ a b c, equal a b = true → equal b c = true → equal a c = true) →
  noDuplicates equal tracked →
  noDuplicates equal (addToTracked equal equalArray sameValueZero (One x) stored tracked).
Proof using equal_sym.
  intros equal_trans Htracked. unfold addToTracked.
  destruct (hasItemInArg _ _ _ _ _) eqn:Hhas; [done|]. simpl in *.
  apply orb_false_iff in Hhas as [_ Hhas].
  apply noDuplicates_snoc; [done|]. intros m Hm.
  pose proof (proj1 (existsb_false_elem _ _) Hhas m Hm) as Hmx. simpl in Hmx.
  apply not_true_is_false. intros Hrm. rewrite equal_sym in Hrm.
  assert (equal m x = true) as Habs; [|congruence].
  unfold getItemByPartial in Hrm.
  destruct (find (λ i, equal i x) stored) as [f|] eqn:Hfind; simpl in Hrm; [|done].
  apply find_some in Hfind as [_ Hfx]. by apply (equal_trans m f x).
Qed.

End Uniqueness.

(** ** The protocol around a request *)

Section Protocol.

Context {T E P US St : Type}.
Variable equal : T → T → bool.
Variable equalArray : T → list T → bool.
Variable sameValueZero : T → T → bool.
Variable svc : Service T P.
Variable tapResponseRoutesThrown : bool.

#[local] Abbreviation State := (CollectionState T US St).
#[local] Abbreviation Ev := (Event T E P).
#[local] Abbreviation Eff := (@Eff T E P US St).

(** The [finalize] callback is the last thing a subscription does. *)
Lemma subscribe_done {A} routes (next : A → Eff unit) error done request (s : State) :
  ∃ s2, (subscribe routes next error done request s).1 = done s2.
Proof.
  unfold subscribe.
  destruct (match request with
            | Next a => next a s | Error e => error (ErrRequest e) s
            | Complete => error ErrEmpty s | Unsubscribed => (s, [], inr ())
            end) as [[s1 l1] r].
  destruct r as [x|[]], request; try (eexists; reflexivity).
  destruct routes; [|eexists; reflexivity].
  destruct (error (ErrThrown x) s1) as [[s' l'] r']. eexists; reflexivity.
Qed.

(** What the handlers keep, the subscription keeps up to [finalize]. *)
Lemma subscribe_keeps {A X} (g : State → X) routes (next : A → Eff unit) error done
    request (s : State) :
  (∀ a, keeps g (next a)) → (∀ e, keeps g (error e)) →
  ∃ s2, (subscribe routes next error done request s).1 = done s2 ∧ g s2 = g s.
Proof.
  intros Hnext Herror. unfold subscribe.
  destruct (match request with
            | Next a => next a s | Error e => error (ErrRequest e) s
            | Complete => error ErrEmpty s | Unsubscribed => (s, [], inr ())
            end) as [[s1 l1] r] eqn:Hrun.
  assert (g s1 = g s) as Hs1.
  { destruct request as [a|e| |]; simplify_eq.
    - specialize (Hnext a s). by rewrite Hrun in Hnext.
    - specialize (Herror (ErrRequest e) s). by rewrite Hrun in Herror.
    - specialize (Herror ErrEmpty s). by rewrite Hrun in Herror.
    - done. }
  destruct r as [x|[]], request; try (eexists; split; [reflexivity|done]).
  destruct routes; [|eexists; split; [reflexivity|done]].
  specialize (Herror (ErrThrown x) s1).
  destruct (error (ErrThrown x) s1) as [[s' l'] r']. simpl in Herror.
  eexists; split; [reflexivity|congruence].
Qed.

Lemma keeps_ret {A X} (g : State → X) (a : A) : keeps g (mret a : Eff A).
Proof. by intros s. Qed.

Lemma keeps_bind {A B X} (g : State → X) (m : Eff A) (f : A → Eff B) :
  keeps g m → (∀ a, keeps g (f a)) → keeps g (m ≫= f).
Proof.
  intros Hm Hf s. unfold mbind, eff_bind. specialize (Hm s).
  destruct (m s) as [[s1 l1] [x|a]]; [done|].
  specialize (Hf a s1). destruct (f a s1) as [[s2 l2] r]. simpl in *. congruence.
Qed.

Lemma keeps_emit {X} (g : State → X) (e : Ev) : keeps g (emit e).
Proof. by intros s. Qed.

Lemma keeps_throw {A X} (g : State → X) (x : Exn) : keeps g (throw x : Eff A).
Proof. by intros s. Qed.

Lemma keeps_getState {X} (g : State → X) : keeps g (getState : Eff State).
Proof. by intros s. Qed.

Lemma keeps_patchState {X} (g : State → X) (f : State → State) :
  (∀ s, g (f s) = g s) → keeps g (patchState f : Eff unit).
Proof. intros H s. apply H. Qed.

Lemma keeps_lift {X} (g : State → X) (f : State → State * list Ev) :
  (∀ s, g (f s).1 = g s) → keeps g (lift f).
Proof. intros H s. unfold lift. specialize (H s). by destruct (f s). Qed.

Lemma keeps_broadcast {X} (g : State → X) ch l : keeps g (broadcast svc ch l : Eff unit).
Proof. unfold broadcast. destruct (observed svc ch); by intros s. Qed.

Lemma keeps_callReporter {X} (g : State → X) reporter (r : Report T) :
  keeps g (callReporter reporter r : Eff unit).
Proof.
  unfold callReporter. apply keeps_bind; [apply keeps_emit|]. intros _.
  destruct (reporter r); [apply keeps_throw|apply keeps_ret].
Qed.

Lemma keeps_duplicateNotAdded {X} (g : State → X) item l :
  keeps g (duplicateNotAdded equal svc item l : Eff unit).
Proof.
  unfold duplicateNotAdded.
  destruct (Js.truthyString _); [apply keeps_throw|].
  destruct (errReporter svc) as [reporter|]; [|apply keeps_ret].
  apply keeps_bind; [apply keeps_callReporter|]. intros _.
  destruct (getDuplicates equal l); [apply keeps_callReporter|apply keeps_ret].
Qed.

(** *** What the handlers leave alone *)

Section Frame.

Context {X : Type} (g : State → X).
Hypothesis g_items : ∀ l s, g (patchItems l s) = g s.
Hypothesis g_total : ∀ n s, g (patchTotalCountFetched n s) = g s.

Ltac keeps_step :=
  first
    [ apply keeps_ret | apply keeps_emit | apply keeps_throw | apply keeps_getState
    | apply keeps_broadcast | apply keeps_duplicateNotAdded
    | apply keeps_patchState; intros; by rewrite ?g_total, ?g_items
    | apply keeps_bind; [|intros ?]
    | match goal with
      | |- keeps _ (match ?x with _ => _ end) => destruct x
      | |- keeps _ (let '(_, _) := ?x in _) => destruct x
      end ].

Lemma keeps_callOnError err : keeps g (callOnError err : Eff unit).
Proof using Type. apply keeps_emit. Qed.

Lemma keeps_upsertOneNext ch newItem :
  keeps g (upsertOneNext equal svc ch newItem : Eff unit).
Proof using g_items. unfold upsertOneNext, callOnSuccess, callOnError. repeat keeps_step. Qed.

Lemma keeps_patchTotalCountOnly fetched :
  keeps g (patchTotalCountOnly fetched : Eff unit).
Proof using g_total. unfold patchTotalCountOnly. repeat keeps_step. Qed.

Lemma keeps_refreshManyNext fetched :
  keeps g (refreshManyNext equal svc fetched : Eff unit).
Proof using g_items g_total.
  unfold refreshManyNext, callOnSuccess, callOnError.
  repeat first [apply keeps_patchTotalCountOnly | keeps_step].
Qed.

Lemma keeps_readNext keep param fetched :
  keeps g (readNext equal svc keep param fetched : Eff unit).
Proof using g_items g_total.
  unfold readNext, resetUnlessKept, callOnSuccess, callOnError. repeat keeps_step.
Qed.

Lemma keeps_readError keep err : keeps g (readError keep err : Eff unit).
Proof using g_items g_total.
  unfold readError, resetUnlessKept, callOnError. repeat keeps_step.
Qed.

Lemma keeps_patchDeleted l n : keeps g (patchDeleted l n : Eff unit).
Proof using g_items g_total. unfold patchDeleted. repeat keeps_step. Qed.

(** A nested [refresh] or [refreshMany] is invisible to what is not the
    refreshing set. *)
Lemma refresh_frame item (request : Outcome E (option T)) s :
  (∀ l s, g (patchRefreshingItems l s) = g s) →
  g (refresh equal equalArray sameValueZero svc tapResponseRoutesThrown item request s).1
  = g s.
Proof using g_items.
  intros g_refreshing. unfold refresh, refreshSubscribed.
  destruct (subscribe_keeps g tapResponseRoutesThrown (upsertOneNext equal svc OnRead)
              callOnError (removeFromRefreshingItems equal (One item)) request
              (refreshCall equal equalArray sameValueZero item s))
    as (s2 & -> & Hs2); [apply keeps_upsertOneNext|apply keeps_callOnError|].
  unfold removeFromRefreshingItems. rewrite g_refreshing, Hs2.
  unfold refreshCall, addToRefreshingItems. by rewrite g_refreshing.
Qed.

Lemma refreshMany_frame l (request : Outcome E (option (Fetched T))) s :
  (∀ l s, g (patchRefreshingItems l s) = g s) →
  g (refreshMany equal equalArray sameValueZero svc tapResponseRoutesThrown l request s).1
  = g s.
Proof using g_items g_total.
  intros g_refreshing. unfold refreshMany, refreshManySubscribed.
  destruct (subscribe_keeps g tapResponseRoutesThrown (refreshManyNext equal svc)
              callOnError (removeFromRefreshingItems equal (Many l)) request
              (refreshManyCall equal equalArray sameValueZero l s))
    as (s2 & -> & Hs2); [apply keeps_refreshManyNext|apply keeps_callOnError|].
  unfold removeFromRefreshingItems. rewrite g_refreshing, Hs2.
  unfold refreshManyCall, addToRefreshingItems. by rewrite g_refreshing.
Qed.

(** A nested [read] is invisible to what is not [isReading]. *)
Lemma readWith_frame keep param (request : Outcome E (option (Fetched T))) s :
  (∀ b s, g (patchIsReading b s) = g s) →
  g (readWith equal svc tapResponseRoutesThrown keep param request s).1 = g s.
Proof using g_items g_total.
  intros g_reading. unfold readWith, readSubscribed.
  destruct (subscribe_keeps g tapResponseRoutesThrown (readNext equal svc keep param)
              (readError keep) (patchIsReading false) request (readCall s))
    as (s2 & -> & Hs2); [apply keeps_readNext|apply keeps_readError|].
  rewrite g_reading, Hs2. unfold readCall. by rewrite g_reading.
Qed.

Lemma keeps_updateNext item (refreshRequest : option (Outcome E (option T))) newItem :
  (∀ l s, g (patchRefreshingItems l s) = g s) →
  keeps g (updateNext equal equalArray sameValueZero svc tapResponseRoutesThrown
             item refreshRequest newItem).
Proof using g_items.
  intros g_refreshing. unfold updateNext. destruct refreshRequest.
  - apply keeps_lift. intros s. by apply refresh_frame.
  - apply keeps_upsertOneNext.
Qed.

Lemma keeps_updateManyNext l (refreshRequest : option (Outcome E (option (Fetched T))))
    updatedItems :
  (∀ l s, g (patchRefreshingItems l s) = g s) →
  keeps g (updateManyNext equal equalArray sameValueZero svc tapResponseRoutesThrown
             l refreshRequest updatedItems).
Proof using g_items g_total.
  intros g_refreshing. unfold updateManyNext. destruct refreshRequest.
  - apply keeps_lift. intros s. by apply refreshMany_frame.
  - unfold callOnSuccess, callOnError. repeat keeps_step.
Qed.

Lemma keeps_deleteNext item decr (readRequest : option (Outcome E (option (Fetched T))))
    response :
  (∀ b s, g (patchIsReading b s) = g s) →
  keeps g (deleteNext equal svc tapResponseRoutesThrown item decr readRequest response).
Proof using g_items g_total.
  intros g_reading. unfold deleteNext. destruct readRequest.
  - apply keeps_lift. intros s. by apply readWith_frame.
  - unfold callOnSuccess.
    repeat first [apply keeps_patchDeleted | keeps_step].
Qed.

Lemma keeps_deleteManyNext l decr (readRequest : option (Outcome E (option (Fetched T))))
    response :
  (∀ b s, g (patchIsReading b s) = g s) →
  keeps g (deleteManyNext equal svc tapResponseRoutesThrown l decr readRequest response).
Proof using g_items g_total.
  intros g_reading. unfold deleteManyNext. destruct readRequest.
  - apply keeps_lift. intros s. by apply readWith_frame.
  - unfold callOnSuccess.
    repeat first [apply keeps_patchDeleted | keeps_step].
Qed.

End Frame.

(** *** The operations that keep [items] free of duplicates *)

Lemma subscribe_invariant {A} (I : State → Prop) routes (next : A → Eff unit) error
    done request (s : State) :
  (∀ a s, request = Next a → I s → I (next a s).1.1) →
  (∀ e s, I s → I (error e s).1.1) →
  (∀ s, I s → I (done s)) →
  I s → I (subscribe routes next error done request s).1.
Proof.
  intros Hnext Herror Hdone Hs. unfold subscribe.
  destruct (match request with
            | Next a => next a s | Error e => error (ErrRequest e) s
            | Complete => error ErrEmpty s | Unsubscribed => (s, [], inr ())
            end) as [[s1 l1] r] eqn:Hrun.
  assert (I s1) as Hs1.
  { destruct request as [a|e| |]; simplify_eq.
    - specialize (Hnext a s eq_refl Hs). by rewrite Hrun in Hnext.
    - specialize (Herror (ErrRequest e) s Hs). by rewrite Hrun in Herror.
    - specialize (Herror ErrEmpty s Hs). by rewrite Hrun in Herror.
    - done. }
  destruct r as [x|[]], request; try (by apply Hdone).
  destruct routes; [|by apply Hdone].
  specialize (Herror (ErrThrown x) s1 Hs1).
  destruct (error (ErrThrown x) s1) as [[s' l'] r']. by apply Hdone.
Qed.

Section Unique.

Hypothesis equal_sym : ∀ a b, equal a b = equal b a.

#[local] Abbreviation unique := (λ s : State, noDuplicates equal (items s)).

Ltac handler_cases :=
  unfold duplicateNotAdded, callReporter, resetUnlessKept, patchTotalCountOnly in *;
  eff_unfold; simpl; repeat case_match; simpl in *; simplify_eq; try done.

Lemma unique_callOnError (err : ErrValue E P) (s : State) :
  unique s → unique (callOnError err s).1.1.
Proof using Type. done. Qed.

Lemma unique_createNext item (s : State) :
  unique s → unique (createNext equal sameValueZero svc (E:=E) item s).1.1.
Proof using equal_sym.
  intros Hs. unfold createNext. handler_cases;
    apply (hasItemIn_false_snoc equal equal_sym sameValueZero); try done;
    by apply negb_true_iff.
Qed.

Lemma unique_upsertOneNext ch newItem (s : State) :
  unique s → unique (upsertOneNext equal svc (E:=E) ch newItem s).1.1.
Proof using equal_sym.
  intros Hs. unfold upsertOneNext. handler_cases;
    by eapply upsertOne_noDuplicates.
Qed.

Lemma unique_refreshManyNext fetched (s : State) :
  unique s → unique (refreshManyNext equal svc (E:=E) fetched s).1.1.
Proof using equal_sym.
  intros Hs. unfold refreshManyNext. handler_cases;
    by eapply upsertMany_noDuplicates.
Qed.

Lemma unique_readManyNext fetched (s : State) :
  unique s → unique (readManyNext equal svc (E:=E) fetched s).1.1.
Proof using equal_sym.
  intros Hs. unfold readManyNext. handler_cases;
    by eapply upsertMany_noDuplicates.
Qed.

Lemma unique_readError keep (err : ErrValue E P) (s : State) :
  unique s → unique (readError keep err s).1.1.
Proof using Type.
  intros Hs. unfold readError. handler_cases; apply noDuplicates_nil.
Qed.

Lemma unique_readNext keep param fetched (s : State) :
  ¬ commitsFetchedDuplicates equal svc (E:=E) (Next fetched) →
  unique s → unique (readNext equal svc (E:=E) keep param fetched s).1.1.
Proof using equal_sym.
  intros Hcommit Hs. unfold readNext. handler_cases;
    try apply noDuplicates_nil;
    try (apply hasDuplicates_None; [done|];
         by destruct (hasDuplicates equal (itemsOf _)));
    try (exfalso; apply Hcommit; split; [by apply negb_false_iff|];
         eexists; split; [done|]; congruence).
  all: change (noDuplicates equal (itemsOf f)).
  all: try (by apply hasDuplicates_None).
  all: by destruct (itemsOf f); [apply noDuplicates_nil|].
Qed.

Lemma unique_refresh item (request : Outcome E (option T)) (s : State) :
  unique s →
  unique (refresh equal equalArray sameValueZero svc tapResponseRoutesThrown
            item request s).1.
Proof using equal_sym.
  intros Hs. unfold refresh, refreshSubscribed.
  apply (subscribe_invariant unique); try done.
  - intros a s0 _. apply unique_upsertOneNext.
Qed.

Lemma unique_refreshMany l (request : Outcome E (option (Fetched T))) (s : State) :
  unique s →
  unique (refreshMany equal equalArray sameValueZero svc tapResponseRoutesThrown
            l request s).1.
Proof using equal_sym.
  intros Hs. unfold refreshMany, refreshManySubscribed.
  apply (subscribe_invariant unique); try done.
  - intros a s0 _. apply unique_refreshManyNext.
Qed.

Lemma unique_readSubscribed keep param (request : Outcome E (option (Fetched T)))
    (s : State) :
  ¬ commitsFetchedDuplicates equal svc request →
  unique s →
  unique (readSubscribed equal svc tapResponseRoutesThrown keep param request s).1.
Proof using equal_sym.
  intros Hcommit Hs. unfold readSubscribed.
  apply (subscribe_invariant unique); try done.
  - intros a s0 ->. by apply unique_readNext.
  - intros e s0. apply unique_readError.
Qed.

Lemma unique_updateNext item (refreshRequest : option (Outcome E (option T))) newItem
    (s : State) :
  unique s →
  unique (updateNext equal equalArray sameValueZero svc tapResponseRoutesThrown
            item refreshRequest newItem s).1.1.
Proof using equal_sym.
  intros Hs. unfold updateNext. destruct refreshRequest as [request|].
  - pose proof (unique_refresh item request s Hs) as Hr. unfold lift.
    by destruct (refresh _ _ _ _ _ _ _ _).
  - by apply unique_upsertOneNext.
Qed.

Lemma unique_updateManyNext l (refreshRequest : option (Outcome E (option (Fetched T))))
    updatedItems (s : State) :
  unique s →
  unique (updateManyNext equal equalArray sameValueZero svc tapResponseRoutesThrown
            l refreshRequest updatedItems s).1.1.
Proof using equal_sym.
  intros Hs. unfold updateManyNext. destruct refreshRequest as [request|].
  - pose proof (unique_refreshMany l request s Hs) as Hr. unfold lift.
    by destruct (refreshMany _ _ _ _ _ _ _ _).
  - handler_cases; by eapply upsertMany_noDuplicates.
Qed.

Lemma unique_deleteNext item decr
    (readRequest : option (Outcome E (option (Fetched T)))) response (s : State) :
  match readRequest with
  | Some request => ¬ commitsFetchedDuplicates equal svc request
  | None => True
  end →
  unique s →
  unique (deleteNext equal svc tapResponseRoutesThrown item decr readRequest
            response s).1.1.
Proof using equal_sym.
  intros Hcommit Hs. unfold deleteNext. destruct readRequest as [request|].
  - pose proof (unique_readSubscribed false (λ _, ArgResponse response) request
                  (readCall s) Hcommit Hs) as Hr.
    unfold lift, readWith. by destruct (readSubscribed _ _ _ _ _ _ _).
  - handler_cases; by apply noDuplicates_filter.
Qed.

Lemma unique_deleteManyNext l decr
    (readRequest : option (Outcome E (option (Fetched T)))) response (s : State) :
  match readRequest with
  | Some request => ¬ commitsFetchedDuplicates equal svc request
  | None => True
  end →
  unique s →
  unique (deleteManyNext equal svc tapResponseRoutesThrown l decr readRequest
            response s).1.1.
Proof using equal_sym.
  intros Hcommit Hs. unfold deleteManyNext. destruct readRequest as [request|].
  - pose proof (unique_readSubscribed false (λ _, ArgResponses response) request
                  (readCall s) Hcommit Hs) as Hr.
    unfold lift, readWith. by destruct (readSubscribed _ _ _ _ _ _ _).
  - handler_cases; by apply noDuplicates_filter.
Qed.

(** With a symmetric comparator, every operation that goes through the
    duplicate checks keeps the elements of [items] pairwise different, at
    its call and between its subscription and its end, whatever state it
    finds there. *)
Lemma checked_operation_keeps_unique (op : @Operation T E) (s : State) :
  checksDuplicates equal svc op → unique s →
  unique (call equal equalArray sameValueZero op s)
  ∧ unique (subscribed equal equalArray sameValueZero svc tapResponseRoutesThrown op s).1.
Proof using equal_sym.
  intros Hop Hs. split; [by destruct op|].
  destruct op as [request|request|keep request|request|request|item request|l request
                 |item request refreshRequest|l request refreshRequest
                 |item request decr readRequest|l request decr readRequest]; simpl in *.
  - apply (subscribe_invariant unique); try done. intros a s0 _. apply unique_createNext.
  - done.
  - by apply unique_readSubscribed.
  - apply (subscribe_invariant unique); try done.
    intros a s0 _. apply unique_upsertOneNext.
  - apply (subscribe_invariant unique); try done.
    intros a s0 _. apply unique_readManyNext.
  - apply (subscribe_invariant unique); try done.
    intros a s0 _. apply unique_upsertOneNext.
  - apply (subscribe_invariant unique); try done.
    intros a s0 _. apply unique_refreshManyNext.
  - apply (subscribe_invariant unique); try done.
    intros a s0 _. apply unique_updateNext.
  - apply (subscribe_invariant unique); try done.
    intros a s0 _. apply unique_updateManyNext.
  - apply (subscribe_invariant unique); try done.
    intros a s0 _. apply unique_deleteNext. by destruct readRequest.
  - apply (subscribe_invariant unique); try done.
    intros a s0 _. apply unique_deleteManyNext. by destruct readRequest.
Qed.

(** Hence any interleaving of calls and completions of such operations,
    from the initial state, leaves no two Comparator-equal elements. *)
Lemma checked_phases_keep_unique (ps : list (@Phase T E)) :
  Forall (λ p, match p with
               | Called op | Settled op => checksDuplicates equal svc op
               end) ps →
  unique (phases equal equalArray sameValueZero svc tapResponseRoutesThrown ps
            initialState).
Proof using equal_sym.
  assert (unique (initialState : State)) as Hinit by apply noDuplicates_nil.
  unfold phases. revert Hinit. generalize (initialState : State).
  induction ps as [|p ps IH]; intros s Hs Hall; [done|].
  apply Forall_cons in Hall as [Hp Hall]. simpl. apply IH; [|done].
  destruct p as [op|op]; simpl; by apply checked_operation_keeps_unique.
Qed.

End Unique.

(** *** Release of the tracking sets and busy flags *)

(** The protocol of an operation that tracks [item] in the part [g] of the
    state: whatever the request does, no member Comparator-equal to a
    tracked entity is left; and the set is back to what it was before the
    call when none of its members was Comparator-equal to them. *)
Lemma tracked_protocol {A} (g : State → list T) (patch : list T → State → State)
    routes (next : A → Eff unit) error (item : ItemOrItems T) request (s : State) :
  (∀ l s, g (patch l s) = l) →
  (∀ a, keeps g (next a)) → (∀ e, keeps g (error e)) →
  (∀ m x,
     m ∈ g (subscribe routes next error
              (λ s, patch (removeFromTracked equal item (g s)) s) request s).1 →
     x ∈ itemsOfArg item → equal m x = false)
  ∧ ((∀ x, x ∈ itemsOfArg item → equal x x = true) →
     (∀ m x, m ∈ g s → x ∈ itemsOfArg item → equal m x = false) →
     g (subscribe routes next error
          (λ s, patch (removeFromTracked equal item (g s)) s) request
          (patch (addToTracked equal equalArray sameValueZero item (items s) (g s)) s)).1
     = g s).
Proof.
  intros Hpatch Hnext Herror. split.
  - intros m x.
    destruct (subscribe_done routes next error
                (λ s, patch (removeFromTracked equal item (g s)) s) request s) as (s2 & ->).
    rewrite Hpatch. apply removeFromTracked_clears.
  - intros Hrefl Hfresh.
    destruct (subscribe_keeps g routes next error
                (λ s, patch (removeFromTracked equal item (g s)) s) request
                (patch (addToTracked equal equalArray sameValueZero item (items s) (g s)) s))
      as (s2 & -> & Hs2); [done..|].
    rewrite Hpatch, Hs2, Hpatch. by apply removeFromTracked_addToTracked.
Qed.

Lemma busy_protocol {A} (g : State → bool) (patch : bool → State → State)
    routes (next : A → Eff unit) error request (s : State) :
  (∀ b s, g (patch b s) = b) →
  g (subscribe routes next error (patch false) request s).1 = false.
Proof.
  intros Hpatch.
  destruct (subscribe_done routes next error (patch false) request s) as (s2 & ->).
  apply Hpatch.
Qed.

(** C3, as the code has it. For every operation and every outcome of its
    request (a value, an error, completion without a value, or
    unsubscription), once the subscription has ended the tracking set of
    the operation holds no member Comparator-equal to one of the
    operation's entities and its busy flag is down; and the tracking set
    is the one from before the call (hence of the same size) when, before
    the call, none of its members was Comparator-equal to one of the
    operation's entities, each entity being equal to itself. *)
Theorem tracking_released (op : @Operation T E) (s : State) :
  (∀ m x,
     m ∈ trackingSet op
           (subscribed equal equalArray sameValueZero svc tapResponseRoutesThrown op s).1 →
     x ∈ trackedBy op → equal m x = false)
  ∧ busyFlag op
      (subscribed equal equalArray sameValueZero svc tapResponseRoutesThrown op s).1 = false
  ∧ ((∀ x, x ∈ trackedBy op → equal x x = true) →
     (∀ m x, m ∈ trackingSet op s → x ∈ trackedBy op → equal m x = false) →
     trackingSet op
       (perform equal equalArray sameValueZero svc tapResponseRoutesThrown op s).1
     = trackingSet op s).
Proof.
  destruct op as [request|request|keep request|request|request|item request|l request
                 |item request refreshRequest|l request refreshRequest
                 |item request decr readRequest|l request decr readRequest];
    unfold perform; simpl.
  1-2: split; [intros m x Hm; by apply elem_of_nil in Hm|];
       split; [|done]; by apply (busy_protocol isCreating patchIsCreating).
  1-3: split; [intros m x Hm; by apply elem_of_nil in Hm|];
       split; [|done]; by apply (busy_protocol isReading patchIsReading).
  - destruct (tracked_protocol refreshingItems patchRefreshingItems
                tapResponseRoutesThrown (upsertOneNext equal svc OnRead) callOnError
                (One item) request s) as [Hclear Hback];
      [done|intros; by apply keeps_upsertOneNext|intros; apply keeps_callOnError|].
    split; [exact Hclear|split; [done|exact Hback]].
  - destruct (tracked_protocol refreshingItems patchRefreshingItems
                tapResponseRoutesThrown (refreshManyNext equal svc) callOnError
                (Many l) request s) as [Hclear Hback];
      [done|intros; by apply keeps_refreshManyNext|intros; apply keeps_callOnError|].
    split; [exact Hclear|split; [done|exact Hback]].
  - destruct (tracked_protocol updatingItems patchUpdatingItems true
                (updateNext equal equalArray sameValueZero svc tapResponseRoutesThrown
                   item refreshRequest)
                callOnError (One item) request s) as [Hclear Hback];
      [done|intros; by apply keeps_updateNext|intros; apply keeps_callOnError|].
    split; [exact Hclear|split; [done|exact Hback]].
  - destruct (tracked_protocol updatingItems patchUpdatingItems true
                (updateManyNext equal equalArray sameValueZero svc tapResponseRoutesThrown
                   l refreshRequest)
                callOnError (Many l) request s) as [Hclear Hback];
      [done|intros; by apply keeps_updateManyNext|intros; apply keeps_callOnError|].
    split; [exact Hclear|split; [done|exact Hback]].
  - destruct (tracked_protocol deletingItems patchDeletingItems true
                (deleteNext equal svc tapResponseRoutesThrown item decr readRequest)
                callOnError (One item) request s) as [Hclear Hback];
      [done|intros; by apply keeps_deleteNext|intros; apply keeps_callOnError|].
    split; [exact Hclear|split; [done|exact Hback]].
  - destruct (tracked_protocol deletingItems patchDeletingItems true
                (deleteManyNext equal svc tapResponseRoutesThrown l decr readRequest)
                callOnError (Many l) request s) as [Hclear Hback];
      [done|intros; by apply keeps_deleteManyNext|intros; apply keeps_callOnError|].
    split; [exact Hclear|split; [done|exact Hback]].
Qed.

End Protocol.

(** ** Outcomes of the operations *)

Section Outcomes.

Context {T E P US St : Type}.
Variable equal : T → T → bool.
Variable equalArray : T → list T → bool.
Variable sameValueZero : T → T → bool.
Variable svc : Service T P.
Variable tapResponseRoutesThrown : bool.

#[local] Abbreviation State := (CollectionState T US St).
#[local] Abbreviation Ev := (Event T E P).

#[local] Arguments removeFromTracked : simpl never.
#[local] Arguments addToTracked : simpl never.

(** C10, as the code has it. When the request of [create], [readOne],
    [refresh] or [update] (without [refreshRequest]) emits [null], nothing
    is reported, broadcast or called back, and the state after the
    operation is the state before its call in every field but one: the
    busy flag of the operation, which is lowered, respectively its tracking
    set, which keeps exactly its members that are not Comparator-equal to
    the entity of the operation (itself Comparator-equal to itself).  So
    the state is the one before the call whenever, before the call, the
    flag was not raised, respectively the set held no member
    Comparator-equal to the entity; when another call had raised the flag
    or set such a member, that is cleared as well. *)
Theorem null_emission_only_releases (item : T) (s : State) :
  equal item item = true →
  let others l := List.filter (λ m, negb (equal m item)) l in
  let created := create equal sameValueZero svc tapResponseRoutesThrown (E:=E) (Next None) s in
  let readOne' := readOne equal svc tapResponseRoutesThrown (E:=E) (Next None) s in
  let refreshed :=
    refresh equal equalArray sameValueZero svc tapResponseRoutesThrown (E:=E)
      item (Next None) s in
  let updated :=
    update equal equalArray sameValueZero svc tapResponseRoutesThrown (E:=E)
      item (Next None) None s in
  (created
   = (mkState (items s) (totalCountFetched s) false (isReading s) (updatingItems s)
        (deletingItems s) (refreshingItems s) (status s) (statuses s), [])
   ∧ (isCreating s = false → created.1 = s))
  ∧ (readOne'
     = (mkState (items s) (totalCountFetched s) (isCreating s) false (updatingItems s)
          (deletingItems s) (refreshingItems s) (status s) (statuses s), [])
     ∧ (isReading s = false → readOne'.1 = s))
  ∧ (refreshed
     = (mkState (items s) (totalCountFetched s) (isCreating s) (isReading s)
          (updatingItems s) (deletingItems s) (others (refreshingItems s))
          (status s) (statuses s), [])
     ∧ ((∀ m, m ∈ refreshingItems s → equal m item = false) → refreshed.1 = s))
  ∧ (updated
     = (mkState (items s) (totalCountFetched s) (isCreating s) (isReading s)
          (others (updatingItems s)) (deletingItems s) (refreshingItems s)
          (status s) (statuses s), [])
     ∧ ((∀ m, m ∈ updatingItems s → equal m item = false) → updated.1 = s)).
Proof.
  intros Hrefl others created readOne' refreshed updated.
  assert (∀ l, (∀ m, m ∈ l → equal m item = false) → others l = l) as Hfresh.
  { intros l Hl. apply filter_all. intros m Hm. apply negb_true_iff. by apply Hl. }
  assert (refreshed
          = (mkState (items s) (totalCountFetched s) (isCreating s) (isReading s)
               (updatingItems s) (deletingItems s) (others (refreshingItems s))
               (status s) (statuses s), [])) as Hrefreshed.
  { unfold refreshed, refresh, refreshSubscribed, subscribe, upsertOneNext, refreshCall,
      removeFromRefreshingItems, addToRefreshingItems, patchRefreshingItems.
    eff_unfold. simpl.
    by rewrite (removeFromTracked_addToTracked_one equal equalArray sameValueZero). }
  assert (updated
          = (mkState (items s) (totalCountFetched s) (isCreating s) (isReading s)
               (others (updatingItems s)) (deletingItems s) (refreshingItems s)
               (status s) (statuses s), [])) as Hupdated.
  { unfold updated, update, updateSubscribed, subscribe, updateNext, upsertOneNext,
      updateCall, removeFromUpdatingItems, addToUpdatingItems, patchUpdatingItems.
    eff_unfold. simpl.
    by rewrite (removeFromTracked_addToTracked_one equal equalArray sameValueZero). }
  split; [|split; [|split]].
  - split; [done|]. intros Hflag. destruct s. simpl in *. by subst.
  - split; [done|]. intros Hflag. destruct s. simpl in *. by subst.
  - split; [done|]. intros Hset. rewrite Hrefreshed. simpl.
    rewrite (Hfresh _ Hset). by destruct s.
  - split; [done|]. intros Hset. rewrite Hupdated. simpl.
    rewrite (Hfresh _ Hset). by destruct s.
Qed.

(** C2, as the code has it. When the request of [read] fails (it errors,
    or it completes without a value and [first()] raises its EmptyError)
    and the caller did not ask to keep the existing data, [items] becomes
    empty, [totalCountFetched] unset and only the error callback is
    invoked, with the error. When the request of [readMany] fails, only
    the error callback is invoked, with the error, and [items] and
    [totalCountFetched] stay as they are: [readMany] has no
    [keepExistingOnError] and resets nothing. *)
Theorem failed_read_resets_failed_readMany_keeps (e : E) (s : State) :
  let fails (request : Outcome E (option (Fetched T))) (err : ErrValue E P) :=
    let afterRead := read equal svc tapResponseRoutesThrown false request s in
    let afterReadMany := readMany equal svc tapResponseRoutesThrown request s in
    (items afterRead.1 = [] ∧ totalCountFetched afterRead.1 = None
     ∧ afterRead.2 = [CallOnError err])
    ∧ (items afterReadMany.1 = items s
       ∧ totalCountFetched afterReadMany.1 = totalCountFetched s
       ∧ afterReadMany.2 = [CallOnError err]) in
  fails (Error e) (ErrRequest e) ∧ fails Complete ErrEmpty.
Proof. by repeat split. Qed.

End Outcomes.

(** ** The decrement policy *)

(** *** Rounding to a double *)

Lemma nearestEven_exact (k d : Z) : (0 < d)%Z → Js.nearestEven (k * d) d = k.
Proof.
  intros Hd. unfold Js.nearestEven.
  rewrite Z.div_mul, Z.mod_mul by lia.
  destruct (Z.ltb_spec (2 * 0) d); [done|lia].
Qed.

Lemma nearestEven_nonneg (n d : Z) : (0 ≤ n)%Z → (0 < d)%Z → (0 ≤ Js.nearestEven n d)%Z.
Proof.
  intros Hn Hd. unfold Js.nearestEven.
  pose proof (Z.div_pos n d Hn Hd).
  repeat case_match; lia.
Qed.

(** The exponent of a whole number is its binary logarithm, whatever the
    denominator it is written with. *)
Lemma exponent_whole (z : Z) (d : positive) :
  z ≠ 0%Z → Js.exponent (z * Z.pos d) d = Z.log2 (Z.abs z).
Proof.
  intros Hz. unfold Js.exponent. rewrite Z.abs_mul.
  change (Z.abs (Z.pos d)) with (Z.pos d).
  set (a := Z.abs z). assert (0 < a)%Z as Ha by lia.
  pose proof (Z.log2_mul_below a (Z.pos d) Ha ltac:(lia)) as Hbelow.
  pose proof (Z.log2_mul_above a (Z.pos d) ltac:(lia) ltac:(lia)) as Habove.
  pose proof (Z.log2_nonneg a) as Hnonneg.
  pose proof (Z.log2_spec a Ha) as [Hlow Hhigh].
  remember (Z.log2 (a * Z.pos d) - Z.log2 (Z.pos d))%Z as e eqn:Heqe.
  assert (e = Z.log2 a ∨ e = Z.succ (Z.log2 a)) as [He|He] by lia.
  - rewrite He. rewrite Z.max_r, Z.max_l by lia. rewrite ?Z.pow_0_r.
    destruct (Z.leb_spec (Z.pos d * 2 ^ Z.log2 a) (a * Z.pos d * 1));
      [done|exfalso; nia].
  - rewrite He. rewrite Z.max_r, Z.max_l by lia. rewrite ?Z.pow_0_r.
    destruct (Z.leb_spec (Z.pos d * 2 ^ Z.succ (Z.log2 a)) (a * Z.pos d * 1));
      [exfalso; nia|lia].
Qed.

Lemma Qred_whole (q : Q) (z : Z) : (q == inject_Z z)%Q → Qred q = inject_Z z.
Proof.
  intros Hq. rewrite (Qred_complete _ _ Hq). unfold Qred, inject_Z.
  pose proof (Z.ggcd_gcd z 1) as Hg. pose proof (Z.ggcd_correct_divisors z 1) as Hd.
  destruct (Z.ggcd z 1) as [g [a b]]. simpl in *. rewrite Z.gcd_1_r in Hg. subst g.
  destruct Hd as [Ha Hb]. replace a with z by lia. by replace b with 1%Z by lia.
Qed.

(** The whole numbers up to [2^53] are doubles: rounding leaves them. *)
Lemma toDouble_whole (q : Q) (z : Z) :
  (q == inject_Z z)%Q → (Z.abs z ≤ 2 ^ 53)%Z → Js.toDouble q = Js.Fin (inject_Z z).
Proof.
  intros Hq Hz. destruct q as [n d]. unfold Js.toDouble. simpl Qnum. simpl Qden.
  assert (n = z * Z.pos d)%Z as Hn.
  { unfold Qeq in Hq. simpl in Hq. lia. }
  destruct (Z.eqb_spec n 0) as [H0|H0].
  { assert (z = 0%Z) as -> by nia. done. }
  assert (z ≠ 0%Z) as Hz0 by (intros ->; lia).
  rewrite Hn, exponent_whole by done.
  set (L := Z.log2 (Z.abs z)).
  assert (0 < Z.abs z)%Z as Ha by lia.
  pose proof (Z.log2_spec (Z.abs z) Ha) as [Hlow Hhigh]. fold L in Hlow, Hhigh.
  pose proof (Z.log2_nonneg (Z.abs z)) as Hnonneg. fold L in Hnonneg.
  assert (L ≤ 53)%Z as HL.
  { pose proof (Z.log2_le_mono _ _ Hz) as Hle. by rewrite Z.log2_pow2 in Hle by lia. }
  rewrite (Z.max_l (L - 52) (-1074)) by lia.
  destruct (Z.le_gt_cases L 52) as [Hsmall|Hbig].
  - rewrite (Z.max_r 0 (- (L - 52))), (Z.max_l 0 (L - 52)) by lia.
    set (k := (- (L - 52))%Z). assert (0 ≤ k)%Z as Hk by lia.
    rewrite ?Z.pow_0_r. rewrite !Z.mul_1_r.
    replace (z * Z.pos d * 2 ^ k)%Z with (z * 2 ^ k * Z.pos d)%Z by lia.
    rewrite nearestEven_exact by lia.
    assert (0 < 2 ^ k)%Z as Hpow by (apply Z.pow_pos_nonneg; lia).
    assert (Z.abs (z * 2 ^ k) < 2 ^ 53)%Z as Hbound.
    { rewrite Z.abs_mul, (Z.abs_eq (2 ^ k)) by lia.
      replace 53%Z with (Z.succ L + k)%Z by lia.
      rewrite Z.pow_add_r by lia. nia. }
    assert (2 ^ 53 < 2 ^ 1024)%Z as Hmax by (apply Z.pow_lt_mono_r; lia).
    destruct (Z.leb_spec (2 ^ 1024) (Z.abs (z * 2 ^ k))); [lia|].
    f_equal. apply Qred_whole. unfold Qeq. simpl. rewrite Z2Pos.id by lia. lia.
  - assert (L = 53)%Z as HL53 by lia. rewrite HL53 in *.
    change (53 - 52)%Z with 1%Z. change (Z.max 0 (- 1)) with 0%Z.
    change (Z.max 0 1) with 1%Z. rewrite ?Z.pow_0_r. rewrite ?Z.pow_1_r.
    assert (Z.abs z = 2 ^ 53)%Z as Habs by lia.
    assert (∃ h, z = 2 * h ∧ Z.abs h = 2 ^ 52)%Z as (h & -> & Hh).
    { change (2 ^ 53)%Z with (2 * 2 ^ 52)%Z in Habs.
      destruct (Z.abs_spec z) as [[_ Heq]|[_ Heq]].
      - exists (2 ^ 52)%Z. split; [lia|done].
      - exists (- 2 ^ 52)%Z. split; [lia|done]. }
    replace (2 * h * Z.pos d * 1)%Z with (h * (Z.pos d * 2))%Z by lia.
    rewrite nearestEven_exact by lia. rewrite Hh.
    assert (2 ^ 52 * 2 < 2 ^ 1024)%Z as Hmax.
    { change (2 ^ 52 * 2)%Z with (2 ^ 53)%Z. apply Z.pow_lt_mono_r; lia. }
    destruct (Z.leb_spec (2 ^ 1024) (2 ^ 52 * 2)); [lia|].
    f_equal. apply Qred_whole. unfold Qeq. simpl. lia.
Qed.

(** Rounding does not cross zero. *)
Lemma toDouble_notNegative (q : Q) : (0 <= q)%Q → notNegative (Js.toDouble q).
Proof.
  intros Hq. destruct q as [n d]. unfold Js.toDouble. simpl Qnum. simpl Qden.
  assert (0 ≤ n)%Z as Hn. { unfold Qle in Hq. simpl in Hq. lia. }
  destruct (Z.eqb_spec n 0); [done|].
  set (u := Z.max (Js.exponent n d - 52) (-1074)).
  assert (0 < 2 ^ Z.max 0 (- u))%Z by (apply Z.pow_pos_nonneg; lia).
  assert (0 < 2 ^ Z.max 0 u)%Z by (apply Z.pow_pos_nonneg; lia).
  pose proof (nearestEven_nonneg (n * 2 ^ Z.max 0 (- u)) (Z.pos d * 2 ^ Z.max 0 u)
                ltac:(nia) ltac:(nia)) as Hm.
  case_match.
  - simpl. apply Z.ltb_ge. lia.
  - simpl. rewrite Qred_correct. unfold Qle. simpl. nia.
Qed.

(** The difference of two whole numbers is exact as long as it stays
    within [2^53]. *)
Lemma sub_whole (x y : Js.number) (a b : Z) :
  whole x a → whole y b → (Z.abs (a - b) ≤ 2 ^ 53)%Z →
  Js.sub x y = Js.Fin (inject_Z (a - b)).
Proof.
  destruct x as [p| |], y as [q| |]; simpl; try done. intros Ha Hb Hle.
  apply toDouble_whole; [|done]. rewrite Ha, Hb.
  unfold Qeq, Qminus, Qplus, Qopp, inject_Z. simpl. lia.
Qed.

(** The subtraction at the edges of the format: the first whole numbers
    that are not doubles (the nearer double, the even one on a tie), the
    overflow to [Infinity], the smallest doubles, and the infinities. *)
Lemma sub_at_the_edges :
  Js.sub (Js.Fin 9007199254740994) (Js.Fin 1) = Js.Fin 9007199254740992
  ∧ Js.sub (Js.Fin 9007199254740996) (Js.Fin 1) = Js.Fin 9007199254740996
  ∧ Js.sub (Js.Fin 9007199254740998) (Js.Fin 1) = Js.Fin 9007199254740996
  ∧ Js.sub (Js.Fin (1 # 2)) (Js.Fin (1 # 4)) = Js.Fin (1 # 4)
  ∧ Js.sub (Js.Fin (inject_Z ((2 ^ 53 - 1) * 2 ^ 971)))
      (Js.Fin (inject_Z (- ((2 ^ 53 - 1) * 2 ^ 971)))) = Js.Inf false
  ∧ Js.sub (Js.Fin (3 # Z.to_pos (2 ^ 1074))) (Js.Fin (1 # Z.to_pos (2 ^ 1074)))
    = Js.Fin (1 # Z.to_pos (2 ^ 1073))
  ∧ Js.sub (Js.Inf false) (Js.Fin 1) = Js.Inf false
  ∧ Js.sub (Js.Inf false) (Js.Inf false) = Js.NaN.
Proof. vm_compute. by repeat split. Qed.

(** *** The tests of [getDecrementedTotalCount] *)

Lemma floor_half_whole (z : Z) : Qfloor (inject_Z z + (1 # 2)) = z.
Proof.
  unfold Qfloor, Qplus, inject_Z. simpl.
  change (Z.pos (1 * 2)) with 2%Z.
  rewrite Z.mul_1_r, Z.div_add_l by lia. change (1 / 2)%Z with 0%Z. lia.
Qed.

Lemma round_of_whole (d : Q) (z : Z) :
  (d == inject_Z z)%Q → Js.round (Js.Fin d) = Js.Fin (inject_Z z).
Proof.
  intros Hd. unfold Js.round. f_equal. f_equal.
  transitivity (Qfloor (inject_Z z + (1 # 2))); [|apply floor_half_whole].
  apply Qfloor_comp. by rewrite Hd.
Qed.





(** The tests of the boolean branch pass exactly for a total that is not
    zero and at least the count. *)
Lemma atLeast_tests (n : nat) (prev : Js.number) :
  atLeast n prev ↔ Js.truthy prev && Js.geb prev (Js.ofNat n) = true.
Proof.
  destruct prev as [p|negative|]; simpl.
  - rewrite andb_true_iff, negb_true_iff, Qle_bool_iff. split.
    + intros [Hnz Hle]. split; [|done]. apply not_true_is_false. intros Hz.
      by apply Qeq_bool_eq in Hz.
    + intros [Hnz Hle]. split; [|done]. intros Hz. apply Qeq_eq_bool in Hz. congruence.
  - by destruct negative.
  - split; [done|]. by intros.
Qed.

Lemma getDecrementedTotalCount_boolean response itemsCount (b : bool) prevTotalCount :
  getDecrementedTotalCount response itemsCount prevTotalCount (Some (DBool b))
  = match prevTotalCount with
    | Some (Num prev) =>
        if Js.truthy prev && Js.geb prev (Js.ofNat itemsCount)
        then Some (Js.sub prev (Js.ofNat itemsCount)) else None
    | _ => None
    end.
Proof.
  unfold getDecrementedTotalCount, truthyCount.
  destruct prevTotalCount as [[|prev]|]; [done| |done].
  by destruct (Js.truthy prev), (Js.geb _ _).
Qed.

(** The string branch on a single response. *)
Lemma getDecrementedTotalCount_string_one (r : Response) itemsCount prevTotalCount field :
  getDecrementedTotalCount [r] itemsCount prevTotalCount (Some (DString field))
  = match r with
    | RObject own =>
        match own !! field with
        | Some (FNumber n) =>
            if Js.geb n (Js.Fin 0) && Js.eqb (Js.round n) n then Some n else None
        | _ => None
        end
    | _ => None
    end.
Proof. by destruct r. Qed.

(** The string branch looks at nothing when there are several responses. *)
Lemma getDecrementedTotalCount_string_batch (r1 r2 : Response) rest itemsCount
    prevTotalCount field :
  getDecrementedTotalCount (r1 :: r2 :: rest) itemsCount prevTotalCount
    (Some (DString field)) = None.
Proof. unfold getDecrementedTotalCount. by destruct r1. Qed.

Section Deletion.

Context {T E P US St : Type}.
Variable equal : T → T → bool.
Variable equalArray : T → list T → bool.
Variable sameValueZero : T → T → bool.
Variable svc : Service T P.
Variable tapResponseRoutesThrown : bool.

#[local] Abbreviation State := (CollectionState T US St).
#[local] Abbreviation Ev := (Event T E P).

(** A successful [delete] without [readRequest]: what becomes of the
    collection. *)
Lemma delete_succeeded (item : T) (response : Response) decr (s : State) :
  let s' := (delete equal equalArray sameValueZero svc tapResponseRoutesThrown (E:=E)
               item (Next response) decr None s).1 in
  items s' = List.filter (λ i, negb (equal i item)) (items s)
  ∧ totalCountFetched s'
    = match getDecrementedTotalCount [response] 1 (totalCountFetched s) decr with
      | Some n => Some (Num n)
      | None => totalCountFetched s
      end.
Proof.
  unfold delete, deleteSubscribed, subscribe, deleteNext, deleteCall. eff_unfold. simpl.
  destruct (getDecrementedTotalCount _ _ _ _), (observed svc OnDelete); by simpl.
Qed.

(** A successful [deleteMany] without [readRequest]. *)
Lemma deleteMany_succeeded (l : list T) (response : list Response) decr (s : State) :
  let s' := (deleteMany equal equalArray sameValueZero svc tapResponseRoutesThrown (E:=E)
               l (Next response) decr None s).1 in
  items s' = List.filter (λ i, negb (has equal i l None)) (items s)
  ∧ totalCountFetched s'
    = match getDecrementedTotalCount response (length l) (totalCountFetched s) decr with
      | Some n => Some (Num n)
      | None => totalCountFetched s
      end.
Proof.
  unfold deleteMany, deleteManySubscribed, subscribe, deleteManyNext, deleteManyCall.
  eff_unfold. simpl.
  destruct (getDecrementedTotalCount _ _ _ _), (observed svc OnDelete); by simpl.
Qed.



(** The string source on a single response, as [delete] always has it and
    [deleteMany] has it for one request: a non-negative whole number under
    the named own property becomes the total, whatever the total was;
    anything else but [Infinity] leaves it. *)
Lemma string_decrement_single_response (item : T) (l : list T) (r : Response)
    (field : string) (s : State) :
  let one := delete equal equalArray sameValueZero svc tapResponseRoutesThrown (E:=E)
               item (Next r) (Some (DString field)) None s in
  let many := deleteMany equal equalArray sameValueZero svc tapResponseRoutesThrown (E:=E)
                l (Next [r]) (Some (DString field)) None s in
  (∀ own n (z : Z), r = RObject own → own !! field = Some (FNumber (Js.Fin n)) →
     (n == inject_Z z)%Q → (0 ≤ z)%Z →
     totalCountFetched one.1 = Some (Num (Js.Fin n))
     ∧ totalCountFetched many.1 = Some (Num (Js.Fin n)))
  ∧ ((∀ own n, r = RObject own → own !! field = Some (FNumber n) →
        n ≠ Js.Inf false ∧ ¬ ∃ z : Z, whole n z ∧ (0 ≤ z)%Z) →
     totalCountFetched one.1 = totalCountFetched s
     ∧ totalCountFetched many.1 = totalCountFetched s).
Proof.
  intros one many.
  destruct (delete_succeeded item r (Some (DString field)) s) as [_ Hone].
  destruct (deleteMany_succeeded l [r] (Some (DString field)) s) as [_ Hmany].
  fold one in Hone. fold many in Hmany. rewrite Hone, Hmany. clear Hone Hmany.
  rewrite !getDecrementedTotalCount_string_one. split.
  - intros own n z -> Hfield Hn Hz. rewrite Hfield, (round_of_whole n z Hn).
    assert (Js.geb (Js.Fin n) (Js.Fin 0) = true) as ->.
    { apply Qle_bool_iff. rewrite Hn. unfold Qle. simpl. lia. }
    assert (Js.eqb (Js.Fin (inject_Z z)) (Js.Fin n) = true) as ->; [|done].
    apply Qeq_bool_iff. by symmetry.
  - intros Hnot. destruct r as [own| |]; [|done..].
    destruct (own !! field) as [[n|]|] eqn:Hfield; [|done..].
    destruct (Js.geb n (Js.Fin 0)) eqn:Hge; [|done].
    destruct (Js.eqb (Js.round n) n) eqn:Heq; [|done].
    exfalso. destruct (Hnot own n eq_refl Hfield) as [Hinf Hwhole].
    destruct n as [q|[|]|]; [|done..].
    change (Qle_bool 0 q = true) in Hge.
    change (Qeq_bool (inject_Z (Qfloor (q + (1 # 2)))) q = true) in Heq.
    set (z := Qfloor (q + (1 # 2))) in *.
    apply Hwhole. exists z.
    apply Qeq_bool_iff in Heq. apply Qle_bool_iff in Hge. split; [by symmetry|].
    rewrite <- Heq in Hge. unfold Qle in Hge. simpl in Hge. lia.
Qed.


(** C5, as the code has it. For a [deleteMany] without [readRequest] whose
    request succeeds, with [decrementTotalCount: true]: the new
    [totalCountFetched] is the current one minus the number of partial
    entities given in [params.items], whether or not each of them matched
    an element of [items], as the subtraction of two numbers gives it,
    which is the exact difference for a whole total up to [2^53]; it is
    changed only when the current value is a number, is not zero and is at
    least that number. *)
Theorem boolean_decrement_counts_given_items (l : list T) (responses : list Response)
    (s : State) :
  let s' := (deleteMany equal equalArray sameValueZero svc tapResponseRoutesThrown (E:=E)
               l (Next responses) (Some (DBool true)) None s).1 in
  (∀ prev, totalCountFetched s = Some (Num prev) → atLeast (length l) prev →
     totalCountFetched s' = Some (Num (Js.sub prev (Js.ofNat (length l))))
     ∧ (∀ a : Z, whole prev a → (a ≤ 2 ^ 53)%Z →
          Js.sub prev (Js.ofNat (length l))
          = Js.Fin (inject_Z (a - Z.of_nat (length l)))))
  ∧ ((∀ prev, totalCountFetched s = Some (Num prev) → ¬ atLeast (length l) prev) →
     totalCountFetched s' = totalCountFetched s).
Proof.
  intros s'.
  destruct (deleteMany_succeeded l responses (Some (DBool true)) s) as [_ Hmany].
  fold s' in Hmany. rewrite Hmany. clear Hmany.
  rewrite getDecrementedTotalCount_boolean. split.
  - intros prev Hprev Hat. rewrite Hprev.
    rewrite (proj1 (atLeast_tests _ _) Hat). split; [done|]. intros a Ha Hle.
    destruct prev as [p| |]; [|done..]. simpl in Ha, Hat.
    apply (sub_whole (Js.Fin p) (Js.ofNat (length l)) a (Z.of_nat (length l)));
      [done|simpl; reflexivity|].
    destruct Hat as [_ Hat]. rewrite Ha in Hat. unfold Qle in Hat. simpl in Hat. lia.
  - intros Hno. destruct (totalCountFetched s) as [[|prev]|] eqn:Hprev; [done| |done].
    destruct (Js.truthy prev && Js.geb prev (Js.ofNat (length l))) eqn:Htests; [|done].
    by destruct (Hno prev eq_refl); apply atLeast_tests.
Qed.

End Deletion.

(** ** The collection compared by [id] *)

Section ByIdFacts.

Import ById.

(** C1. Starting from the initial state, a [create] that stores [{id: 1}]
    followed by a successful [createMany] whose batch is one entity with
    the same [id] leaves two Comparator-equal elements in [items], and no
    [read] took part: [createMany] merges the batch into a copy and then
    commits the concatenation instead. *)
Theorem createMany_commits_a_duplicate :
  let s :=
    performAll equal equalArray sameValueZero defaults true (E:=unit)
      [OpCreate (Next (Some stored1)); OpCreateMany (Next (Some (Bare [fetched1])))]
      (initialState : State) in
  matchCount equal fetched1 [stored1] = 1
  ∧ items s = [stored1; fetched1]
  ∧ equal stored1 fetched1 = true
  ∧ ¬ noDuplicates equal (items s).
Proof.
  repeat split. intros Hno.
  by specialize (Hno 0 1 stored1 fetched1 eq_refl eq_refl ltac:(lia)).
Qed.

(** C2 fails for [readMany]: its request fails, and the one stored entity
    and the total are still there. *)
Lemma failed_readMany_resets_nothing :
  let s' := (run defaults true (OpReadMany (Error ())) onePage).1 in
  ¬ (items s' = [] ∧ totalCountFetched s' = None).
Proof. intros s' [Hitems _]. discriminate Hitems. Qed.

(** C3 fails on the size: an update of [{id: 1}] is in flight, a second
    one is called and completes, and the updating set went from one member
    to none. *)
Lemma overlapping_update_shrinks_updatingItems :
  let op : Op := OpUpdate partial1 (Next (Some fetched1)) None in
  length (trackingSet op (run defaults true op updatingOne).1)
  ≠ length (trackingSet op updatingOne).
Proof. simpl. lia. Qed.

(** C10 fails on what is cleared. While a creation is in flight, a second
    one whose request emits [null] lowers [isCreating], which the first
    call had raised as well; and while an update of [{id: 1}] is in flight,
    a second one whose request emits [null] empties the updating set of
    the member the first call had put there. *)
Lemma null_emission_clears_what_another_call_set :
  let creating :=
    phases equal equalArray sameValueZero defaults true (E:=unit)
      [Called (OpCreate (Next (Some stored2)))] oneItem in
  let created :=
    phases equal equalArray sameValueZero defaults true (E:=unit)
      overlappingCreates oneItem in
  let updated := (run defaults true (OpUpdate partial1 (Next None) None) updatingOne).1 in
  (isCreating creating = true ∧ isCreating created = false)
  ∧ (updatingItems updatingOne = [stored1] ∧ updatingItems updated = []).
Proof. by repeat split. Qed.

(** C4. [deleteMany] with two requests, both answering
    [{deletedCount: 3}], and [decrementTotalCount: 'deletedCount'], on a
    total of 10: the first response exposes the field as a non-negative
    integer, yet the total stays 10, where [delete] with the same single
    response adopts 3. *)
Theorem deleteMany_ignores_the_first_of_two_responses :
  let many := run defaults true
    (OpDeleteMany [stored1; stored2] (Next [deletedCount3; deletedCount3])
       (Some (DString "deletedCount")) None) twoOfTen in
  let one := run defaults true
    (OpDelete stored1 (Next deletedCount3) (Some (DString "deletedCount")) None)
    twoOfTen in
  items many.1 = []
  ∧ totalCountFetched many.1 = Some (Num (Js.Fin 10))
  ∧ totalCountFetched one.1 = Some (Num (Js.Fin 3)).
Proof. by vm_compute. Qed.

(** C5 fails on what is counted: of the two entities given to
    [deleteMany] one is not in [items]; one element is removed and the
    total goes from 5 to 3, not to 4. *)
Lemma boolean_decrement_counts_an_absent_entity :
  let s' := (run defaults true
    (OpDeleteMany [partial1; absent9] (Next [RNullish]) (Some (DBool true)) None)
    threeOfFive).1 in
  length (items threeOfFive) - length (items s') = 1
  ∧ ¬ (∀ prev q, totalCountFetched threeOfFive = Some (Num prev) →
         totalCountFetched s' = Some (Num q) →
         q = Js.sub prev (Js.ofNat (length (items threeOfFive) - length (items s')))).
Proof.
  split; [done|]. intros Hclaim.
  specialize (Hclaim (Js.Fin 5) (Js.Fin 3) eq_refl eq_refl).
  vm_compute in Hclaim. discriminate Hclaim.
Qed.

(** C6. With [{id: 1}] stored, an [update] of [{id: 1}] is called and then
    an [updateMany] of the list [[{id: 1}]]: the add step of the second
    call appends the stored entity although the updating set holds it
    already, and the set has two Comparator-equal members. *)
Theorem addToUpdatingItems_list_adds_a_present_entity :
  let s :=
    phases equal equalArray sameValueZero defaults true (E:=unit)
      [Called (OpRead false (Next (Some (Bare [stored1]))));
       Settled (OpRead false (Next (Some (Bare [stored1]))));
       Called (OpUpdate partial1 (Next (Some fetched1)) None)]
      (initialState : State) in
  updatingItems s = [stored1]
  ∧ hasItemIn equal sameValueZero partial1 (updatingItems s) = true
  ∧ updatingItems (addToUpdatingItems equal equalArray sameValueZero (Many [partial1]) s)
    = [stored1; stored1]
  ∧ updatingItems (addToUpdatingItems equal equalArray sameValueZero (One partial1) s)
    = [stored1].
Proof. by repeat split. Qed.

(** C8 fails once [throwOnDuplicates] is set: [duplicateNotAdded] raises
    before the error callback is reached, and the callback gets the raised
    error or nothing, never the configured parameter. *)
Lemma throwOnDuplicates_preempts_the_duplicate_param :
  (run throwing true (OpCreate (Next (Some fetched1))) oneItem).2
    = [CallOnError (ErrThrown (ErrorMessage "duplicate"))]
  ∧ (run throwing false (OpCreate (Next (Some fetched1))) oneItem).2 = []
  ∧ (CallOnError (ErrDuplicateParam (onDuplicateErrCallbackParam throwing))
       ∉ (run throwing true (OpCreate (Next (Some fetched1))) oneItem).2)
  ∧ (CallOnError (ErrDuplicateParam (onDuplicateErrCallbackParam throwing))
       ∉ (run throwing false (OpCreate (Next (Some fetched1))) oneItem).2).
Proof.
  repeat split.
  - intros Hin. apply list_elem_of_singleton in Hin. discriminate Hin.
  - intros Hin. by apply elem_of_nil in Hin.
Qed.

(** With an error reporter that throws, likewise: [duplicateNotAdded]
    calls it unguarded, and the error callback gets what it threw, or
    nothing. *)
Lemma throwing_reporter_preempts_the_duplicate_param :
  (run reportingThrows true (OpCreate (Next (Some fetched1))) oneItem).2
    = [Reported (NotAdded fetched1 [stored1]);
       CallOnError (ErrThrown (Thrown "reporter"))]
  ∧ (run reportingThrows false (OpCreate (Next (Some fetched1))) oneItem).2
    = [Reported (NotAdded fetched1 [stored1])].
Proof. by split. Qed.

(** C8, as the code has it. With [items = [{id: 1}]], the comparator on
    [id] and [throwOnDuplicates] not set, a [create] whose request resolves
    to [{id: 1}] leaves [items] unchanged and never invokes the success
    callback; it invokes the error callback with
    [onDuplicateErrCallbackParam] when the error reporter, if there is one,
    returns; when the reporter throws, the error callback gets what it
    threw, or nothing where the exception is not routed to it. *)
Theorem create_duplicate_rejected (svc : Service Entity nat) (routes : bool) (s : State)
    (stored fetched : Entity) :
  Js.truthyString (throwOnDuplicates svc) = None →
  items s = [stored] → id stored = 1%Z → id fetched = 1%Z →
  let r := run svc routes (OpCreate (Next (Some fetched))) s in
  let report : Report Entity := NotAdded fetched [stored] in
  items r.1 = items s
  ∧ (∀ arg, CallOnSuccess arg ∉ r.2)
  ∧ (reporterReturns svc →
     r.2 = match errReporter svc with
           | Some _ => [Reported report]
           | None => []
           end
           ++ [CallOnError (ErrDuplicateParam (onDuplicateErrCallbackParam svc))])
  ∧ (∀ reporter x, errReporter svc = Some reporter → reporter report = Some x →
     r.2 = Reported report :: (if routes then [CallOnError (ErrThrown x)] else [])).
Proof.
  intros Hthrow Hitems Hstored Hfetched.
  assert (hasItemIn equal sameValueZero fetched [stored] = true) as Hhas.
  { unfold hasItemIn, equal. simpl. rewrite Hstored, Hfetched.
    rewrite bool_decide_eq_true_2 by done. by rewrite orb_true_r. }
  unfold run, perform. simpl. unfold createSubscribed, subscribe, createNext, createCall.
  unfold duplicateNotAdded, callReporter. eff_unfold. simpl.
  rewrite Hitems, Hhas, Hthrow. simpl.
  destruct (errReporter svc) as [reporter|] eqn:Hreporter; simpl.
  - destruct (reporter (NotAdded fetched [stored])) as [x|] eqn:Hcall; simpl.
    + split; [by destruct routes|]. split.
      * intros arg Hin. destruct routes; simpl in Hin.
        -- apply elem_of_cons in Hin as [Hin|Hin]; [done|].
           by apply list_elem_of_singleton in Hin.
        -- by apply list_elem_of_singleton in Hin.
      * split.
        -- intros Hreturns. rewrite (Hreturns reporter _ Hreporter) in Hcall.
           discriminate Hcall.
        -- intros reporter' x' Hsame Hx. simplify_eq. by destruct routes.
    + split; [done|]. split.
      * intros arg Hin. apply elem_of_cons in Hin as [Hin|Hin]; [done|].
        by apply list_elem_of_singleton in Hin.
      * split; [done|]. intros reporter' x' Hsame Hx. simplify_eq.
  - split; [done|]. split.
    + intros arg Hin. by apply list_elem_of_singleton in Hin.
    + split; [done|]. intros reporter' x' Hsame. discriminate Hsame.
Qed.

(** [create_duplicate_rejected] on the default options with an error
    reporter that returns, and with one that throws. *)
Lemma create_duplicate_rejected_witness :
  let r := run reporting true (OpCreate (Next (Some fetched1))) oneItem in
  let r' := run reportingThrows true (OpCreate (Next (Some fetched1))) oneItem in
  reporterReturns reporting
  ∧ items r.1 = [stored1]
  ∧ (∀ arg, CallOnSuccess arg ∉ r.2)
  ∧ r.2 = [Reported (NotAdded fetched1 [stored1]); CallOnError (ErrDuplicateParam 409)]
  ∧ r'.2 = [Reported (NotAdded fetched1 [stored1]);
            CallOnError (ErrThrown (Thrown "reporter"))].
Proof.
  intros r r'.
  assert (reporterReturns reporting) as Hreturns.
  { intros reporter report Hreporter. injection Hreporter as <-. reflexivity. }
  pose proof (create_duplicate_rejected reporting true oneItem stored1 fetched1
                eq_refl eq_refl eq_refl eq_refl) as H.
  pose proof (create_duplicate_rejected reportingThrows true oneItem stored1 fetched1
                eq_refl eq_refl eq_refl eq_refl) as H'.
  cbv zeta in H, H'.
  destruct H as (Hitems & Hnone & Hcalls & _). destruct H' as (_ & _ & _ & Hthrown).
  split; [exact Hreturns|]. split; [exact Hitems|]. split; [exact Hnone|].
  split; [exact (Hcalls Hreturns)|].
  exact (Hthrown _ (Thrown "reporter") eq_refl eq_refl).
Defined.

(** [upsertOne_three_cases] on no match, one match and two matches. *)
Lemma upsertOne_three_cases_witness :
  upsertOne equal fetched1 [stored2] = ([stored2; fetched1], ReturnsItems)
  ∧ (∃ k x, [stored2; stored1] !! k = Some x ∧ equal fetched1 x = true
       ∧ upsertOne equal fetched1 [stored2; stored1]
         = (<[k := fetched1]> [stored2; stored1], ReturnsItems))
  ∧ upsertOne equal fetched1 [stored1; stored2; partial1]
    = ([stored1; stored2; partial1], ReturnsDuplicate).
Proof.
  split; [|split].
  - apply (proj1 (upsertOne_three_cases equal fetched1 [stored2])). reflexivity.
  - apply (proj1 (proj2 (upsertOne_three_cases equal fetched1 [stored2; stored1]))).
    reflexivity.
  - apply (proj2 (proj2 (upsertOne_three_cases equal fetched1
                           [stored1; stored2; partial1]))).
    vm_compute. lia.
Defined.

(** [tracking_released] on an update of [{id: 1}] with nothing in flight. *)
Lemma tracking_released_witness :
  let op : Op := OpUpdate partial1 (Next (Some fetched1)) None in
  (∀ x, x ∈ trackedBy op → equal x x = true)
  ∧ (∀ m x, m ∈ trackingSet op oneItem → x ∈ trackedBy op → equal m x = false)
  ∧ trackingSet op (run defaults true op oneItem).1 = trackingSet op oneItem.
Proof.
  intros op.
  assert (∀ x, x ∈ trackedBy op → equal x x = true) as Hrefl.
  { intros x Hx. apply list_elem_of_singleton in Hx. subst x. reflexivity. }
  assert (∀ m x, m ∈ trackingSet op oneItem → x ∈ trackedBy op → equal m x = false)
    as Hfresh.
  { intros m x Hm. apply elem_of_nil in Hm. destruct Hm. }
  split; [exact Hrefl|]. split; [exact Hfresh|].
  exact (proj2 (proj2 (tracking_released equal equalArray sameValueZero defaults true
                         op oneItem)) Hrefl Hfresh).
Defined.

(** [null_emission_only_releases] on [{id: 2}] while an update of
    [{id: 1}] is in flight: the four operations give the state back, the
    updating set with its member. *)
Lemma null_emission_only_releases_witness :
  equal stored2 stored2 = true
  ∧ run defaults true (OpCreate (Next None)) updatingOne = (updatingOne, [])
  ∧ run defaults true (OpReadOne (Next None)) updatingOne = (updatingOne, [])
  ∧ run defaults true (OpRefresh stored2 (Next None)) updatingOne = (updatingOne, [])
  ∧ run defaults true (OpUpdate stored2 (Next None) None) updatingOne = (updatingOne, []).
Proof.
  pose proof (null_emission_only_releases equal equalArray sameValueZero defaults true
                (E:=unit) stored2 updatingOne eq_refl) as H.
  cbv zeta in H.
  destruct H as ((Hcreate & _) & (HreadOne & _) & (Hrefresh & _) & (Hupdate & _)).
  split; [reflexivity|].
  split; [exact Hcreate|]. split; [exact HreadOne|]. split; [exact Hrefresh|exact Hupdate].
Defined.


(** [boolean_decrement_counts_given_items] on a total of 5 and two given
    entities: the total becomes 3. *)
Lemma boolean_decrement_counts_given_items_witness :
  let s' := (run defaults true
    (OpDeleteMany [partial1; stored2] (Next [RNullish]) (Some (DBool true)) None)
    threeOfFive).1 in
  atLeast 2 (Js.Fin 5)
  ∧ totalCountFetched s' = Some (Num (Js.Fin 3)).
Proof.
  intros s'.
  assert (atLeast 2 (Js.Fin 5)) as Hat.
  { split; [intros H; vm_compute in H; discriminate H|]. vm_compute. discriminate. }
  split; [exact Hat|].
  pose proof (boolean_decrement_counts_given_items equal equalArray sameValueZero
                defaults true (E:=unit) [partial1; stored2] [RNullish] threeOfFive) as H.
  cbv zeta in H. destruct H as [H _].
  destruct (H (Js.Fin 5) eq_refl Hat) as [Htotal Hexact].
  rewrite (Hexact 5%Z) in Htotal; [exact Htotal|reflexivity|vm_compute].
  discriminate.
Defined.

End ByIdFacts.

(** ** More on the duplicate/upsert engine *)

Section EngineFacts.

Context {T : Type}.
Variable equal : T → T → bool.

(** Replacing a match by an entity that matches leaves the count. *)
Lemma matchCount_insert_match item l k x :
  l !! k = Some x → equal item x = true → equal item item = true →
  matchCount equal item (<[k := item]> l) = matchCount equal item l.
Proof.
  intros Hk Hx Hrefl.
  rewrite insert_take_drop by (by eapply lookup_lt_Some).
  rewrite <- (take_drop_middle l k x Hk) at 3.
  by rewrite !matchCount_app, !matchCount_cons, Hx, Hrefl.
Qed.

(** What an accepted [upsertOne] gives, position by position. *)
Lemma upsertOne_accepted item l l' :
  upsertOne equal item l = (l', ReturnsItems) →
  (matchCount equal item l = 0 ∧ l' = l ++ [item])
  ∨ (∃ k x, matchCount equal item l = 1 ∧ l !! k = Some x ∧ equal item x = true
       ∧ l' = <[k := item]> l).
Proof.
  intros Hup. destruct (matchCount equal item l) as [|[|n]] eqn:Hc.
  - rewrite upsertOne_absent in Hup by done. left. by simplify_eq.
  - destruct (upsertOne_single equal item l Hc) as (k & x & Hk & Hx & Hup').
    rewrite Hup' in Hup. right. exists k, x. by simplify_eq.
  - rewrite upsertOne_ambiguous in Hup by lia. discriminate Hup.
Qed.

(** X1. Upserting the same entity a second time changes nothing: when
    [upsertOne item l] is accepted and gives [l'], and [item] is
    Comparator-equal to itself, [upsertOne item l'] is accepted and gives
    [l'] again (the second call replaces, it does not append). *)
Theorem upsertOne_idempotent (item : T) (l l' : list T) :
  equal item item = true →
  upsertOne equal item l = (l', ReturnsItems) →
  upsertOne equal item l' = (l', ReturnsItems).
Proof.
  intros Hrefl Hup.
  destruct (upsertOne_accepted item l l' Hup) as [[Hc ->]|(k & x & Hc & Hk & Hx & ->)].
  - assert (matchCount equal item (l ++ [item]) = 1) as Hc'.
    { rewrite matchCount_app, matchCount_cons, Hrefl, Hc. done. }
    destruct (upsertOne_single equal item _ Hc') as (j & y & Hj & Hy & ->).
    f_equal. apply list_insert_id.
    apply lookup_snoc_Some in Hj as [[_ Hj]|[-> <-]].
    + apply list_elem_of_lookup_2 in Hj.
      rewrite (proj1 (matchCount_zero equal item l) Hc y Hj) in Hy. discriminate Hy.
    + apply lookup_snoc_Some. by right.
  - assert (matchCount equal item (<[k := item]> l) = 1) as Hc'.
    { by rewrite (matchCount_insert_match item l k x). }
    destruct (upsertOne_single equal item _ Hc') as (j & y & Hj & Hy & ->).
    f_equal. apply list_insert_id.
    apply list_lookup_insert_Some in Hj as [(-> & <- & Hlt)|[Hne Hj]].
    + by apply list_lookup_insert_eq.
    + rewrite (matchCount_one_elsewhere equal item l k x j y) in Hy by done.
      discriminate Hy.
Qed.

(** An accepted [upsertOne], element by element. *)
Lemma upsertOne_frame (item : T) (l l' : list T) :
  upsertOne equal item l = (l', ReturnsItems) →
  item ∈ l'
  ∧ (∀ j y, l !! j = Some y → equal item y = false → l' !! j = Some y)
  ∧ length l ≤ length l' ≤ S (length l).
Proof.
  intros Hup.
  destruct (upsertOne_accepted item l l' Hup) as [[Hc ->]|(k & x & Hc & Hk & Hx & ->)].
  - split; [|split].
    + apply elem_of_app. right. apply list_elem_of_here.
    + intros j y Hj _. by apply lookup_app_l_Some.
    + rewrite length_app. simpl. lia.
  - split; [|split].
    + apply list_elem_of_lookup. exists k. apply list_lookup_insert_eq.
      by eapply lookup_lt_Some.
    + intros j y Hj Hy. rewrite list_lookup_insert_ne; [done|].
      intros ->. congruence.
    + rewrite length_insert. lia.
Qed.

(** X2. An accepted [upsertOne] touches nothing else: the entity is in the
    result, every element that is not Comparator-equal to it stays at its
    position, and the sequence grows by at most one element. *)
Theorem upsertOne_keeps_the_others (item : T) (l l' : list T) :
  upsertOne equal item l = (l', ReturnsItems) →
  item ∈ l'
  ∧ (∀ j y, l !! j = Some y → equal item y = false → l' !! j = Some y)
  ∧ length l ≤ length l' ≤ S (length l).
Proof. apply upsertOne_frame. Qed.

(** [find] on a list, by position. *)
Lemma find_Some_lookup (f : T → bool) (l : list T) y :
  find f l = Some y → ∃ j, l !! j = Some y ∧ f y = true.
Proof.
  intros Hfind. apply find_some in Hfind as [Hin Hy].
  apply list_elem_of_In, list_elem_of_lookup in Hin as [j Hj]. by exists j.
Qed.

(** X3. [hasDuplicates] is exact: it returns an element exactly when some
    element is Comparator-equal to an earlier one (and then returns such a
    later element), and [null] exactly when no element is. *)
Theorem hasDuplicates_exact (l : list T) :
  (∀ d, hasDuplicates equal l = Some d →
     ∃ i j x, i < j ∧ l !! i = Some x ∧ l !! j = Some d ∧ equal x d = true)
  ∧ (hasDuplicates equal l = None ↔
     ∀ i j x y, i < j → l !! i = Some x → l !! j = Some y → equal x y = false).
Proof.
  induction l as [|a l [IHsome IHnone]].
  - split; [done|]. split; [|done]. intros _ i j x y _ Hi. by rewrite lookup_nil in Hi.
  - simpl. destruct (find (λ y, equal a y) l) as [y|] eqn:Hfind.
    + split.
      * intros d [= <-]. destruct (find_Some_lookup _ _ _ Hfind) as (j & Hj & Hy).
        exists 0, (S j), a. repeat split; [lia|done..].
      * split; [done|]. intros Hno.
        destruct (find_Some_lookup _ _ _ Hfind) as (j & Hj & Hy).
        rewrite (Hno 0 (S j) a y) in Hy; [done|lia|done..].
    + split.
      * intros d Hd. destruct (IHsome d Hd) as (i & j & x & Hlt & Hi & Hj & Hx).
        exists (S i), (S j), x. repeat split; [lia|done..].
      * rewrite IHnone. split.
        -- intros Hno i j x y Hlt Hi Hj. destruct i as [|i], j as [|j]; try lia.
           ++ simpl in Hi, Hj. simplify_eq. apply (find_none _ _ Hfind).
              apply list_elem_of_In. by eapply list_elem_of_lookup_2.
           ++ apply (Hno i j); [lia|done..].
        -- intros Hno i j x y Hlt Hi Hj. apply (Hno (S i) (S j)); [lia|done..].
Qed.

(** [find] finds nothing where the test fails everywhere, and looks past
    such a prefix. *)
Lemma find_none_elem (f : T → bool) (l : list T) :
  (∀ m, m ∈ l → f m = false) → find f l = None.
Proof.
  induction l as [|x l IH]; intros H; [done|]. simpl.
  rewrite (H x) by apply list_elem_of_here.
  apply IH. intros m Hm. by apply H, list_elem_of_further.
Qed.

Lemma find_app_none (f : T → bool) (l1 l2 : list T) :
  (∀ m, m ∈ l1 → f m = false) → find f (l1 ++ l2) = find f l2.
Proof.
  induction l1 as [|x l1 IH]; intros H; [done|]. simpl.
  rewrite (H x) by apply list_elem_of_here.
  apply IH. intros m Hm. by apply H, list_elem_of_further.
Qed.

End EngineFacts.

(** ** The duplicates report *)

Section DuplicatesReport.

Context {T : Type}.
Variable equal : T → T → bool.

Lemma existsb_find (f : T → bool) (l : list T) :
  existsb f l = match find f l with Some _ => true | None => false end.
Proof. induction l as [|x l IH]; [done|]. simpl. by destruct (f x). Qed.

Lemma laterDuplicates_flag i rest ij :
  (laterDuplicates equal i rest ij).2 = existsb (equal i) rest.
Proof.
  revert ij. induction rest as [|j rest IH]; intros ij; [done|]. simpl.
  specialize (IH (S ij)). destruct (laterDuplicates equal i rest (S ij)) as [iDupes flag].
  simpl in IH. destruct (equal i j); simpl; [done|]. by rewrite <- IH.
Qed.

Lemma laterDuplicates_lookup i rest b k y :
  (laterDuplicates equal i rest b).1 !! k = Some y ↔
  ∃ n, k = b + n ∧ rest !! n = Some y ∧ equal i y = true.
Proof.
  revert b. induction rest as [|j rest IH]; intros b; simpl.
  - rewrite (lookup_empty (M:=gmap nat) (A:=T) k). split; [done|].
    by intros (n & _ & Hn & _).
  - specialize (IH (S b)).
    destruct (laterDuplicates equal i rest (S b)) as [iDupes flag]. simpl in IH.
    destruct (equal i j) eqn:Hj; simpl.
    + rewrite (lookup_insert_Some (M:=gmap nat)), IH. split.
      * intros [[<- <-]|[Hne (n & -> & Hn & Hy)]].
        -- exists 0. split; [lia|]. by split.
        -- exists (S n). split; [lia|]. by split.
      * intros ([|n] & -> & Hn & Hy); simpl in Hn.
        -- left. split; [lia|congruence].
        -- right. split; [lia|]. exists n. split; [lia|]. by split.
    + rewrite IH. split.
      * intros (n & -> & Hn & Hy). exists (S n). split; [lia|]. by split.
      * intros ([|n] & -> & Hn & Hy); simpl in Hn; [congruence|].
        exists n. split; [lia|]. by split.
Qed.

Lemma getDuplicatesFrom_flag l ii :
  (getDuplicatesFrom equal l ii).2
  = match hasDuplicates equal l with Some _ => true | None => false end.
Proof.
  revert ii. induction l as [|x l IH]; intros ii; [done|]. simpl.
  pose proof (laterDuplicates_flag x l (S ii)) as Hflag. specialize (IH (S ii)).
  destruct (laterDuplicates equal x l (S ii)) as [iDupes flag].
  destruct (getDuplicatesFrom equal l (S ii)) as [duplicates hasDupes].
  simpl in *. rewrite existsb_find in Hflag.
  destruct (find (λ y, equal x y) l); subst flag; [done|]. by simpl.
Qed.

Lemma getDuplicatesFrom_lookup l b k m :
  (getDuplicatesFrom equal l b).1 !! k = Some m ↔
  ∃ n x, k = b + n ∧ l !! n = Some x
    ∧ existsb (equal x) (drop (S n) l) = true
    ∧ m = <[k := x]> (laterDuplicates equal x (drop (S n) l) (S k)).1.
Proof.
  revert b. induction l as [|x0 l IH]; intros b; simpl.
  - unfold DuplicatesMap. rewrite (lookup_empty (M:=gmap nat) (A:=gmap nat T) k).
    split; [done|]. by intros (n & x & _ & Hn & _).
  - pose proof (laterDuplicates_flag x0 l (S b)) as Hflag. specialize (IH (S b)).
    destruct (laterDuplicates equal x0 l (S b)) as [iDupes flag] eqn:Hlater.
    destruct (getDuplicatesFrom equal l (S b)) as [duplicates hasDupes].
    simpl in *. unfold DuplicatesMap in *. destruct flag; simpl.
    + rewrite (lookup_insert_Some (M:=gmap nat)), IH. split.
      * intros [[<- <-]|[Hne (n & x & -> & Hn & Hex & ->)]].
        -- exists 0, x0. replace (b + 0) with b by lia. simpl.
           rewrite drop_0, Hlater. by repeat split.
        -- exists (S n), x. replace (b + S n) with (S b + n) by lia. by repeat split.
      * intros ([|n] & x & -> & Hn & Hex & ->); simpl in *.
        -- left. replace (b + 0) with b by lia. rewrite drop_0. simplify_eq.
           by rewrite Hlater.
        -- right. split; [lia|]. exists n, x.
           replace (b + S n) with (S (b + n)) by lia. by repeat split.
    + rewrite IH. split.
      * intros (n & x & -> & Hn & Hex & ->). exists (S n), x.
        replace (b + S n) with (S b + n) by lia. by repeat split.
      * intros ([|n] & x & -> & Hn & Hex & ->); simpl in *.
        -- rewrite drop_0 in Hex. simplify_eq. congruence.
        -- exists n, x. replace (b + S n) with (S (b + n)) by lia. by repeat split.
Qed.

(** X4. The report agrees with the check: [getDuplicates] returns [null]
    exactly when [hasDuplicates] does. *)
Theorem getDuplicates_None_iff_hasDuplicates_None (l : list T) :
  getDuplicates equal l = None ↔ hasDuplicates equal l = None.
Proof.
  unfold getDuplicates. pose proof (getDuplicatesFrom_flag l 0) as Hflag.
  destruct (getDuplicatesFrom equal l 0) as [duplicates hasDupes]. simpl in Hflag.
  destruct (hasDuplicates equal l); subst hasDupes; by split.
Qed.

(** X5. What the report holds: under the index [ii] of an element that has
    a later Comparator-equal element, it records that element at [ii] and
    every later Comparator-equal element at its own index, and nothing
    else. *)
Theorem getDuplicates_entries (l : list T) (d : DuplicatesMap T) :
  getDuplicates equal l = Some d →
  ∀ ii ij y,
    (∃ m, d !! ii = Some m ∧ m !! ij = Some y) ↔
    (∃ x, l !! ii = Some x ∧ existsb (equal x) (drop (S ii) l) = true
       ∧ l !! ij = Some y ∧ (ij = ii ∨ (ii < ij ∧ equal x y = true))).
Proof.
  unfold getDuplicates. pose proof (getDuplicatesFrom_lookup l 0) as Hlookup.
  destruct (getDuplicatesFrom equal l 0) as [duplicates [|]]; [|done]. simpl in Hlookup.
  intros [= <-] ii ij y. split.
  - intros (m & Hm & Hy). apply Hlookup in Hm as (n & x & -> & Hn & Hex & ->).
    simpl in *. exists x. split; [done|]. split; [done|].
    apply (lookup_insert_Some (M:=gmap nat)) in Hy as [[<- <-]|[Hne Hy]]; [by split; [|left]|].
    apply laterDuplicates_lookup in Hy as (k & -> & Hk & Hy).
    rewrite lookup_drop in Hk. split; [done|]. right. split; [lia|done].
  - intros (x & Hx & Hex & Hy & Hcase).
    exists (<[ii := x]> (laterDuplicates equal x (drop (S ii) l) (S ii)).1). split.
    + apply Hlookup. exists ii, x. by repeat split.
    + apply (lookup_insert_Some (M:=gmap nat)). destruct Hcase as [->|[Hlt Hxy]].
      * left. split; [done|congruence].
      * right. split; [lia|]. apply laterDuplicates_lookup.
        exists (ij - S ii). split; [lia|]. split; [|done].
        rewrite lookup_drop. by replace (S ii + (ij - S ii)) with ij by lia.
Qed.

End DuplicatesReport.

(** ** An accepted batch *)

Section UpsertManyFacts.

Context {T : Type}.
Variable equal : T → T → bool.

(** The loop of [upsertMany] leaves alone what no entity of the batch is
    Comparator-equal to, and grows the sequence by at most the batch. *)
Lemma upsertManyLoop_frame batch l l' :
  upsertManyLoop equal batch l = (l', ReturnsToItems) →
  (∀ j z, l !! j = Some z → (∀ x, x ∈ batch → equal x z = false) → l' !! j = Some z)
  ∧ length l ≤ length l' ≤ length l + length batch.
Proof.
  revert l. induction batch as [|x batch IH]; intros l Hup; simpl in Hup.
  - simplify_eq. split; [done|]. simpl. lia.
  - destruct (upsertOne equal x l) as [l1 [|]] eqn:Hone; [|discriminate Hup].
    destruct (upsertOne_frame equal x l l1 Hone) as (_ & Hkeep & Hlen).
    destruct (IH l1 Hup) as [Hframe Hlen']. split.
    + intros j z Hj Hz. apply Hframe.
      * apply Hkeep; [done|]. apply Hz, list_elem_of_here.
      * intros y Hy. by apply Hz, list_elem_of_further.
    + simpl. lia.
Qed.

Lemma upsertManyLoop_holds_batch batch l l' :
  (∀ a b, equal a b = equal b a) →
  hasDuplicates equal batch = None →
  upsertManyLoop equal batch l = (l', ReturnsToItems) →
  ∀ x, x ∈ batch → x ∈ l'.
Proof.
  intros equal_sym. revert l. induction batch as [|x0 batch IH]; intros l Hdup Hup x Hx.
  - by apply elem_of_nil in Hx.
  - simpl in Hdup, Hup.
    destruct (find (λ y, equal x0 y) batch) eqn:Hfind; [discriminate Hdup|].
    destruct (upsertOne equal x0 l) as [l1 [|]] eqn:Hone; [|discriminate Hup].
    apply elem_of_cons in Hx as [->|Hx]; [|by apply (IH l1)].
    destruct (upsertOne_frame equal x0 l l1 Hone) as (Hin & _ & _).
    apply list_elem_of_lookup in Hin as [p Hp].
    destruct (upsertManyLoop_frame batch l1 l' Hup) as [Hframe _].
    apply list_elem_of_lookup. exists p. apply Hframe; [done|].
    intros y Hy. rewrite equal_sym. apply (find_none _ _ Hfind). by apply list_elem_of_In.
Qed.

(** X6. When [upsertMany] accepts a batch, for a symmetric comparator:
    every entity of the batch is in the result; every element that no
    entity of the batch is Comparator-equal to stays at its position; and
    the sequence grows by at most the size of the batch. *)
Theorem upsertMany_accepted (batch l l' : list T) :
  (∀ a b, equal a b = equal b a) →
  upsertMany equal batch l = (l', ReturnsToItems) →
  (∀ x, x ∈ batch → x ∈ l')
  ∧ (∀ j z, l !! j = Some z → (∀ x, x ∈ batch → equal x z = false) → l' !! j = Some z)
  ∧ length l ≤ length l' ≤ length l + length batch.
Proof.
  intros equal_sym Hup. unfold upsertMany in Hup.
  destruct (hasDuplicates equal batch) eqn:Hdup; [discriminate Hup|].
  destruct (upsertManyLoop_frame batch l l' Hup) as [Hframe Hlen].
  split; [|by split]. by apply (upsertManyLoop_holds_batch batch l l').
Qed.

End UpsertManyFacts.

(** ** What every operation does and never does *)

Section OperationFacts.

Context {T E P US St : Type}.
Variable equal : T → T → bool.
Variable equalArray : T → list T → bool.
Variable sameValueZero : T → T → bool.
Variable svc : Service T P.
Variable tapResponseRoutesThrown : bool.

#[local] Abbreviation State := (CollectionState T US St).
#[local] Abbreviation Ev := (Event T E P).
#[local] Abbreviation run :=
  (perform equal equalArray sameValueZero svc tapResponseRoutesThrown
     (T:=T) (E:=E) (P:=P) (US:=US) (St:=St)).

Ltac unfold_operation :=
  unfold perform, subscribed, call,
    createSubscribed, createManySubscribed, readSubscribed, readOneSubscribed,
    readManySubscribed, refreshSubscribed, refreshManySubscribed, updateSubscribed,
    updateManySubscribed, deleteSubscribed, deleteManySubscribed,
    createCall, createManyCall, readCall, readOneCall, readManyCall, refreshCall,
    refreshManyCall, updateCall, updateManyCall, deleteCall, deleteManyCall,
    subscribe, readError, resetUnlessKept in *.

Ltac unfold_handlers :=
  repeat progress
    (unfold create, createMany, read, readWith, readOne, readMany, refresh, refreshMany,
       update, updateMany, delete, deleteMany,
       createNext, createManyNext, readNext, upsertOneNext, refreshManyNext,
       readManyNext, updateNext, updateManyNext, deleteNext, deleteManyNext in *;
     unfold_operation).

(** X7. A failed request commits nothing: when the request of an operation
    errors, or completes without a value, the operation invokes the error
    callback with that error and nothing else, and [items],
    [totalCountFetched] and the status maps are as before; [read] without
    [keepExistingOnError] is the one exception. *)
Theorem failed_request_commits_nothing (op : @Operation T E) (err : ErrValue E P)
    (s : State) :
  failureOf (requestOf op) = Some err → resetsOnError op = false →
  sameCollection s (run op s).1 ∧ (run op s).2 = [CallOnError err].
Proof.
  intros Hfail Hreset.
  destruct op as [request|request|keep request|request|request|item request|l request
                 |item request refreshRequest|l request refreshRequest
                 |item request decr readRequest|l request decr readRequest];
    destruct request; simpl in Hfail; simplify_eq;
    try (destruct keep; [|discriminate Hreset]);
    unfold_operation; eff_unfold; simpl; by repeat split.
Qed.

(** X8. An unsubscribed request does nothing but release: when the
    returned observable is unsubscribed before the request emitted or
    failed, no callback is invoked, nothing is reported or broadcast, and
    [items], [totalCountFetched] and the status maps are as before. *)
Theorem unsubscribed_request_only_releases (op : @Operation T E) (s : State) :
  requestOf op = Unsubscribed →
  sameCollection s (run op s).1 ∧ (run op s).2 = [].
Proof.
  intros Hunsub.
  destruct op as [request|request|keep request|request|request|item request|l request
                 |item request refreshRequest|l request refreshRequest
                 |item request decr readRequest|l request decr readRequest];
    destruct request; simpl in Hunsub; simplify_eq;
    unfold_operation; eff_unfold; simpl; by repeat split.
Qed.

(** *** Callbacks *)

Ltac handler_cases :=
  unfold duplicateNotAdded, callReporter, resetUnlessKept, patchTotalCountOnly in *;
  eff_unfold; simpl; repeat case_match; simpl in *; simplify_eq; try done.

Ltac once_cases :=
  handler_cases; unfold callbacks in *; simpl in *; try lia.

Lemma callbacks_app (l1 l2 : list Ev) : callbacks (l1 ++ l2) = callbacks l1 ++ callbacks l2.
Proof. apply List.filter_app. Qed.

Lemma subscribe_callsBackOnce {A} routes (next : A → Eff unit) error done request
    (s : State) :
  (∀ a s, callsBackOnce (next a s)) →
  (∀ e s, length (callbacks (error e s).1.2) ≤ 1) →
  length (callbacks (subscribe (E:=E) (P:=P) routes next error done request s).2) ≤ 1.
Proof.
  intros Hnext Herror. unfold subscribe. destruct request as [a|e| |].
  - specialize (Hnext a s). destruct (next a s) as [[s1 l1] [x|[]]]; simpl in *.
    + destruct routes; simpl; [|lia]. specialize (Herror (ErrThrown x) s1).
      destruct (error (ErrThrown x) s1) as [[s' l'] r']. simpl in *.
      rewrite callbacks_app, length_app. lia.
    + done.
  - specialize (Herror (ErrRequest e) s).
    by destruct (error (ErrRequest e) s) as [[s1 l1] [x|[]]].
  - specialize (Herror ErrEmpty s).
    by destruct (error ErrEmpty s) as [[s1 l1] [x|[]]].
  - simpl. lia.
Qed.

Lemma callOnError_once (err : ErrValue E P) (s : State) :
  length (callbacks (callOnError err s).1.2) ≤ 1.
Proof. done. Qed.

Lemma readError_once keep (err : ErrValue E P) (s : State) :
  length (callbacks (readError keep err s).1.2) ≤ 1.
Proof. unfold readError. once_cases. Qed.

Lemma createNext_once item (s : State) :
  callsBackOnce (createNext equal sameValueZero svc (E:=E) item s).
Proof. unfold createNext, callsBackOnce. once_cases. Qed.

Lemma createManyNext_once fetched (s : State) :
  callsBackOnce (createManyNext equal svc (E:=E) fetched s).
Proof. unfold createManyNext, callsBackOnce. once_cases. Qed.

Lemma readNext_once keep param fetched (s : State) :
  callsBackOnce (readNext equal svc (E:=E) keep param fetched s).
Proof. unfold readNext, callsBackOnce. once_cases. Qed.

Lemma upsertOneNext_once ch newItem (s : State) :
  callsBackOnce (upsertOneNext equal svc (E:=E) ch newItem s).
Proof. unfold upsertOneNext, callsBackOnce. once_cases. Qed.

Lemma refreshManyNext_once fetched (s : State) :
  callsBackOnce (refreshManyNext equal svc (E:=E) fetched s).
Proof. unfold refreshManyNext, callsBackOnce. once_cases. Qed.

Lemma readManyNext_once fetched (s : State) :
  callsBackOnce (readManyNext equal svc (E:=E) fetched s).
Proof. unfold readManyNext, callsBackOnce. once_cases. Qed.

Lemma lift_once (f : State → State * list Ev) (s : State) :
  length (callbacks (f s).2) ≤ 1 → callsBackOnce (lift f s).
Proof. unfold lift, callsBackOnce. by destruct (f s). Qed.

Lemma updateNext_once item (refreshRequest : option (Outcome E (option T))) newItem
    (s : State) :
  callsBackOnce (updateNext equal equalArray sameValueZero svc tapResponseRoutesThrown
                   item refreshRequest newItem s).
Proof.
  unfold updateNext. destruct refreshRequest as [request|].
  - apply lift_once. apply subscribe_callsBackOnce.
    + intros a s0. apply upsertOneNext_once.
    + intros e s0. apply callOnError_once.
  - apply upsertOneNext_once.
Qed.

Lemma updateManyNext_once l (refreshRequest : option (Outcome E (option (Fetched T))))
    updatedItems (s : State) :
  callsBackOnce (updateManyNext equal equalArray sameValueZero svc tapResponseRoutesThrown
                   l refreshRequest updatedItems s).
Proof.
  unfold updateManyNext. destruct refreshRequest as [request|].
  - apply lift_once. apply subscribe_callsBackOnce.
    + intros a s0. apply refreshManyNext_once.
    + intros e s0. apply callOnError_once.
  - unfold callsBackOnce. once_cases.
Qed.

Lemma deleteNext_once item decr (readRequest : option (Outcome E (option (Fetched T))))
    response (s : State) :
  callsBackOnce (deleteNext equal svc tapResponseRoutesThrown item decr readRequest
                   response s).
Proof.
  unfold deleteNext. destruct readRequest as [request|].
  - apply lift_once. apply subscribe_callsBackOnce.
    + intros a s0. apply readNext_once.
    + intros e s0. apply readError_once.
  - unfold callsBackOnce. once_cases.
Qed.

Lemma deleteManyNext_once l decr (readRequest : option (Outcome E (option (Fetched T))))
    response (s : State) :
  callsBackOnce (deleteManyNext equal svc tapResponseRoutesThrown l decr readRequest
                   response s).
Proof.
  unfold deleteManyNext. destruct readRequest as [request|].
  - apply lift_once. apply subscribe_callsBackOnce.
    + intros a s0. apply readNext_once.
    + intros e s0. apply readError_once.
  - unfold callsBackOnce. once_cases.
Qed.

(** X9. Every operation, whatever its request does and however the
    service is configured, invokes at most one callback, [onSuccess] or
    [onError], and at most once; this includes the [refresh] or [read] that
    an update or a deletion hands over to. *)
Theorem at_most_one_callback (op : @Operation T E) (s : State) :
  length (callbacks (run op s).2) ≤ 1.
Proof.
  destruct op as [request|request|keep request|request|request|item request|l request
                 |item request refreshRequest|l request refreshRequest
                 |item request decr readRequest|l request decr readRequest];
    unfold perform; simpl; apply subscribe_callsBackOnce; intros.
  all: first
    [ apply createNext_once | apply createManyNext_once | apply readNext_once
    | apply upsertOneNext_once | apply refreshManyNext_once | apply readManyNext_once
    | apply updateNext_once | apply updateManyNext_once | apply deleteNext_once
    | apply deleteManyNext_once | apply callOnError_once | apply readError_once ].
Qed.

(** *** Rejections *)

#[local] Abbreviation dupError :=
  (CallOnError (ErrDuplicateParam (onDuplicateErrCallbackParam svc)) : Ev).

Lemma sameCollection_trans (s1 s2 s3 : State) :
  sameCollection s1 s2 → sameCollection s2 s3 → sameCollection s1 s3.
Proof.
  intros (H1 & H2 & H3 & H4) (H1' & H2' & H3' & H4').
  repeat split; congruence.
Qed.

Ltac not_in_log H :=
  exfalso; simpl in H;
  repeat (apply elem_of_cons in H as [H|H]; [discriminate H|]);
  by apply elem_of_nil in H.

Ltac rejection_cases :=
  handler_cases;
  match goal with
  | H : _ ∈ _ |- _ => first [by repeat split | not_in_log H]
  end.

Lemma subscribe_rejection {A} routes (next : A → Eff unit) done request (s : State) :
  (∀ a s, dupError ∈ (next a s).1.2 → sameCollection s (next a s).1.1) →
  (∀ s, sameCollection s (done s)) →
  dupError ∈ (subscribe routes next callOnError done request s).2 →
  sameCollection s (subscribe routes next callOnError done request s).1.
Proof.
  intros Hnext Hdone. unfold subscribe. destruct request as [a|e| |]; simpl.
  - specialize (Hnext a s). destruct (next a s) as [[s1 l1] [x|[]]]; simpl in *.
    + destruct routes; simpl; intros Hin.
      * apply sameCollection_trans with s1; [|apply Hdone]. apply Hnext.
        apply elem_of_app in Hin as [Hin|Hin]; [done|]. not_in_log Hin.
      * apply sameCollection_trans with s1; [by apply Hnext|apply Hdone].
    + intros Hin. apply sameCollection_trans with s1; [by apply Hnext|apply Hdone].
  - intros _. apply Hdone.
  - intros _. apply Hdone.
  - intros _. apply Hdone.
Qed.

Lemma createNext_rejection item (s : State) :
  dupError ∈ (createNext equal sameValueZero svc (E:=E) item s).1.2 →
  sameCollection s (createNext equal sameValueZero svc (E:=E) item s).1.1.
Proof. unfold createNext. intros Hin. rejection_cases. Qed.

Lemma createManyNext_rejection fetched (s : State) :
  dupError ∈ (createManyNext equal svc (E:=E) fetched s).1.2 →
  sameCollection s (createManyNext equal svc (E:=E) fetched s).1.1.
Proof. unfold createManyNext. intros Hin. rejection_cases. Qed.

Lemma upsertOneNext_rejection ch newItem (s : State) :
  dupError ∈ (upsertOneNext equal svc (E:=E) ch newItem s).1.2 →
  sameCollection s (upsertOneNext equal svc (E:=E) ch newItem s).1.1.
Proof. unfold upsertOneNext. intros Hin. rejection_cases. Qed.

Lemma refreshManyNext_rejection fetched (s : State) :
  dupError ∈ (refreshManyNext equal svc (E:=E) fetched s).1.2 →
  sameCollection s (refreshManyNext equal svc (E:=E) fetched s).1.1.
Proof. unfold refreshManyNext. intros Hin. rejection_cases. Qed.

Lemma readManyNext_rejection fetched (s : State) :
  dupError ∈ (readManyNext equal svc (E:=E) fetched s).1.2 →
  sameCollection s (readManyNext equal svc (E:=E) fetched s).1.1.
Proof. unfold readManyNext. intros Hin. rejection_cases. Qed.

Lemma lift_rejection (f : State → State * list Ev) (s : State) :
  (dupError ∈ (f s).2 → sameCollection s (f s).1) →
  dupError ∈ (lift f s).1.2 → sameCollection s (lift f s).1.1.
Proof. unfold lift. by destruct (f s). Qed.

Lemma updateNext_rejection item (refreshRequest : option (Outcome E (option T))) newItem
    (s : State) :
  dupError ∈ (updateNext equal equalArray sameValueZero svc tapResponseRoutesThrown
                item refreshRequest newItem s).1.2 →
  sameCollection s
    (updateNext equal equalArray sameValueZero svc tapResponseRoutesThrown
       item refreshRequest newItem s).1.1.
Proof.
  unfold updateNext. destruct refreshRequest as [request|].
  - apply lift_rejection. unfold refresh, refreshSubscribed. intros Hin.
    apply sameCollection_trans
      with (refreshCall equal equalArray sameValueZero item s); [done|].
    apply subscribe_rejection; [|done..].
    intros a s0. apply upsertOneNext_rejection.
  - apply upsertOneNext_rejection.
Qed.

Lemma updateManyNext_rejection l
    (refreshRequest : option (Outcome E (option (Fetched T)))) updatedItems (s : State) :
  dupError ∈ (updateManyNext equal equalArray sameValueZero svc tapResponseRoutesThrown
                l refreshRequest updatedItems s).1.2 →
  sameCollection s
    (updateManyNext equal equalArray sameValueZero svc tapResponseRoutesThrown
       l refreshRequest updatedItems s).1.1.
Proof.
  unfold updateManyNext. destruct refreshRequest as [request|].
  - apply lift_rejection. unfold refreshMany, refreshManySubscribed. intros Hin.
    apply sameCollection_trans
      with (refreshManyCall equal equalArray sameValueZero l s); [done|].
    apply subscribe_rejection; [|done..].
    intros a s0. apply refreshManyNext_rejection.
  - intros Hin. rejection_cases.
Qed.

(** X10. A rejection commits nothing: whenever an operation that runs no
    [read] invokes the error callback with [onDuplicateErrCallbackParam],
    [items], [totalCountFetched] and the status maps are what they were
    when its subscription started. *)
Theorem duplicate_rejection_commits_nothing (op : @Operation T E) (s : State) :
  runsRead op = false →
  dupError
    ∈ (subscribed equal equalArray sameValueZero svc tapResponseRoutesThrown op s).2 →
  sameCollection s
    (subscribed equal equalArray sameValueZero svc tapResponseRoutesThrown op s).1.
Proof.
  intros Hread.
  destruct op as [request|request|keep request|request|request|item request|l request
                 |item request refreshRequest|l request refreshRequest
                 |item request decr [readRequest|]|l request decr [readRequest|]];
    try discriminate Hread; simpl; apply subscribe_rejection; try done; intros a s0.
  - apply createNext_rejection.
  - apply createManyNext_rejection.
  - apply upsertOneNext_rejection.
  - apply readManyNext_rejection.
  - apply upsertOneNext_rejection.
  - apply refreshManyNext_rejection.
  - apply updateNext_rejection.
  - apply updateManyNext_rejection.
  - unfold deleteNext. intros Hin. rejection_cases.
  - unfold deleteManyNext. intros Hin. rejection_cases.
Qed.

(** *** Outcomes of single operations *)

(** X11. [create] appends or rejects, under every configuration: an
    entity that [hasItemIn] does not find in [items] is appended at the
    end, [onSuccess] gets it and it is broadcast when someone listens; an
    entity that [hasItemIn] finds leaves the collection as it is, and
    neither [onSuccess] nor the broadcast happens. *)
Theorem create_appends_or_rejects (item : T) (s : State) :
  let r := create equal sameValueZero svc tapResponseRoutesThrown (E:=E)
             (Next (Some item)) s in
  (hasItemIn equal sameValueZero item (items s) = false →
     items r.1 = items s ++ [item]
     ∧ totalCountFetched r.1 = totalCountFetched s
     ∧ r.2 = CallOnSuccess (ArgItem item)
             :: (if observed svc OnCreate then [Broadcast OnCreate [item]] else []))
  ∧ (hasItemIn equal sameValueZero item (items s) = true →
     sameCollection s r.1
     ∧ (∀ arg, CallOnSuccess arg ∉ r.2) ∧ (∀ l, Broadcast OnCreate l ∉ r.2)).
Proof.
  unfold_handlers. simpl. split; intros Hhas.
  - eff_unfold. simpl. rewrite Hhas. simpl. by destruct (observed svc OnCreate).
  - unfold duplicateNotAdded. eff_unfold. simpl. rewrite Hhas. simpl.
    handler_cases; (split; [by repeat split|]); split; intros ? Hin; not_in_log Hin.
Qed.

(** X12. [read] replaces wholesale: when the fetched result holds no
    duplicates, [items] becomes exactly the fetched sequence whatever it
    was before; [totalCountFetched] becomes the [totalCount] of a
    structured result and becomes unset for a bare array; [onSuccess] gets
    the fetched sequence. *)
Theorem read_replaces_wholesale (keep : bool) (fetched : Fetched T) (s : State) :
  hasDuplicates equal (itemsOf fetched) = None →
  let r := read equal svc tapResponseRoutesThrown (E:=E) keep (Next (Some fetched)) s in
  items r.1 = itemsOf fetched
  ∧ totalCountFetched r.1 = totalCountOf fetched None
  ∧ r.2 = CallOnSuccess (ArgItems (itemsOf fetched))
          :: (if observed svc OnRead then [Broadcast OnRead (itemsOf fetched)] else []).
Proof.
  intros Hdup. unfold_handlers. simpl. rewrite Hdup.
  eff_unfold. simpl.
  by destruct (0 <? length (itemsOf fetched)), (observed svc OnRead).
Qed.

(** X13. [read] refuses fetched duplicates when they are not allowed
    ([throwOnDuplicates] is not set, and the error reporter, if there is
    one, returns): the only callback is [onError] with
    [onDuplicateErrCallbackParam], and the collection is emptied and the
    total unset, unless [keepExistingOnError], which leaves both. *)
Theorem read_refuses_fetched_duplicates (keep : bool) (fetched : Fetched T) (d : T)
    (s : State) :
  allowFetchedDuplicates svc = false →
  Js.truthyString (throwOnDuplicates svc) = None →
  reporterReturns svc →
  hasDuplicates equal (itemsOf fetched) = Some d →
  let r := read equal svc tapResponseRoutesThrown (E:=E) keep (Next (Some fetched)) s in
  items r.1 = (if keep then items s else [])
  ∧ totalCountFetched r.1 = (if keep then totalCountFetched s else None)
  ∧ callbacks r.2 = [dupError].
Proof.
  intros Hallow Hthrow Hreturns Hdup. unfold_handlers.
  unfold duplicateNotAdded, callReporter. simpl. rewrite Hdup, Hallow, Hthrow.
  assert ((0 <? length (itemsOf fetched)) = true) as ->.
  { by destruct (itemsOf fetched). }
  eff_unfold. simpl.
  destruct (errReporter svc) as [reporter|] eqn:Hreporter.
  - pose proof (λ r, Hreturns reporter r Hreporter) as Hquiet.
    destruct keep, (getDuplicates equal (itemsOf fetched)); simpl;
      rewrite ?Hquiet; simpl; rewrite ?Hquiet; by simpl.
  - by destruct keep.
Qed.

(** X14. With a [refreshRequest], [update] hands over to [refresh]: the
    value its own request emitted plays no part, and the collection, the
    refreshing set and the callbacks are those of a [refresh] of the same
    entity with that request. *)
Theorem update_defers_to_refresh (item : T) (emitted : option T)
    (refreshRequest : Outcome E (option T)) (s : State) :
  let u := update equal equalArray sameValueZero svc tapResponseRoutesThrown
             item (Next emitted) (Some refreshRequest) s in
  let r := refresh equal equalArray sameValueZero svc tapResponseRoutesThrown
             item refreshRequest s in
  sameCollection r.1 u.1 ∧ refreshingItems u.1 = refreshingItems r.1 ∧ u.2 = r.2.
Proof.
  unfold_handlers.
  unfold addToUpdatingItems, addToRefreshingItems, removeFromUpdatingItems,
    removeFromRefreshingItems.
  destruct refreshRequest as [[newItem|]|e| |]; handler_cases; by repeat split.
Qed.

(** X15. With a [readRequest], the deletions hand over to [read]: the
    collection after [delete] or [deleteMany] is the one a [read] (without
    [keepExistingOnError]) of that request gives, whatever the response of
    the delete request and whatever [decrementTotalCount]. *)
Theorem deletion_defers_to_read (item : T) (l : list T) (response : Response)
    (responses : list Response) (decr : option Decrement)
    (readRequest : Outcome E (option (Fetched T))) (s : State) :
  let one := delete equal equalArray sameValueZero svc tapResponseRoutesThrown
               item (Next response) decr (Some readRequest) s in
  let many := deleteMany equal equalArray sameValueZero svc tapResponseRoutesThrown
                l (Next responses) decr (Some readRequest) s in
  let r := read equal svc tapResponseRoutesThrown false readRequest s in
  sameCollection r.1 one.1 ∧ sameCollection r.1 many.1.
Proof.
  unfold_handlers.
  unfold addToDeletingItems, removeFromDeletingItems.
  destruct readRequest as [[fetched|]|e| |]; handler_cases; by repeat split.
Qed.

(** X16. [create] then [delete] is a round trip on [items]: after an
    entity that was not in the collection is created and then deleted,
    [items] is what it was, for an entity Comparator-equal to itself. *)
Theorem create_then_delete_restores_items (item : T) (response : Response)
    (decr : option Decrement) (s : State) :
  hasItemIn equal sameValueZero item (items s) = false →
  equal item item = true →
  let created := (create equal sameValueZero svc tapResponseRoutesThrown (E:=E)
                    (Next (Some item)) s).1 in
  items (delete equal equalArray sameValueZero svc tapResponseRoutesThrown (E:=E)
           item (Next response) decr None created).1
  = items s.
Proof.
  intros Hhas Hrefl created.
  destruct (delete_succeeded equal equalArray sameValueZero svc tapResponseRoutesThrown
              (E:=E) item response decr created) as [-> _].
  assert (items created = items s ++ [item]) as ->.
  { unfold created. unfold_handlers. eff_unfold. simpl.
    rewrite Hhas. simpl. by destruct (observed svc OnCreate). }
  apply orb_false_iff in Hhas as [_ Hhas].
  rewrite List.filter_app. simpl. rewrite Hrefl. simpl. rewrite app_nil_r.
  apply filter_all. intros m Hm. apply negb_true_iff.
  by apply (proj1 (existsb_false_elem _ _) Hhas).
Qed.

(** X17. A boolean [decrementTotalCount] on [delete] takes one off the
    total when the total is a number that is at least 1, and leaves it
    otherwise, and it does so for [false] as for [true]: only the type of
    the value is looked at.  Taking one off is the subtraction of two
    numbers: the exact difference for a whole total up to [2^53]. *)
Theorem delete_boolean_takes_one (item : T) (response : Response) (b : bool)
    (s : State) :
  let s' := (delete equal equalArray sameValueZero svc tapResponseRoutesThrown (E:=E)
               item (Next response) (Some (DBool b)) None s).1 in
  (∀ prev, totalCountFetched s = Some (Num prev) → atLeast 1 prev →
     totalCountFetched s' = Some (Num (Js.sub prev (Js.Fin 1)))
     ∧ (∀ a : Z, whole prev a → (a ≤ 2 ^ 53)%Z →
          Js.sub prev (Js.Fin 1) = Js.Fin (inject_Z (a - 1))))
  ∧ ((∀ prev, totalCountFetched s = Some (Num prev) → ¬ atLeast 1 prev) →
     totalCountFetched s' = totalCountFetched s).
Proof.
  intros s'.
  destruct (delete_succeeded equal equalArray sameValueZero svc tapResponseRoutesThrown
              (E:=E) item response (Some (DBool b)) s) as [_ Htotal].
  fold s' in Htotal. rewrite Htotal. clear Htotal.
  rewrite getDecrementedTotalCount_boolean. split.
  - intros prev Hprev Hat. rewrite Hprev.
    rewrite (proj1 (atLeast_tests _ _) Hat). split; [done|]. intros a Ha Hle.
    destruct prev as [p| |]; [|done..]. simpl in Ha, Hat.
    apply (sub_whole (Js.Fin p) (Js.Fin 1) a 1); [done|simpl; reflexivity|].
    destruct Hat as [_ Hat]. rewrite Ha in Hat. unfold Qle in Hat. simpl in Hat. lia.
  - intros Hno. destruct (totalCountFetched s) as [[|prev]|] eqn:Hprev; [done| |done].
    destruct (Js.truthy prev && Js.geb prev (Js.ofNat 1)) eqn:Htests; [|done].
    by destruct (Hno prev eq_refl); apply atLeast_tests.
Qed.

End OperationFacts.

(** ** The new total *)

(** A difference of two numbers in the order [>=] tests is not negative,
    rounded as it is. *)
Lemma sub_notNegative (x y : Js.number) :
  Js.geb x y = true → notNegative (Js.sub x y).
Proof.
  destruct x as [a|a|], y as [b|b|]; simpl; try done.
  - intros Hge. apply Qle_bool_iff in Hge. apply toDouble_notNegative.
    by apply (proj1 (Qle_minus_iff _ _)).
  - by intros ->.
  - by destruct a.
  - by destruct a, b.
Qed.

Lemma geb_eqb (x y y' : Js.number) :
  Js.eqb y y' = true → Js.geb x y = true → Js.geb x y' = true.
Proof.
  destruct x as [a|a|], y as [b|b|], y' as [c|c|]; simpl; try done.
  - intros Heq Hge. apply Qeq_bool_iff in Heq. apply Qle_bool_iff in Hge.
    apply Qle_bool_iff. by rewrite <- Heq.
  - by destruct b, c.
  - by destruct a, b, c.
Qed.

(** X18. The total never goes below zero: whatever the response, the
    previous total and [decrementTotalCount] are, a value that
    [getDecrementedTotalCount] returns is not negative. *)
Theorem decremented_total_never_negative (response : list Response) (itemsCount : nat)
    (prevTotalCount : option Count) (decrementTotalCount : option Decrement)
    (q : Js.number) :
  getDecrementedTotalCount response itemsCount prevTotalCount decrementTotalCount = Some q →
  notNegative q.
Proof.
  unfold getDecrementedTotalCount. intros Hq.
  destruct decrementTotalCount as [[b|d|field]|]; [| | |done].
  - destruct (truthyCount prevTotalCount) as [prev|]; [|done].
    destruct (Js.geb prev (Js.ofNat itemsCount)) eqn:Hge; [|done].
    simplify_eq. by apply sub_notNegative.
  - destruct (truthyCount prevTotalCount) as [prev|]; [|done]. cbv zeta in Hq.
    destruct (Js.eqb (Js.round d) d) eqn:Heq; [|done].
    destruct (Js.gtb (Js.round d) (Js.Fin 0)); [|done].
    destruct (Js.geb prev (Js.round d)) eqn:Hge; [|done].
    simpl in Hq. simplify_eq. apply sub_notNegative. by apply (geb_eqb _ _ _ Heq).
  - destruct response as [|[own| |] [|]]; try done.
    destruct (own !! field) as [[n|]|]; try done.
    destruct (Js.geb n (Js.Fin 0)) eqn:Hge; [|done].
    destruct (Js.eqb (Js.round n) n); [|done].
    simpl in Hq. simplify_eq.
    destruct q as [q|[|]|]; [|done..]. by apply Qle_bool_iff in Hge.
Qed.

(** ** The view models *)

Section ViewModelFacts.

Context {T E P US St : Type}.
Variable equal : T → T → bool.
Variable equalArray : T → list T → bool.
Variable sameValueZero : T → T → bool.
Variable svc : Service T P.
Variable tapResponseRoutesThrown : bool.

#[local] Abbreviation State := (CollectionState T US St).

(** The add step leaves a set that is not empty, given something to add. *)
Lemma addToTracked_nonempty (item : ItemOrItems T) stored tracked :
  itemsOfArg item ≠ [] →
  (0 <? length (addToTracked equal equalArray sameValueZero item stored tracked)) = true.
Proof.
  intros Hsome. apply Nat.ltb_lt. unfold addToTracked.
  destruct (hasItemInArg _ _ _ _ _) eqn:Hhas.
  - destruct tracked; [|simpl; lia]. by destruct item.
  - rewrite length_app. destruct item as [x|[|x l]]; simpl in *; [lia|done|lia].
Qed.

(** X19. Calling an operation shows at once: right after the call of any
    operation, before its request has answered, [isProcessing] is true;
    the exceptions are [refreshMany], [updateMany] and [deleteMany] given
    an empty list of entities, which mark nothing. *)
Theorem call_marks_processing (op : @Operation T E) (s : State) :
  marksSomething op = true →
  isProcessing (call equal equalArray sameValueZero op s) = true.
Proof.
  intros Hmarks. unfold isProcessing, isMutating, isUpdating, isDeleting.
  destruct op as [request|request|keep request|request|request|item request|l request
                 |item request refreshRequest|l request refreshRequest
                 |item request decr readRequest|l request decr readRequest]; simpl.
  1-5: by rewrite ?orb_true_r.
  all: rewrite addToTracked_nonempty; [by rewrite ?orb_true_r|]; simpl.
  all: first [done | by destruct l].
Qed.

(** What [hasItemIn] says of an entity right after the add step, and after
    the removal. *)
Lemma hasItemIn_addToTracked item stored tracked :
  equal item item = true →
  hasItemIn equal sameValueZero item
    (addToTracked equal equalArray sameValueZero (One item) stored tracked) = true.
Proof.
  intros Hrefl. unfold addToTracked. simpl.
  destruct (hasItemIn equal sameValueZero item tracked) eqn:Hhas; [done|].
  unfold hasItemIn. rewrite !existsb_app. simpl.
  assert (equal (default item (getItemByPartial equal item stored)) item = true) as ->.
  { unfold getItemByPartial.
    destruct (find (λ i, equal i item) stored) eqn:Hfind; simpl; [|done].
    by apply find_some in Hfind as [_ Hf]. }
  by rewrite !orb_true_r.
Qed.

Lemma hasItemIn_removeFromTracked item tracked :
  equal item item = true → (∀ a b, sameValueZero a b = true → a = b) →
  hasItemIn equal sameValueZero item (removeFromTracked equal (One item) tracked) = false.
Proof.
  intros Hrefl Hsame. unfold hasItemIn. apply orb_false_iff.
  split; apply existsb_false_elem; intros m Hm;
    apply (proj1 (removeFromTracked_keeps equal (One item) tracked m)) in Hm as [_ Hm];
    specialize (Hm item (list_elem_of_here _ _)); [|done].
  apply not_true_is_false. intros Hid. apply Hsame in Hid. subst m. congruence.
Qed.

(** X20. The item view model follows the operation: for an entity
    Comparator-equal to itself, [isUpdating], [isDeleting] or
    [isRefreshing] of the entity is true right after the call of [update],
    [delete] or [refresh] on it, and false once that operation's
    subscription has ended, whatever happened in between. *)
Theorem item_view_model_follows (item : T) (request : Outcome E (option T))
    (refreshRequest : option (Outcome E (option T))) (deleteRequest : Outcome E Response)
    (decr : option Decrement) (readRequest : option (Outcome E (option (Fetched T))))
    (s s' : State) :
  equal item item = true → (∀ a b, sameValueZero a b = true → a = b) →
  let view op during :=
    getItemViewModel equal sameValueZero (Some item)
      (if during : bool then call equal equalArray sameValueZero op s
       else (subscribed equal equalArray sameValueZero svc tapResponseRoutesThrown
               op s').1) in
  (itemIsUpdating (view (OpUpdate item request refreshRequest) true) = true
   ∧ itemIsUpdating (view (OpUpdate item request refreshRequest) false) = false)
  ∧ (itemIsDeleting (view (OpDelete item deleteRequest decr readRequest) true) = true
     ∧ itemIsDeleting (view (OpDelete item deleteRequest decr readRequest) false) = false)
  ∧ (itemIsRefreshing (view (OpRefresh item request) true) = true
     ∧ itemIsRefreshing (view (OpRefresh item request) false) = false).
Proof.
  intros Hrefl Hsame view. unfold view. simpl.
  repeat split; try (by apply hasItemIn_addToTracked).
  - unfold updateSubscribed.
    destruct (subscribe_done true
                (updateNext equal equalArray sameValueZero svc tapResponseRoutesThrown
                   item refreshRequest)
                callOnError (removeFromUpdatingItems equal (One item)) request s')
      as (s2 & ->).
    by apply hasItemIn_removeFromTracked.
  - unfold deleteSubscribed.
    destruct (subscribe_done true
                (deleteNext equal svc tapResponseRoutesThrown item decr readRequest)
                callOnError (removeFromDeletingItems equal (One item)) deleteRequest s')
      as (s2 & ->).
    by apply hasItemIn_removeFromTracked.
  - unfold refreshSubscribed.
    destruct (subscribe_done tapResponseRoutesThrown (upsertOneNext equal svc OnRead)
                callOnError (removeFromRefreshingItems equal (One item)) request s')
      as (s2 & ->).
    by apply hasItemIn_removeFromTracked.
Qed.

End ViewModelFacts.

(** ** From idle to idle *)

Section IdleFacts.

Context {T E P US St : Type}.
Variable equal : T → T → bool.
Variable equalArray : T → list T → bool.
Variable sameValueZero : T → T → bool.
Variable svc : Service T P.
Variable tapResponseRoutesThrown : bool.

#[local] Abbreviation State := (CollectionState T US St).
#[local] Abbreviation Ev := (Event T E P).
#[local] Abbreviation Eff := (@Eff T E P US St).

#[local] Arguments removeFromTracked : simpl never.
#[local] Arguments addToTracked : simpl never.

Ltac activity_cases :=
  intros ?;
  unfold duplicateNotAdded, callReporter, resetUnlessKept, patchTotalCountOnly in *;
  eff_unfold; simpl; repeat case_match; simpl in *; simplify_eq; try done.

Lemma createNext_activity item :
  keeps activity (createNext equal sameValueZero svc item : Eff unit).
Proof. unfold createNext. activity_cases. Qed.

Lemma createManyNext_activity fetched :
  keeps activity (createManyNext equal svc fetched : Eff unit).
Proof. unfold createManyNext. activity_cases. Qed.

Lemma readManyNext_activity fetched :
  keeps activity (readManyNext equal svc fetched : Eff unit).
Proof. unfold readManyNext. activity_cases. Qed.

(** Adding to an empty tracking set and removing gives it back empty. *)
Lemma tracked_round (item : ItemOrItems T) stored :
  (∀ x, x ∈ itemsOfArg item → equal x x = true) →
  removeFromTracked equal item
    (addToTracked equal equalArray sameValueZero item stored []) = [].
Proof.
  intros Hrefl. apply removeFromTracked_addToTracked; [done|].
  intros m x Hm. by apply elem_of_nil in Hm.
Qed.

Lemma subscribe_from {A} (I : State → Prop) routes (next : A → Eff unit) error done
    request (s : State) :
  (∀ a s, I s → I (next a s).1.1) → (∀ e s, I s → I (error e s).1.1) → I s →
  ∃ s2, (subscribe routes next error done request s).1 = done s2 ∧ I s2.
Proof.
  intros Hnext Herror Hs. unfold subscribe.
  destruct (match request with
            | Next a => next a s | Error e => error (ErrRequest e) s
            | Complete => error ErrEmpty s | Unsubscribed => (s, [], inr ())
            end) as [[s1 l1] r] eqn:Hrun.
  assert (I s1) as Hs1.
  { destruct request as [a|e| |]; simplify_eq.
    - specialize (Hnext a s Hs). by rewrite Hrun in Hnext.
    - specialize (Herror (ErrRequest e) s Hs). by rewrite Hrun in Herror.
    - specialize (Herror ErrEmpty s Hs). by rewrite Hrun in Herror.
    - done. }
  destruct r as [x|[]], request; try (eexists; split; [reflexivity|done]).
  destruct routes; [|eexists; split; [reflexivity|done]].
  specialize (Herror (ErrThrown x) s1 Hs1).
  destruct (error (ErrThrown x) s1) as [[s' l'] r']. eexists; split; [reflexivity|done].
Qed.

(** An operation run on its own, from a state where its own set or flag
    is the only thing marked, ends idle. *)
Lemma settles_idle {A} routes (next : A → Eff unit) error done request (s0 : State) :
  (∀ a s, activity s = activity s0 → activity (next a s).1.1 = activity s0) →
  (∀ e s, activity s = activity s0 → activity (error e s).1.1 = activity s0) →
  (∀ s2, activity s2 = activity s0 → idle (done s2)) →
  idle (subscribe routes next error done request s0).1.
Proof.
  intros Hnext Herror Hdone.
  destruct (subscribe_from (λ s, activity s = activity s0) routes next error done
              request s0) as (s2 & -> & Hs2); [done..|].
  by apply Hdone.
Qed.

Lemma kept_activity {A} (m : Eff A) (s s0 : State) :
  keeps activity m → activity s = activity s0 → activity (m s).1.1 = activity s0.
Proof. intros Hm Hs. by rewrite Hm. Qed.

Ltac activity_fields H :=
  unfold idle, activity in *; simpl in *; injection H as ?????.

(** A whole [refresh], [refreshMany] or [read] started with its own set
    empty, or its flag down, leaves the activity as it found it. *)
Lemma refresh_round item (request : Outcome E (option T)) (s : State) :
  equal item item = true → refreshingItems s = [] →
  activity (refresh equal equalArray sameValueZero svc tapResponseRoutesThrown
              item request s).1 = activity s.
Proof.
  intros Hrefl Hempty. unfold refresh, refreshSubscribed.
  destruct (subscribe_keeps activity tapResponseRoutesThrown (upsertOneNext equal svc OnRead)
              callOnError (removeFromRefreshingItems equal (One item)) request
              (refreshCall equal equalArray sameValueZero item s))
    as (s2 & -> & Hs2).
  - intros a. by apply keeps_upsertOneNext.
  - intros e. apply keeps_callOnError.
  - unfold activity in *. simpl in *. injection Hs2 as -> -> -> -> ->.
    rewrite Hempty, tracked_round; [done|].
    intros x Hx. apply list_elem_of_singleton in Hx. by subst.
Qed.

Lemma refreshMany_round l (request : Outcome E (option (Fetched T))) (s : State) :
  (∀ x, x ∈ l → equal x x = true) → refreshingItems s = [] →
  activity (refreshMany equal equalArray sameValueZero svc tapResponseRoutesThrown
              l request s).1 = activity s.
Proof.
  intros Hrefl Hempty. unfold refreshMany, refreshManySubscribed.
  destruct (subscribe_keeps activity tapResponseRoutesThrown (refreshManyNext equal svc)
              callOnError (removeFromRefreshingItems equal (Many l)) request
              (refreshManyCall equal equalArray sameValueZero l s))
    as (s2 & -> & Hs2).
  - intros a. by apply keeps_refreshManyNext.
  - intros e. apply keeps_callOnError.
  - unfold activity in *. simpl in *. injection Hs2 as -> -> -> -> ->.
    by rewrite Hempty, tracked_round.
Qed.

Lemma readWith_round keep param (request : Outcome E (option (Fetched T))) (s : State) :
  isReading s = false →
  activity (readWith equal svc tapResponseRoutesThrown keep param request s).1
  = activity s.
Proof.
  intros Hidle. unfold readWith, readSubscribed.
  destruct (subscribe_keeps activity tapResponseRoutesThrown
              (readNext equal svc keep param) (readError keep) (patchIsReading false)
              request (readCall s))
    as (s2 & -> & Hs2).
  - intros a. by apply keeps_readNext.
  - intros e. by apply keeps_readError.
  - unfold activity in *. simpl in *. injection Hs2 as -> _ -> -> ->.
    by rewrite Hidle.
Qed.

(** X21. From idle to idle: an operation called on a service where
    nothing is in flight and run to the end of its subscription, whatever
    its request does, leaves nothing in flight, so [isProcessing] is false
    again; the operation's entities are taken to be Comparator-equal to
    themselves. *)
Theorem idle_after_every_operation (op : @Operation T E) (s : State) :
  idle s → (∀ x, x ∈ trackedBy op → equal x x = true) →
  idle (perform equal equalArray sameValueZero svc tapResponseRoutesThrown op s).1
  ∧ isProcessing
      (perform equal equalArray sameValueZero svc tapResponseRoutesThrown op s).1 = false.
Proof.
  intros Hidle Hrefl.
  assert (∀ s' : State, idle s' → isProcessing s' = false) as Hproc.
  { intros s' Hs'. unfold isProcessing, isMutating, isUpdating, isDeleting.
    unfold idle, activity in Hs'. by injection Hs' as -> -> -> -> ->. }
  assert (idle (perform equal equalArray sameValueZero svc tapResponseRoutesThrown op s).1)
    as Hend; [|by split; [|apply Hproc]].
  clear Hproc. unfold perform.
  destruct op as [request|request|keep request|request|request|item request|l request
                 |item request refreshRequest|l request refreshRequest
                 |item request decr readRequest|l request decr readRequest];
    simpl in *; apply settles_idle.
  all: try (intros s2 Hs2; unfold idle, activity in *; simpl in *;
            injection Hidle as Hc0 Hr0 Hu0 Hd0 Hf0; injection Hs2 as Hc Hr Hu Hd Hf;
            rewrite ?Hc, ?Hr, ?Hu, ?Hd, ?Hf, ?Hc0, ?Hr0, ?Hu0, ?Hd0, ?Hf0;
            rewrite ?tracked_round by (intros x Hx; by apply Hrefl); done).
  all: try (intros e s0 Hs0; apply kept_activity; [|done];
            first [apply keeps_callOnError | by apply keeps_readError]).
  - intros a s0 Hs0. by apply kept_activity; [apply createNext_activity|].
  - intros a s0 Hs0. by apply kept_activity; [apply createManyNext_activity|].
  - intros a s0 Hs0. by apply kept_activity; [apply keeps_readNext|].
  - intros a s0 Hs0. by apply kept_activity; [apply keeps_upsertOneNext|].
  - intros a s0 Hs0. by apply kept_activity; [apply readManyNext_activity|].
  - intros a s0 Hs0. by apply kept_activity; [apply keeps_upsertOneNext|].
  - intros a s0 Hs0. by apply kept_activity; [apply keeps_refreshManyNext|].
  - intros a s0 Hs0. unfold updateNext. destruct refreshRequest as [rr|].
    + unfold lift.
      pose proof (refresh_round item rr s0 (Hrefl item (list_elem_of_here _ _))) as Hround.
      destruct (refresh _ _ _ _ _ _ _ _) as [s1 l1]. simpl in *. rewrite Hround; [done|].
      unfold idle, activity in *. simpl in *. congruence.
    + by apply kept_activity; [apply keeps_upsertOneNext|].
  - intros a s0 Hs0. unfold updateManyNext. destruct refreshRequest as [rr|].
    + unfold lift. pose proof (refreshMany_round l rr s0 Hrefl) as Hround.
      destruct (refreshMany _ _ _ _ _ _ _ _) as [s1 l1]. simpl in *.
      rewrite Hround; [done|].
      unfold idle, activity in *. simpl in *. congruence.
    + apply kept_activity; [|done]. activity_cases.
  - intros a s0 Hs0. unfold deleteNext. destruct readRequest as [rr|].
    + unfold lift. pose proof (readWith_round false (λ _, ArgResponse a) rr s0) as Hround.
      destruct (readWith _ _ _ _ _ _ _) as [s1 l1]. simpl in *. rewrite Hround; [done|].
      unfold idle, activity in *. simpl in *. congruence.
    + apply kept_activity; [|done]. activity_cases.
  - intros a s0 Hs0. unfold deleteManyNext. destruct readRequest as [rr|].
    + unfold lift. pose proof (readWith_round false (λ _, ArgResponses a) rr s0) as Hround.
      destruct (readWith _ _ _ _ _ _ _) as [s1 l1]. simpl in *. rewrite Hround; [done|].
      unfold idle, activity in *. simpl in *. congruence.
    + apply kept_activity; [|done]. activity_cases.
Qed.

End IdleFacts.

(** ** The status maps *)

Section JsMapFacts.

Context {K V : Type}.
Variable same : K → K → bool.
Hypothesis same_identity : ∀ a b, same a b = true ↔ a = b.

Lemma same_refl k : same k k = true.
Proof using same_identity. by apply same_identity. Qed.

Lemma same_ne a b : a ≠ b → same a b = false.
Proof using same_identity.
  intros Hne. apply not_true_is_false. by rewrite same_identity.
Qed.

Lemma mapGet_app_r k (m1 m2 : list (K * V)) :
  mapHas same k m1 = false → mapGet same k (m1 ++ m2) = mapGet same k m2.
Proof using Type.
  unfold mapGet, mapHas. induction m1 as [|e m1 IH]; [done|]. simpl.
  intros Hhas. apply orb_false_iff in Hhas as [-> Hhas]. by apply IH.
Qed.

Lemma mapGet_app_l k (m1 m2 : list (K * V)) :
  mapHas same k m2 = false → mapGet same k (m1 ++ m2) = mapGet same k m1.
Proof using Type.
  unfold mapGet, mapHas. intros Hhas. induction m1 as [|e m1 IH]; simpl.
  - rewrite existsb_find in Hhas. by destruct (find _ m2).
  - by destruct (same e.1 k).
Qed.

Lemma mapGet_mapSet k v (m : list (K * V)) :
  mapGet same k (mapSet same k v m) = Some v.
Proof using same_identity.
  unfold mapSet. destruct (mapHas same k m) eqn:Hhas.
  - unfold mapGet, mapHas in *. induction m as [|e m IH]; [done|]. simpl in *.
    destruct (same e.1 k) eqn:He; simpl; [by rewrite He|]. rewrite He. by apply IH.
  - rewrite mapGet_app_r by done. unfold mapGet. simpl. by rewrite same_refl.
Qed.

Lemma mapGet_mapSet_ne k k' v (m : list (K * V)) :
  k' ≠ k → mapGet same k' (mapSet same k v m) = mapGet same k' m.
Proof using same_identity.
  intros Hne. unfold mapSet. destruct (mapHas same k m) eqn:Hhas.
  - clear Hhas. unfold mapGet. induction m as [|e m IH]; [done|]. simpl.
    destruct (same e.1 k) eqn:He; simpl.
    + apply same_identity in He. rewrite He, (same_ne k k') by done. apply IH.
    + destruct (same e.1 k'); [done|apply IH].
  - apply mapGet_app_l. unfold mapHas. simpl. by rewrite (same_ne k k').
Qed.

Lemma mapGet_mapDelete k (m : list (K * V)) :
  mapGet same k (mapDelete same k m) = None.
Proof using Type.
  unfold mapGet, mapDelete. induction m as [|e m IH]; [done|]. simpl.
  destruct (same e.1 k) eqn:He; simpl; [done|]. by rewrite He.
Qed.

Lemma mapGet_mapDelete_ne k k' (m : list (K * V)) :
  k' ≠ k → mapGet same k' (mapDelete same k m) = mapGet same k' m.
Proof using same_identity.
  intros Hne. unfold mapGet, mapDelete. induction m as [|e m IH]; [done|]. simpl.
  destruct (same e.1 k) eqn:He; simpl.
  - apply same_identity in He. by rewrite He, (same_ne k k').
  - destruct (same e.1 k'); [done|apply IH].
Qed.

Lemma mapSet_keys k v (m : list (K * V)) :
  NoDup m.*1 → NoDup (mapSet same k v m).*1.
Proof using same_identity.
  intros Hm. unfold mapSet. destruct (mapHas same k m) eqn:Hhas.
  - match goal with |- NoDup ?keys => replace keys with (m.*1); [done|] end.
    clear. induction m as [|e m IH]; [done|]. csimpl.
    destruct (same e.1 k); simpl; f_equal; exact IH.
  - rewrite fmap_app. simpl. apply NoDup_app. split; [done|]. split; [|apply NoDup_singleton].
    intros k0 Hk0 Hin. apply list_elem_of_singleton in Hin as ->.
    apply list_elem_of_fmap in Hk0 as (e & -> & He).
    unfold mapHas in Hhas. apply (proj1 (existsb_false_elem _ _) Hhas) in He.
    simpl in He. by rewrite same_refl in He.
Qed.

Lemma mapDelete_keys k (m : list (K * V)) :
  NoDup m.*1 → NoDup (mapDelete same k m).*1.
Proof using Type.
  unfold mapDelete. induction m as [|e m IH]; [done|]. simpl.
  intros Hm. apply NoDup_cons in Hm as [He Hm].
  destruct (same e.1 k); simpl; [by apply IH|].
  apply NoDup_cons. split; [|by apply IH].
  intros Hin. apply He. apply list_elem_of_fmap in Hin as (e' & -> & Hin).
  apply elem_of_filter in Hin as [Hin _]. apply list_elem_of_fmap. by exists e'.
Qed.

Lemma elem_of_setAdd x y (l : list K) :
  y ∈ setAdd same x l ↔ y = x ∨ y ∈ l.
Proof using same_identity.
  unfold setAdd. destruct (existsb (λ z, same z x) l) eqn:Hex.
  - split; [by right|]. intros [->|Hy]; [|done].
    apply existsb_exists in Hex as (z & Hz & Hzx).
    apply same_identity in Hzx as ->. by apply list_elem_of_In.
  - rewrite elem_of_app, list_elem_of_singleton. tauto.
Qed.

Lemma elem_of_setDelete x y (l : list K) :
  y ∈ setDelete same x l ↔ y ∈ l ∧ y ≠ x.
Proof using same_identity.
  unfold setDelete. rewrite elem_of_filter, negb_true_iff. split; intros [Hy Hne].
  - split; [done|]. intros ->. by rewrite same_refl in Hne.
  - split; [done|]. by apply same_ne.
Qed.

End JsMapFacts.

Section StatusFacts.

Context {T US St : Type}.
Variable equal : T → T → bool.
Variable sameValueZero : T → T → bool.
Variable sameUniqueStatus : US → US → bool.
Variable sameStatus : St → St → bool.

#[local] Abbreviation State := (CollectionState T US St).
#[local] Abbreviation holder := (statusHolder (T:=T) (St:=St) sameUniqueStatus).
#[local] Abbreviation tagsOf := (itemStatusesOf (US:=US) (St:=St) sameValueZero).

(** X22. A unique status has one holder: after [setUniqueStatus(key,
    item)] the key is bound to [item], whoever held it before; after
    [deleteUniqueStatus(key)] it is bound to nobody; both leave every other
    key with its holder, and no key is ever listed twice. The keys are
    told apart by identity. *)
Theorem unique_status_has_one_holder (key : US) (item : T) (s : State) :
  (∀ a b, sameUniqueStatus a b = true ↔ a = b) →
  let set := setUniqueStatus equal sameUniqueStatus key item true s in
  let deleted := deleteUniqueStatus sameUniqueStatus key s in
  (holder key set = Some item
   ∧ (∀ key', key' ≠ key → holder key' set = holder key' s)
   ∧ (NoDup (status s).*1 → NoDup (status set).*1))
  ∧ (holder key deleted = None
     ∧ (∀ key', key' ≠ key → holder key' deleted = holder key' s)
     ∧ (NoDup (status s).*1 → NoDup (status deleted).*1)).
Proof.
  intros Hid set deleted. unfold statusHolder, set, deleted, setUniqueStatus,
    deleteUniqueStatus. simpl. repeat split.
  - by apply mapGet_mapSet.
  - intros key' Hne. by apply mapGet_mapSet_ne.
  - by apply mapSet_keys.
  - apply mapGet_mapDelete.
  - intros key' Hne. by apply mapGet_mapDelete_ne.
  - apply mapDelete_keys.
Qed.

(** X23. Only the holder gives a unique status up: [setUniqueStatus(key,
    item, false)] unbinds the key when its holder is Comparator-equal to
    [item], leaving the other keys alone, and changes nothing at all when
    the key has another holder or none. *)
Theorem unique_status_released_by_its_holder (key : US) (item : T) (s : State) :
  (∀ a b, sameUniqueStatus a b = true ↔ a = b) →
  let s' := setUniqueStatus equal sameUniqueStatus key item false s in
  (∀ current, holder key s = Some current → equal item current = true →
     holder key s' = None ∧ ∀ key', key' ≠ key → holder key' s' = holder key' s)
  ∧ ((∀ current, holder key s = Some current → equal item current = false) → s' = s).
Proof.
  intros Hid s'. unfold s', statusHolder, setUniqueStatus. simpl. split.
  - intros current Hcurrent Hequal. rewrite Hcurrent, Hequal. simpl. split.
    + apply mapGet_mapDelete.
    + intros key' Hne. by apply mapGet_mapDelete_ne.
  - intros Hother. destruct (mapGet sameUniqueStatus key (status s)) as [current|]; [|done].
    by rewrite (Hother current eq_refl).
Qed.

(** X24. The status tags of an entity: [setItemStatus(item, tag)] gives
    the entity exactly its earlier tags and [tag]; [deleteItemStatus(item,
    tag)] gives it exactly its earlier tags but [tag], keeping the entity
    listed even with no tag left, and changes nothing at all for an entity
    that is not listed; neither touches the tags of another entity.
    Entities and tags are told apart by identity. *)
Theorem item_status_tags (item : T) (tag : St) (s : State) :
  (∀ a b, sameValueZero a b = true ↔ a = b) →
  (∀ a b, sameStatus a b = true ↔ a = b) →
  let added := setItemStatus sameValueZero sameStatus item tag s in
  let removed := deleteItemStatus sameValueZero sameStatus item tag s in
  (∃ tags, tagsOf item added = Some tags
     ∧ ∀ t, t ∈ tags ↔ t = tag ∨ t ∈ default [] (tagsOf item s))
  ∧ (∀ item', item' ≠ item → tagsOf item' added = tagsOf item' s)
  ∧ (tagsOf item s = None → removed = s)
  ∧ (∀ old, tagsOf item s = Some old →
       ∃ tags, tagsOf item removed = Some tags ∧ ∀ t, t ∈ tags ↔ t ∈ old ∧ t ≠ tag)
  ∧ (∀ item', item' ≠ item → tagsOf item' removed = tagsOf item' s).
Proof.
  intros Hitem Htag added removed.
  unfold added, removed, itemStatusesOf, setItemStatus, deleteItemStatus. simpl.
  split; [|split; [|split; [|split]]].
  - eexists. split; [by apply mapGet_mapSet|]. intros t. by apply elem_of_setAdd.
  - intros item' Hne. by apply mapGet_mapSet_ne.
  - by intros ->.
  - intros old ->. simpl. eexists. split; [by apply mapGet_mapSet|].
    intros t. by apply elem_of_setDelete.
  - intros item' Hne. destruct (mapGet sameValueZero item (statuses s)); [|done].
    simpl. by apply mapGet_mapSet_ne.
Qed.

End StatusFacts.

(** ** Looking up what the operations did *)

Ltac outcome_cases :=
  unfold duplicateNotAdded, callReporter, resetUnlessKept, patchTotalCountOnly in *;
  eff_unfold; simpl; repeat case_match; simpl in *; simplify_eq; try done.

Section LookupFacts.

Context {T E P US St : Type}.
Variable equal : T → T → bool.
Variable equalArray : T → list T → bool.
Variable sameValueZero : T → T → bool.
Variable svc : Service T P.
Variable tapResponseRoutesThrown : bool.

#[local] Abbreviation State := (CollectionState T US St).
#[local] Abbreviation Ev := (Event T E P).

(** What the upsert of one emitted entity leaves in [items]. *)
Lemma upsertOneNext_items ch (newItem : T) (s : State) :
  let s' := (upsertOneNext equal svc (E:=E) ch (Some newItem) s).1.1 in
  (matchCount equal newItem (items s) ≤ 1 →
     upsertOne equal newItem (items s) = (items s', ReturnsItems))
  ∧ (2 ≤ matchCount equal newItem (items s) → items s' = items s).
Proof.
  unfold upsertOneNext. split; intros Hc.
  - destruct (upsertOne equal newItem (items s)) as [l' [|]] eqn:Hup.
    + eff_unfold. simpl. rewrite Hup. simpl. by destruct (observed svc ch).
    + assert (matchCount equal newItem (items s) = 0
              ∨ matchCount equal newItem (items s) = 1) as [H0|H1] by lia.
      * rewrite upsertOne_absent in Hup by done. discriminate Hup.
      * destruct (upsertOne_single equal newItem (items s) H1) as (k & x & _ & _ & Hup').
        rewrite Hup' in Hup. discriminate Hup.
  - eff_unfold. simpl. rewrite upsertOne_ambiguous by done. outcome_cases.
Qed.

(** The three operations that upsert one emitted entity end with the
    [items] of their next-handler. *)
Lemma upsert_operation_items (op : @Operation T E) (newItem : T) (s : State) :
  (∃ item, op = OpRefresh item (Next (Some newItem)))
  ∨ op = OpReadOne (Next (Some newItem))
  ∨ (∃ item, op = OpUpdate item (Next (Some newItem)) None) →
  ∃ ch (s0 : State), items s0 = items s
    ∧ items (perform equal equalArray sameValueZero svc tapResponseRoutesThrown op s).1
      = items (upsertOneNext equal svc (E:=E) ch (Some newItem) s0).1.1.
Proof.
  intros [[item ->]|[->|[item ->]]]; unfold perform; simpl.
  - exists OnRead, (refreshCall equal equalArray sameValueZero item s). split; [done|].
    unfold refreshSubscribed, subscribe.
    destruct (upsertOneNext _ _ _ _ _) as [[s1 l1] [x|[]]]; simpl; [|done].
    by destruct tapResponseRoutesThrown.
  - exists OnRead, (readOneCall s). split; [done|].
    unfold readOneSubscribed, subscribe.
    destruct (upsertOneNext _ _ _ _ _) as [[s1 l1] [x|[]]]; simpl; [|done].
    by destruct tapResponseRoutesThrown.
  - exists OnUpdate, (updateCall equal equalArray sameValueZero item s). split; [done|].
    unfold updateSubscribed, subscribe, updateNext.
    by destruct (upsertOneNext _ _ _ _ _) as [[s1 l1] [x|[]]].
Qed.

(** X25. An upsert never disturbs the other entities: after [refresh],
    [readOne] or [update] (without [refreshRequest]) whose request emits an
    entity, every element of [items] that is not Comparator-equal to the
    emitted entity is still at its position, whether the entity was
    accepted or rejected and however the service is configured. *)
Theorem upsert_keeps_other_entities (op : @Operation T E) (newItem : T) (s : State) :
  (∃ item, op = OpRefresh item (Next (Some newItem)))
  ∨ op = OpReadOne (Next (Some newItem))
  ∨ (∃ item, op = OpUpdate item (Next (Some newItem)) None) →
  ∀ j y, items s !! j = Some y → equal newItem y = false →
    items (perform equal equalArray sameValueZero svc tapResponseRoutesThrown op s).1 !! j
    = Some y.
Proof.
  intros Hop j y Hj Hy.
  destruct (upsert_operation_items op newItem s Hop) as (ch & s0 & Hs0 & ->).
  destruct (upsertOneNext_items ch newItem s0) as [Haccept Hreject].
  destruct (decide (matchCount equal newItem (items s0) ≤ 1)) as [Hc|Hc].
  - destruct (upsertOne_frame equal newItem _ _ (Haccept Hc)) as (_ & Hkeep & _).
    apply Hkeep; [by rewrite Hs0|done].
  - rewrite Hreject by lia. by rewrite Hs0.
Qed.

(** X26. What was upserted is found: for a symmetric comparator and an
    emitted entity Comparator-equal to itself and to at most one element
    of [items], after [refresh], [readOne] or [update] (without
    [refreshRequest]) [getItem] given that entity returns that entity. *)
Theorem upserted_entity_is_found (op : @Operation T E) (newItem : T) (s : State) :
  (∀ a b, equal a b = equal b a) → equal newItem newItem = true →
  matchCount equal newItem (items s) ≤ 1 →
  (∃ item, op = OpRefresh item (Next (Some newItem)))
  ∨ op = OpReadOne (Next (Some newItem))
  ∨ (∃ item, op = OpUpdate item (Next (Some newItem)) None) →
  getItem equal newItem
    (perform equal equalArray sameValueZero svc tapResponseRoutesThrown op s).1
  = Some newItem.
Proof.
  intros equal_sym Hrefl Hc Hop. unfold getItem, getItemByPartial.
  destruct (upsert_operation_items op newItem s Hop) as (ch & s0 & Hs0 & ->).
  destruct (upsertOneNext_items ch newItem s0) as [Haccept _].
  rewrite Hs0 in Haccept. specialize (Haccept Hc).
  destruct (upsertOne_accepted equal newItem _ _ Haccept)
    as [[H0 ->]|(k & x & H1 & Hk & Hx & ->)].
  - rewrite find_app_none.
    + simpl. by rewrite Hrefl.
    + intros y Hy. rewrite equal_sym. by apply (proj1 (matchCount_zero equal newItem _) H0).
  - rewrite insert_take_drop by (by eapply lookup_lt_Some).
    rewrite find_app_none.
    + simpl. by rewrite Hrefl.
    + intros y Hy. rewrite equal_sym.
      apply elem_of_take in Hy as (j & Hj & Hlt).
      apply (matchCount_one_elsewhere equal newItem (items s) k x j y); [done..|lia].
Qed.

(** X27. What was deleted is not found: after a successful [delete] or
    [deleteMany] without [readRequest], [getItem] given a deleted entity
    returns nothing, under every configuration. *)
Theorem deleted_entity_is_not_found (item x : T) (l : list T) (response : Response)
    (responses : list Response) (decr : option Decrement) (s : State) :
  x ∈ l →
  getItem equal item
    (delete equal equalArray sameValueZero svc tapResponseRoutesThrown (E:=E)
       item (Next response) decr None s).1 = None
  ∧ getItem equal x
      (deleteMany equal equalArray sameValueZero svc tapResponseRoutesThrown (E:=E)
         l (Next responses) decr None s).1 = None.
Proof.
  intros Hx. unfold getItem, getItemByPartial.
  destruct (delete_succeeded equal equalArray sameValueZero svc tapResponseRoutesThrown
              (E:=E) item response decr s) as [-> _].
  destruct (deleteMany_succeeded equal equalArray sameValueZero svc
              tapResponseRoutesThrown (E:=E) l responses decr s) as [-> _].
  split; apply find_none_elem; intros m Hm; apply elem_of_filter in Hm as [_ Hm];
    apply negb_true_iff in Hm; [done|].
  simpl in Hm. by apply (proj1 (existsb_false_elem _ _) Hm).
Qed.

End LookupFacts.

(** ** Edges of the operations *)

Section OperationEdges.

Context {T E P US St : Type}.
Variable equal : T → T → bool.
Variable equalArray : T → list T → bool.
Variable sameValueZero : T → T → bool.
Variable svc : Service T P.
Variable tapResponseRoutesThrown : bool.

#[local] Abbreviation State := (CollectionState T US St).
#[local] Abbreviation Ev := (Event T E P).

(** X28. An empty batch is passed over in silence: when the request of
    [createMany], [refreshMany] or [readMany] emits a result without
    items, [items] stays, no callback is invoked and nothing is broadcast;
    [totalCountFetched] takes the [totalCount] of a structured result
    whenever that is not [undefined], a [null] as well as a number, and
    stays otherwise. *)
Theorem empty_batch_is_silent (l : list T) (fetched : Fetched T) (s : State) :
  itemsOf fetched = [] →
  let total := match fetched with
               | Structured _ (Some n) => Some n
               | _ => totalCountFetched s
               end in
  let results :=
    [createMany equal svc tapResponseRoutesThrown (E:=E) (Next (Some fetched)) s;
     refreshMany equal equalArray sameValueZero svc tapResponseRoutesThrown (E:=E)
       l (Next (Some fetched)) s;
     readMany equal svc tapResponseRoutesThrown (E:=E) (Next (Some fetched)) s] in
  Forall (λ r, items r.1 = items s ∧ totalCountFetched r.1 = total ∧ r.2 = []) results.
Proof.
  intros Hempty total results. unfold results, total.
  unfold createMany, refreshMany, readMany, createManySubscribed, refreshManySubscribed,
    readManySubscribed, subscribe, createManyNext, refreshManyNext, readManyNext,
    patchTotalCountOnly.
  eff_unfold. simpl. rewrite Hempty. simpl.
  repeat constructor; by destruct fetched as [|? [|]].
Qed.

(** A log without a call of [onSuccess]. *)
Lemma no_CallOnSuccess (l : list Ev) :
  Forall (λ e, match e with CallOnSuccess _ => False | _ => True end) l →
  ∀ arg, CallOnSuccess arg ∉ l.
Proof. intros Hl arg Hin. by apply (proj1 (Forall_forall _ _) Hl) in Hin. Qed.

(** X29. An ambiguous [update] is refused: when the emitted entity is
    Comparator-equal to two or more elements of [items], the collection
    stays as it is and [onSuccess] is not invoked, whatever the options;
    and, the error reporter returning if there is one, [onError] gets
    [onDuplicateErrCallbackParam] when [throwOnDuplicates] is not set, and
    an error carrying the [throwOnDuplicates] message when it is. *)
Theorem ambiguous_update_is_refused (item newItem : T) (s : State) :
  2 ≤ matchCount equal newItem (items s) →
  let r := update equal equalArray sameValueZero svc tapResponseRoutesThrown (E:=E)
             item (Next (Some newItem)) None s in
  sameCollection s r.1
  ∧ (∀ arg, CallOnSuccess arg ∉ r.2)
  ∧ (reporterReturns svc →
     callbacks r.2
     = [CallOnError
          match Js.truthyString (throwOnDuplicates svc) with
          | Some msg => ErrThrown (ErrorMessage msg)
          | None => ErrDuplicateParam (onDuplicateErrCallbackParam svc)
          end]).
Proof.
  intros Hc.
  unfold update, updateSubscribed, subscribe, updateNext, upsertOneNext,
    updateCall, duplicateNotAdded, callReporter.
  eff_unfold. simpl. rewrite upsertOne_ambiguous by done.
  destruct (Js.truthyString (throwOnDuplicates svc)); simpl.
  { split; [done|]. split; [|done]. apply no_CallOnSuccess. by repeat constructor. }
  destruct (errReporter svc) as [reporter|] eqn:Hreporter.
  - split; [repeat case_match; by simplify_eq|]. split.
    + apply no_CallOnSuccess.
      repeat case_match; simplify_eq; simpl; by repeat constructor.
    + intros Hreturns. pose proof (λ r, Hreturns reporter r Hreporter) as Hquiet.
      destruct (getDuplicates equal (items s)); simpl;
        rewrite ?Hquiet; simpl; rewrite ?Hquiet; by simpl.
  - split; [done|]. split; [|done]. apply no_CallOnSuccess. by repeat constructor.
Qed.

(** X30. A [read] or [readMany] whose request emits [null] commits
    nothing of its own and never invokes [onSuccess]: the handler raises on
    [fetched.totalCount]. Where the raised error reaches the error
    handler, [onError] gets it, and [read] without [keepExistingOnError]
    empties the collection; where it does not, nothing happens at all. *)
Theorem null_read_raises (keep : bool) (s : State) :
  let r := read equal svc tapResponseRoutesThrown (E:=E) keep (Next None) s in
  let m := readMany equal svc tapResponseRoutesThrown (E:=E) (Next None) s in
  let raised : list Ev :=
    if tapResponseRoutesThrown then [CallOnError (ErrThrown TypeErrorNullish)] else [] in
  r.2 = raised ∧ m.2 = raised
  ∧ sameCollection s m.1
  ∧ items r.1 = (if tapResponseRoutesThrown && negb keep then [] else items s)
  ∧ totalCountFetched r.1
    = (if tapResponseRoutesThrown && negb keep then None else totalCountFetched s).
Proof.
  unfold read, readWith, readMany, readSubscribed, readManySubscribed, subscribe,
    readNext, readManyNext, readError, resetUnlessKept.
  eff_unfold. simpl. by destruct tapResponseRoutesThrown, keep.
Qed.

End OperationEdges.

(** ** The properties above on the collection compared by [id] *)

Section ByIdExamples.

Import ById.

Lemma equal_symmetric (a b : Entity) : equal a b = equal b a.
Proof. unfold equal. apply bool_decide_ext. split; intros H; by symmetry. Qed.

Lemma equal_reflexive (a : Entity) : equal a a = true.
Proof. unfold equal. by apply bool_decide_eq_true. Qed.

Lemma identical_identity (a b : Entity) : identical a b = true ↔ a = b.
Proof.
  destruct a as [r1 i1], b as [r2 i2]. unfold identical. simpl.
  rewrite andb_true_iff, !bool_decide_eq_true. split.
  - by intros [-> ->].
  - by intros [= -> ->].
Qed.

(** [upsertOne_idempotent] on a replacement of [{id: 1}]. *)
Lemma upsertOne_idempotent_witness :
  upsertOne equal fetched1 [fetched1; stored2] = ([fetched1; stored2], ReturnsItems).
Proof.
  apply (upsertOne_idempotent equal fetched1 [stored1; stored2]); reflexivity.
Defined.

(** [upsertOne_keeps_the_others] on the same replacement. *)
Lemma upsertOne_keeps_the_others_witness :
  fetched1 ∈ [fetched1; stored2]
  ∧ (∀ j y, [stored1; stored2] !! j = Some y → equal fetched1 y = false →
       [fetched1; stored2] !! j = Some y)
  ∧ length [stored1; stored2] ≤ length [fetched1; stored2] ≤ S (length [stored1; stored2]).
Proof.
  apply (upsertOne_keeps_the_others equal fetched1 [stored1; stored2]). reflexivity.
Defined.

(** [getDuplicates_entries] on [{id: 1}] at the indices 0 and 2. *)
Lemma getDuplicates_entries_witness :
  ∃ d, getDuplicates equal [stored1; stored2; fetched1] = Some d
    ∧ ∃ m, d !! 0 = Some m ∧ m !! 2 = Some fetched1.
Proof.
  destruct (getDuplicates equal [stored1; stored2; fetched1]) as [d|] eqn:Hd;
    [|vm_compute in Hd; discriminate Hd].
  exists d. split; [reflexivity|].
  apply (getDuplicates_entries equal [stored1; stored2; fetched1] d Hd 0 2 fetched1).
  exists stored1. split; [reflexivity|]. split; [reflexivity|]. split; [reflexivity|].
  right. split; [lia|reflexivity].
Defined.

(** [upsertMany_accepted] on a batch that replaces one entity and adds one. *)
Lemma upsertMany_accepted_witness :
  (∀ x, x ∈ [fetched1; absent9] → x ∈ [fetched1; stored2; absent9])
  ∧ (∀ j z, [stored1; stored2] !! j = Some z →
       (∀ x, x ∈ [fetched1; absent9] → equal x z = false) →
       [fetched1; stored2; absent9] !! j = Some z)
  ∧ length [stored1; stored2] ≤ length [fetched1; stored2; absent9]
    ≤ length [stored1; stored2] + length [fetched1; absent9].
Proof.
  apply (upsertMany_accepted equal [fetched1; absent9] [stored1; stored2]
           [fetched1; stored2; absent9] equal_symmetric).
  reflexivity.
Defined.

(** [failed_request_commits_nothing] on an update whose request fails. *)
Lemma failed_request_commits_nothing_witness :
  let r := run defaults true (OpUpdate stored1 (Error ()) None) oneItem in
  sameCollection oneItem r.1 ∧ r.2 = [CallOnError (ErrRequest ())].
Proof.
  apply (failed_request_commits_nothing equal equalArray sameValueZero defaults true
           (OpUpdate stored1 (Error ()) None) (ErrRequest ()) oneItem);
    reflexivity.
Defined.

(** [unsubscribed_request_only_releases] on a creation nobody waits for. *)
Lemma unsubscribed_request_only_releases_witness :
  let r := run defaults true (OpCreate Unsubscribed) oneItem in
  sameCollection oneItem r.1 ∧ r.2 = [].
Proof.
  apply (unsubscribed_request_only_releases equal equalArray sameValueZero defaults true
           (OpCreate Unsubscribed) oneItem).
  reflexivity.
Defined.

(** [duplicate_rejection_commits_nothing] on the creation of a second
    [{id: 1}]. *)
Lemma duplicate_rejection_commits_nothing_witness :
  sameCollection oneItem
    (subscribed equal equalArray sameValueZero defaults true
       (OpCreate (Next (Some fetched1)) : Op) oneItem).1.
Proof.
  apply (duplicate_rejection_commits_nothing equal equalArray sameValueZero defaults
           true (OpCreate (Next (Some fetched1))) oneItem).
  - reflexivity.
  - apply list_elem_of_In. vm_compute. left. reflexivity.
Defined.

(** [read_replaces_wholesale] on a page of two entities. *)
Lemma read_replaces_wholesale_witness :
  let r := read equal defaults true false (E:=unit)
             (Next (Some (Bare [fetched1; stored2]))) oneItem in
  items r.1 = [fetched1; stored2]
  ∧ totalCountFetched r.1 = None
  ∧ r.2 = [CallOnSuccess (ArgItems [fetched1; stored2])].
Proof.
  apply (read_replaces_wholesale equal defaults true false (E:=unit)
           (Bare [fetched1; stored2]) oneItem).
  reflexivity.
Defined.

(** [read_refuses_fetched_duplicates] on a page holding [{id: 1}] twice,
    [keepExistingOnError] set and an error reporter that returns. *)
Lemma read_refuses_fetched_duplicates_witness :
  let r := read equal strictReporting true true (E:=unit)
             (Next (Some (Bare [stored1; fetched1]))) onePage in
  items r.1 = [stored1]
  ∧ totalCountFetched r.1 = Some (Num (Js.Fin 7))
  ∧ callbacks r.2 = [CallOnError (ErrDuplicateParam 409)].
Proof.
  eapply (read_refuses_fetched_duplicates equal strictReporting true true (E:=unit)
            (Bare [stored1; fetched1]) _ onePage);
    try reflexivity.
  intros reporter r Hreporter. injection Hreporter as <-. reflexivity.
Defined.

(** [create_then_delete_restores_items] on [{id: 2}]. *)
Lemma create_then_delete_restores_items_witness :
  let created := (create equal sameValueZero defaults true (E:=unit)
                    (Next (Some stored2)) oneItem).1 in
  items (delete equal equalArray sameValueZero defaults true (E:=unit)
           stored2 (Next RNullish) None None created).1 = [stored1].
Proof.
  apply (create_then_delete_restores_items equal equalArray sameValueZero defaults true
           (E:=unit) stored2 RNullish None oneItem);
    reflexivity.
Defined.

(** [decremented_total_never_negative] on one entity deleted out of 7. *)
Lemma decremented_total_never_negative_witness :
  getDecrementedTotalCount [RNullish] 1 (Some (Num (Js.Fin 7))) (Some (DBool true))
  = Some (Js.Fin 6)
  ∧ notNegative (Js.Fin 6).
Proof.
  assert (getDecrementedTotalCount [RNullish] 1 (Some (Num (Js.Fin 7)))
            (Some (DBool true)) = Some (Js.Fin 6)) as Hq by (vm_compute; reflexivity).
  split; [exact Hq|].
  exact (decremented_total_never_negative [RNullish] 1 (Some (Num (Js.Fin 7)))
           (Some (DBool true)) (Js.Fin 6) Hq).
Defined.

(** [call_marks_processing] on a deletion. *)
Lemma call_marks_processing_witness :
  isProcessing
    (call equal equalArray sameValueZero
       (OpDelete stored1 (Next RNullish) None None : Op) oneItem) = true.
Proof.
  apply (call_marks_processing equal equalArray sameValueZero
           (OpDelete stored1 (Next RNullish) None None : Op) oneItem).
  reflexivity.
Defined.

(** [item_view_model_follows] on an update of [{id: 1}]. *)
Lemma item_view_model_follows_witness :
  let op : Op := OpUpdate stored1 (Next (Some fetched1)) None in
  itemIsUpdating
    (getItemViewModel equal identical (Some stored1)
       (call equal equalArray identical op oneItem)) = true
  ∧ itemIsUpdating
      (getItemViewModel equal identical (Some stored1)
         (subscribed equal equalArray identical defaults true op updatingOne).1) = false.
Proof.
  exact (proj1 (item_view_model_follows equal equalArray identical defaults true
                  stored1 (Next (Some fetched1)) None (Next RNullish) None None
                  oneItem updatingOne eq_refl
                  (λ a b, proj1 (identical_identity a b)))).
Defined.

(** [idle_after_every_operation] on an update followed by its refresh. *)
Lemma idle_after_every_operation_witness :
  let r := run defaults true
    (OpUpdate stored1 (Next (Some fetched1)) (Some (Next (Some fetched1)))) oneItem in
  idle r.1 ∧ isProcessing r.1 = false.
Proof.
  apply (idle_after_every_operation equal equalArray sameValueZero defaults true
           (OpUpdate stored1 (Next (Some fetched1)) (Some (Next (Some fetched1))))
           oneItem).
  - reflexivity.
  - intros x _. apply equal_reflexive.
Defined.

(** [unique_status_has_one_holder] on the status [1] of [held]. *)
Lemma unique_status_has_one_holder_witness :
  statusHolder Nat.eqb 1 (setUniqueStatus equal Nat.eqb 1 stored2 true held) = Some stored2
  ∧ statusHolder Nat.eqb 1 (deleteUniqueStatus Nat.eqb 1 held) = None.
Proof.
  pose proof (unique_status_has_one_holder equal Nat.eqb 1 stored2 held Nat.eqb_eq) as H.
  cbv zeta in H. destruct H as ((H1 & _) & H2 & _).
  exact (conj H1 H2).
Defined.

(** [unique_status_released_by_its_holder] on [{id: 1}], the holder. *)
Lemma unique_status_released_by_its_holder_witness :
  statusHolder Nat.eqb 1 (setUniqueStatus equal Nat.eqb 1 fetched1 false held) = None.
Proof.
  pose proof (unique_status_released_by_its_holder equal Nat.eqb 1 fetched1 held
                Nat.eqb_eq) as H.
  cbv zeta in H. destruct H as [H _].
  exact (proj1 (H stored1 eq_refl eq_refl)).
Defined.

(** [item_status_tags] on a second status of [{id: 1}]. *)
Lemma item_status_tags_witness :
  ∃ tags, itemStatusesOf identical stored1 (setItemStatus identical Nat.eqb stored1 6 held)
          = Some tags
    ∧ 6 ∈ tags ∧ 5 ∈ tags.
Proof.
  pose proof (item_status_tags identical Nat.eqb stored1 6 held identical_identity
                Nat.eqb_eq) as H.
  cbv zeta in H. destruct H as ((tags & Htags & Hin) & _).
  exists tags. split; [exact Htags|]. split; apply Hin.
  - left. reflexivity.
  - right. apply list_elem_of_In. vm_compute. left. reflexivity.
Defined.

(** [upsert_keeps_other_entities] on a refresh of [{id: 1}]. *)
Lemma upsert_keeps_other_entities_witness :
  items (run defaults true (OpRefresh stored1 (Next (Some fetched1))) twoOfTen).1 !! 1
  = Some stored2.
Proof.
  apply (upsert_keeps_other_entities equal equalArray sameValueZero defaults true
           (OpRefresh stored1 (Next (Some fetched1))) fetched1 twoOfTen).
  - left. exists stored1. reflexivity.
  - reflexivity.
  - reflexivity.
Defined.

(** [upserted_entity_is_found] on the same refresh. *)
Lemma upserted_entity_is_found_witness :
  getItem equal fetched1
    (run defaults true (OpRefresh stored1 (Next (Some fetched1))) twoOfTen).1
  = Some fetched1.
Proof.
  apply (upserted_entity_is_found equal equalArray sameValueZero defaults true
           (OpRefresh stored1 (Next (Some fetched1))) fetched1 twoOfTen
           equal_symmetric).
  - reflexivity.
  - vm_compute. lia.
  - left. exists stored1. reflexivity.
Defined.

(** [deleted_entity_is_not_found] on [{id: 1}] and on the list [[{id: 2}]]. *)
Lemma deleted_entity_is_not_found_witness :
  getItem equal stored1
    (delete equal equalArray sameValueZero defaults true (E:=unit)
       stored1 (Next RNullish) None None twoOfTen).1 = None
  ∧ getItem equal stored2
      (deleteMany equal equalArray sameValueZero defaults true (E:=unit)
         [stored2] (Next [RNullish]) None None twoOfTen).1 = None.
Proof.
  apply (deleted_entity_is_not_found equal equalArray sameValueZero defaults true
           (E:=unit) stored1 stored2 [stored2] RNullish [RNullish] None twoOfTen).
  apply list_elem_of_In. left. reflexivity.
Defined.

(** [empty_batch_is_silent] on an empty page whose [totalCount] is [null],
    in a collection with a total of 7. *)
Lemma empty_batch_is_silent_witness :
  let fetched : Fetched Entity := Structured [] (Some Null) in
  Forall (λ r : State * list (Event Entity unit nat),
            items r.1 = [stored1] ∧ totalCountFetched r.1 = Some Null ∧ r.2 = [])
    [createMany equal defaults true (Next (Some fetched)) onePage;
     refreshMany equal equalArray sameValueZero defaults true [stored1]
       (Next (Some fetched)) onePage;
     readMany equal defaults true (Next (Some fetched)) onePage].
Proof.
  apply (empty_batch_is_silent equal equalArray sameValueZero defaults true (E:=unit)
           [stored1] (Structured [] (Some Null)) onePage).
  reflexivity.
Defined.

(** [ambiguous_update_is_refused] on [{id: 1}] stored twice, with an error
    reporter that returns. *)
Lemma ambiguous_update_is_refused_witness :
  let r := update equal equalArray sameValueZero reporting true (E:=unit)
             stored1 (Next (Some partial1)) None twiceOne in
  sameCollection twiceOne r.1
  ∧ (∀ arg, CallOnSuccess arg ∉ r.2)
  ∧ callbacks r.2 = [CallOnError (ErrDuplicateParam 409)].
Proof.
  intros r.
  assert (2 ≤ matchCount equal partial1 (items twiceOne)) as Hc by (vm_compute; lia).
  pose proof (ambiguous_update_is_refused equal equalArray sameValueZero reporting true
                (E:=unit) stored1 partial1 twiceOne Hc) as H.
  cbv zeta in H. destruct H as (Hsame & Hnone & Hcalls).
  split; [exact Hsame|]. split; [exact Hnone|]. apply Hcalls.
  intros reporter report Hreporter. injection Hreporter as <-. reflexivity.
Defined.

End ByIdExamples.
